(** * PythonPhot: cubic interpolation (rinter.py) and PSF evaluation (dao_value.py)

    A shallow embedding of the two source files of the repository.

    - numpy float64 arithmetic is modelled by exact rational arithmetic on
      [Qc]; rounding, overflow, infinities and NaN are outside the model.
    - Python exceptions are modelled by the error monad [res].
    - numpy arrays of rank 0, 1 and 2 are modelled by [ndarray], with numpy's
      broadcasting rules, wrap-around of negative subscripts and the
      IndexError raised by a subscript that is out of range.
    - The coordinate arguments X and Y are modelled as one value of type
      [coords]: both scalars, both vectors, or both 2-D arrays, which is the
      documented input of RINTER (two vectors or two N x M arrays) extended
      with the scalar case. *)

From Stdlib Require Import ZArith QArith Qcanon Lia.
From stdpp Require Import base numbers list.

Local Open Scope Z_scope.

(** ** Exceptions *)

Inductive exn : Set :=
| ValueError
| IndexError
| TypeError
| NameError.

Inductive res (A : Type) : Type :=
| Ok (a : A)
| Raise (e : exn).
Arguments Ok {A} a.
Arguments Raise {A} e.

Global Instance res_ret : MRet res := fun A a => Ok a.
Global Instance res_bind : MBind res := fun A B f m =>
  match m with
  | Ok a => f a
  | Raise e => Raise e
  end.

Definition is_ok {A} (r : res A) : bool :=
  match r with Ok _ => true | Raise _ => false end.

Definition raises {A} (r : res A) : Prop := exists e, r = Raise e.

(** ** Numbers *)

Definition Qc_half : Qc := Q2Qc (1 # 2).
Definition Qc_two : Qc := Qc_of_Z 2.
Definition Qc_three : Qc := Qc_of_Z 3.
Definition Qc_five : Qc := Qc_of_Z 5.

(** [astype(int)]: truncation toward zero. *)
Definition Qc_trunc (q : Qc) : Z := Z.quot (Qnum q) (Z.pos (Qden q)).

Definition Qc_ltb (a b : Qc) : bool := bool_decide (a < b)%Qc.

(** ** Arrays

    A rank-2 array of shape (r, c) keeps its elements in row-major order;
    it is well formed when it has r * c elements. *)

Inductive ndarray : Type :=
| Nd0 (v : Qc)
| Nd1 (l : list Qc)
| Nd2 (r c : nat) (d : list Qc).

Definition nd_wf (a : ndarray) : Prop :=
  match a with
  | Nd2 r c d => length d = (r * c)%nat
  | _ => True
  end.

Definition nd_data (a : ndarray) : list Qc :=
  match a with
  | Nd0 v => [v]
  | Nd1 l => l
  | Nd2 _ _ d => d
  end.

(** [np.shape] *)
Definition nd_shape (a : ndarray) : list nat :=
  match a with
  | Nd0 _ => []
  | Nd1 l => [length l]
  | Nd2 r c _ => [r; c]
  end.

Definition nd_rank (a : ndarray) : nat := length (nd_shape a).

(** Every array seen as a matrix: a scalar is 1 x 1, a vector is 1 x n. *)
Definition nd_dims (a : ndarray) : nat * nat :=
  match a with
  | Nd0 _ => (1, 1)%nat
  | Nd1 l => (1, length l)%nat
  | Nd2 r c _ => (r, c)
  end.

Definition nd_pack (rank : nat) (r c : nat) (d : list Qc) : ndarray :=
  match rank with
  | O => Nd0 (default 0%Qc (head d))
  | S O => Nd1 d
  | _ => Nd2 r c d
  end.

Definition nd_map (f : Qc -> Qc) (a : ndarray) : ndarray :=
  match a with
  | Nd0 v => Nd0 (f v)
  | Nd1 l => Nd1 (f <$> l)
  | Nd2 r c d => Nd2 r c (f <$> d)
  end.

(** Broadcasting of one dimension. *)
Definition bdim (n m : nat) : res nat :=
  if decide (n = m) then Ok n
  else if decide (n = 1%nat) then Ok m
  else if decide (m = 1%nat) then Ok n
  else Raise ValueError.

(** The rows of a row-major matrix with [c] columns. *)
Definition rows_of (r c : nat) (d : list Qc) : list (list Qc) :=
  (fun i => take c (drop (i * c) d)) <$> seq 0 r.

Definition stretch {A} (n : nat) (l : list A) : list A :=
  if decide (length l = n) then l
  else match l with
       | a :: _ => replicate n a
       | [] => []
       end.

(** The elements of [a] broadcast to the shape (r, c); a dimension of [a]
    has the size asked for, or size 1. *)
Definition broadcast_to (a : ndarray) (r c : nat) : res (list Qc) :=
  let '(ra, ca) := nd_dims a in
  if decide ((ra = r \/ ra = 1%nat) /\ (ca = c \/ ca = 1%nat)) then
    if decide (ra = r /\ ca = c) then Ok (nd_data a)
    else Ok (concat (stretch r (stretch c <$> rows_of ra ca (nd_data a))))
  else Raise ValueError.

(** An elementwise binary operation with broadcasting. *)
Definition nd_op (f : Qc -> Qc -> Qc) (a b : ndarray) : res ndarray :=
  let '(ra, ca) := nd_dims a in
  let '(rb, cb) := nd_dims b in
  r ← bdim ra rb;
  c ← bdim ca cb;
  da ← broadcast_to a r c;
  db ← broadcast_to b r c;
  Ok (nd_pack (nd_rank a `max` nd_rank b) r c (zip_with f da db)).

Definition nd_add := nd_op Qcplus.
Definition nd_sub := nd_op Qcminus.
Definition nd_mul := nd_op Qcmult.
Definition nd_scale (k : Qc) : ndarray -> ndarray := nd_map (Qcmult k).

(** A subscript of a dimension of size [n]: negative subscripts count from
    the end, and a subscript outside [-n, n) raises IndexError. *)
Definition py_index (n : nat) (k : Z) : res nat :=
  let k' := if decide (k < 0) then k + Z.of_nat n else k in
  if decide (0 <= k' < Z.of_nat n) then Ok (Z.to_nat k') else Raise IndexError.

Fixpoint mapM {A B} (f : A -> res B) (l : list A) : res (list B) :=
  match l with
  | [] => Ok []
  | a :: l' => b ← f a; bs ← mapM f l'; Ok (b :: bs)
  end.

(** [a[k]] for an integer [k]. *)
Definition nd_item (a : ndarray) (k : Z) : res ndarray :=
  match a with
  | Nd0 _ => Raise IndexError
  | Nd1 l => i ← py_index (length l) k; Ok (Nd0 (default 0%Qc (l !! i)))
  | Nd2 r c d => i ← py_index r k; Ok (Nd1 (take c (drop (i * c) d)))
  end.

(** [a[idx]] for an integer vector [idx]: elements of a vector, rows of a
    matrix. *)
Definition nd_take (a : ndarray) (idx : list Z) : res ndarray :=
  match a with
  | Nd0 _ => Raise IndexError
  | Nd1 l =>
      js ← mapM (py_index (length l)) idx;
      Ok (Nd1 ((fun i => default 0%Qc (l !! i)) <$> js))
  | Nd2 r c d =>
      js ← mapM (py_index r) idx;
      Ok (Nd2 (length idx) c (js ≫= (fun i => take c (drop (i * c) d))))
  end.

(** Overwrite [l] from position [i] with the elements of [v]. *)
Definition overwrite (i : nat) (v l : list Qc) : list Qc :=
  take i l ++ take (length l - i) v ++ drop (i + length v) l.

(** The assignments [l[i] = x], made in the order of the list. *)
Definition put_elems (l : list Qc) (ps : list (nat * Qc)) : list Qc :=
  foldl (fun acc p => <[p.1:=p.2]> acc) l ps.

(** The assignments of the row [i] of a matrix with [c] columns. *)
Definition put_rows (c : nat) (d : list Qc) (ps : list (nat * list Qc)) : list Qc :=
  foldl (fun acc p => overwrite (p.1 * c) p.2 acc) d ps.

(** [a[idx] = v] for an integer vector [idx]: the assignments are made in
    the order of [idx]. *)
Definition nd_put (a : ndarray) (idx : list Z) (v : ndarray) : res ndarray :=
  match a with
  | Nd0 _ => Raise IndexError
  | Nd1 l =>
      js ← mapM (py_index (length l)) idx;
      dv ← broadcast_to v 1 (length idx);
      Ok (Nd1 (put_elems l (zip js dv)))
  | Nd2 r c d =>
      js ← mapM (py_index r) idx;
      dv ← broadcast_to v (length idx) c;
      Ok (Nd2 r c (put_rows c d (zip js (rows_of (length idx) c dv))))
  end.

(** [np.zeros(n)] *)
Definition np_zeros (n : nat) : list Qc := replicate n 0%Qc.

(** [a.reshape(n)] and [a.reshape(r, c)] *)
Definition nd_reshape1 (a : ndarray) (n : nat) : res ndarray :=
  if decide (length (nd_data a) = n) then Ok (Nd1 (nd_data a))
  else Raise ValueError.

Definition nd_reshape2 (a : ndarray) (r c : nat) : res ndarray :=
  if decide (length (nd_data a) = (r * c)%nat) then Ok (Nd2 r c (nd_data a))
  else Raise ValueError.

(** ** Python values passed as the look-up table

    The table argument is an array, or the empty string that [dao_value]
    has as the default of its parameter [psf1d]. *)

Inductive pyobj : Type :=
| PEmptyStr
| PArr (a : ndarray).

(** [len(p)] *)
Definition py_len (p : pyobj) : res nat :=
  match p with
  | PEmptyStr => Ok 0%nat
  | PArr (Nd0 _) => Raise TypeError
  | PArr (Nd1 l) => Ok (length l)
  | PArr (Nd2 r _ _) => Ok r
  end.

(** [np.shape(p)] *)
Definition np_shape (p : pyobj) : list nat :=
  match p with
  | PEmptyStr => []
  | PArr a => nd_shape a
  end.

(** [t[k]] for a tuple [t] *)
Definition tuple_get (t : list nat) (k : nat) : res nat :=
  match t !! k with
  | Some n => Ok n
  | None => Raise IndexError
  end.

(** [max(l)], the Python builtin *)
Definition py_max (l : list Z) : res Z :=
  match l with
  | [] => Raise ValueError
  | a :: l' => Ok (foldl Z.max a l')
  end.

(** [int(np.sqrt(n))] *)
Definition isqrt (n : nat) : nat := Z.to_nat (Z.sqrt (Z.of_nat n)).

(** The bounds of the slice [start:stop] of a dimension of size [n]. *)
Definition slice_bound (n : nat) (k : Z) : nat :=
  Z.to_nat (Z.min (Z.of_nat n)
                  (Z.max 0 (if decide (k < 0) then k + Z.of_nat n else k))).

(** [p[:, start:stop]] *)
Definition col_slice (p : pyobj) (start : Z) (stop : option Z) : res ndarray :=
  match p with
  | PEmptyStr => Raise TypeError
  | PArr (Nd2 r c d) =>
      let lo := slice_bound c start in
      let hi := match stop with Some s => slice_bound c s | None => c end in
      Ok (Nd2 r (hi - lo)
              (rows_of r c d ≫= (fun row => take (hi - lo) (drop lo row))))
  | PArr _ => Raise IndexError
  end.

(** [p[i, j] = v]: the value must have exactly one element. *)
Definition set_elem (p : pyobj) (i j : nat) (v : ndarray) : res pyobj :=
  match p with
  | PEmptyStr => Raise TypeError
  | PArr (Nd2 r c d) =>
      if decide (i < r /\ j < c)%nat then
        match nd_data v with
        | [x] => Ok (PArr (Nd2 r c (<[(i * c + j)%nat := x]> d)))
        | _ => Raise ValueError
        end
      else Raise IndexError
  | PArr _ => Raise IndexError
  end.

(** [l[lo:hi] = v] on a vector [l], with broadcasting of [v]. *)
Definition slice_assign (l : list Qc) (lo hi : nat) (v : pyobj) : res (list Qc) :=
  match v with
  | PEmptyStr => Raise ValueError
  | PArr a =>
      let lo' := Nat.min lo (length l) in
      let hi' := Nat.min hi (length l) in
      dv ← broadcast_to a 1 (hi' - lo');
      Ok (overwrite lo' dv l)
  end.

(** [p[k]] for an integer [k] *)
Definition py_item (p : pyobj) (k : Z) : res pyobj :=
  match p with
  | PEmptyStr => Raise IndexError
  | PArr a => v ← nd_item a k; Ok (PArr v)
  end.

(** [p*0.] *)
Definition py_times_zero (p : pyobj) : res ndarray :=
  match p with
  | PEmptyStr => Raise TypeError
  | PArr a => Ok (nd_map (fun v => v * 0)%Qc a)
  end.

Definition py_array (p : pyobj) : res ndarray :=
  match p with
  | PEmptyStr => Raise TypeError
  | PArr a => Ok a
  end.

(** Broadcasting of integer vectors. *)
Definition zbroadcast (f : Z -> Z -> Z) (a b : list Z) : res (list Z) :=
  n ← bdim (length a) (length b);
  Ok (zip_with f (stretch n a) (stretch n b)).

(** [np.histogram(a, bins=range(n))[0]]: the bin edges are 0, 1, ..., n-1;
    bin [k] is the half-open interval from k to k+1, but the last bin also
    holds its right edge. *)
Definition in_bin (n k v : Z) : bool :=
  bool_decide (v = k \/ (k = n - 2 /\ v = n - 1)).

Definition np_histogram (a : list Z) (n : Z) : list nat :=
  (fun k => length (filter (fun v => in_bin n k v = true) a)) <$> seqZ 0 (n - 1).

(** [np.where(num >= 1)[0]] *)
Definition np_where_ge1 (num : list nat) : list Z :=
  (fun kv => Z.of_nat kv.1) <$> filter (fun kv => (1 <= kv.2)%nat) (imap pair num).

(** ** rinter.py *)

Inductive coords : Type :=
| CScalar (x y : Qc)
| CVec (xs ys : list Qc)
| CGrid (xr xc : nat) (xd : list Qc) (yr yc : nat) (yd : list Qc).

Inductive output : Type :=
| Out1 (z : ndarray)
| Out3 (z dfdx dfdy : ndarray).

(** The coordinates after lines 83-89: scalars or vectors. *)
Inductive flat : Type :=
| FScalar (x y : Qc)
| FVec (xs ys : list Qc).

(** Lines 83-89: 2-D coordinates are flattened. *)
Definition rinter_flatten (xy : coords) : res (bool * flat) :=
  match xy with
  | CScalar x y => Ok (false, FScalar x y)
  | CVec xs ys => Ok (false, FVec xs ys)
  | CGrid xr xc xd yr yc yd =>
      x ← nd_reshape1 (Nd2 xr xc xd) (xr * xc);
      y ← nd_reshape1 (Nd2 yr yc yd) (yr * yc);
      Ok (true, FVec (nd_data x) (nd_data y))
  end.

(** Lines 91-95: the dimensions [c] of the table. *)
Definition rinter_dims (p : pyobj) (ps1d : bool) : res (list nat) :=
  if ps1d then plen ← py_len p; Ok [isqrt plen; isqrt plen]
  else Ok (np_shape p).

(** [0.5*(p1 - p_1)] *)
Definition coeff1 (p_1 p1 : ndarray) : res ndarray :=
  t ← nd_sub p1 p_1;
  Ok (nd_scale Qc_half t).

(** [2.*p1 + p_1 - 0.5*(5.*p0 + p2)] *)
Definition coeff2 (p_1 p0 p1 p2 : ndarray) : res ndarray :=
  a ← nd_add (nd_scale Qc_two p1) p_1;
  b ← nd_add (nd_scale Qc_five p0) p2;
  nd_sub a (nd_scale Qc_half b).

(** [0.5*(3.*(p0 - p1) + p2 - p_1)] *)
Definition coeff3 (p_1 p0 p1 p2 : ndarray) : res ndarray :=
  t ← nd_sub p0 p1;
  t ← nd_add (nd_scale Qc_three t) p2;
  t ← nd_sub t p_1;
  Ok (nd_scale Qc_half t).

(** Lines 103-111: the block run when [initialize] is set.  [p_1], [p1] and
    [p2] are three more names of the caller's array [p], so the assignments
    to their elements write into the table; the block gives back the table
    as it is when the block is left, also when it is left by an exception.
    The coefficients [c1], [c2], [c3] of lines 108-110 are local variables
    that no later line reads. *)
Definition rinter_init (c : list nat) (p : pyobj) : pyobj * res unit :=
  match tuple_get c 1 with
  | Raise e => (p, Raise e)
  | Ok nx =>
  match (v ← col_slice p 0 (Some (Z.of_nat nx - 2)); set_elem p 0 1 v) with
  | Raise e => (p, Raise e)
  | Ok pa =>
  match (v ← col_slice pa 1 None; set_elem pa 0 0 v) with
  | Raise e => (pa, Raise e)
  | Ok pb =>
  match (v ← col_slice pb 2 None; set_elem pb 0 0 v) with
  | Raise e => (pb, Raise e)
  | Ok pc =>
      (pc, a ← py_array pc;
           c1 ← coeff1 a a;
           c2 ← coeff2 a a a a;
           c3 ← coeff3 a a a a;
           Ok tt)
  end end end end.

(** [d*(d*(d*C3[xr] + C2[xr]) + C1[xr]) + P[xr]] *)
Definition horner_at (P C1 C2 C3 d : ndarray) (xr : list Z) : res ndarray :=
  g ← nd_take C3 xr; t ← nd_mul d g;
  g ← nd_take C2 xr; t ← nd_add t g;
  t ← nd_mul d t;
  g ← nd_take C1 xr; t ← nd_add t g;
  t ← nd_mul d t;
  g ← nd_take P xr; nd_add t g.

(** [d*(d*C3[xr]*3. + 2.*C2[xr]) + C1[xr]] *)
Definition dhorner_at (C1 C2 C3 d : ndarray) (xr : list Z) : res ndarray :=
  g ← nd_take C3 xr; t ← nd_mul d g;
  g ← nd_take C2 xr; t ← nd_add (nd_scale Qc_three t) (nd_scale Qc_two g);
  t ← nd_mul d t;
  g ← nd_take C1 xr; nd_add t g.

(** [d*(d*(d*c3 + c2) + c1) + p0] *)
Definition horner (d c3 c2 c1 p0 : ndarray) : res ndarray :=
  t ← nd_mul d c3; t ← nd_add t c2;
  t ← nd_mul d t; t ← nd_add t c1;
  t ← nd_mul d t; nd_add t p0.

(** [d*(d*c3*3. + 2.*c2) + c1] *)
Definition dhorner (d c3 c2 c1 : ndarray) : res ndarray :=
  t ← nd_mul d c3;
  t ← nd_add (nd_scale Qc_three t) (nd_scale Qc_two c2);
  t ← nd_mul d t; nd_add t c1.

(** Lines 163-181 and, with the arrays that are not padded, lines 193-211:
    the four row values and the derivative with respect to x. *)
Definition rinter_eval (P C1 C2 C3 : ndarray) (x_1 x0 x1 x2 : list Z)
    (xdist ydist : ndarray) (deriv : bool)
  : res (ndarray * ndarray * ndarray * ndarray * option ndarray) :=
  y_1 ← horner_at P C1 C2 C3 xdist x_1;
  y0 ← horner_at P C1 C2 C3 xdist x0;
  y1 ← horner_at P C1 C2 C3 xdist x1;
  y2 ← horner_at P C1 C2 C3 xdist x2;
  if deriv then
    dy_1 ← dhorner_at C1 C2 C3 xdist x_1;
    dy0 ← dhorner_at C1 C2 C3 xdist x0;
    dy1 ← dhorner_at C1 C2 C3 xdist x1;
    dy2 ← dhorner_at C1 C2 C3 xdist x2;
    d1 ← coeff1 dy_1 dy1;
    d2 ← coeff2 dy_1 dy0 dy1 dy2;
    d3 ← coeff3 dy_1 dy0 dy1 dy2;
    dfdx ← horner ydist d3 d2 d1 dy0;
    Ok (y_1, y0, y1, y2, Some dfdx)
  else Ok (y_1, y0, y1, y2, None).

Definition nd_len (a : ndarray) : res nat := py_len (PArr a).

Definition zshift (k : Z) (l : list Z) : list Z := (fun v => v + k) <$> l.

(** Lines 141-158: the table and the coefficient arrays are extended to
    [max(xgood)+3] elements by repeating their last element, and the
    coefficients are computed at the subscripts [xgood]. *)
Definition rinter_pad (p : pyobj) (mx : Z) (xgood : list Z)
  : res (ndarray * ndarray * ndarray * ndarray) :=
  let n := Z.to_nat (mx + 3) in
  plen ← py_len p;
  p_new ← slice_assign (np_zeros n) 0 plen p;
  last ← py_item p (Z.of_nat plen - 1);
  p_new ← slice_assign p_new plen (length p_new) last;
  c1 ← py_times_zero p;
  c2 ← py_times_zero p;
  c3 ← py_times_zero p;
  clen ← nd_len c1;
  c1_new ← slice_assign (np_zeros n) 0 clen (PArr c1);
  c2_new ← slice_assign (np_zeros n) 0 clen (PArr c2);
  c3_new ← slice_assign (np_zeros n) 0 clen (PArr c3);
  l1 ← nd_item c1 (Z.of_nat clen - 1);
  l2 ← nd_item c2 (Z.of_nat clen - 1);
  l3 ← nd_item c3 (Z.of_nat clen - 1);
  c1_new ← slice_assign c1_new clen (length c1_new) (PArr l1);
  c2_new ← slice_assign c2_new clen (length c2_new) (PArr l2);
  c3_new ← slice_assign c3_new clen (length c3_new) (PArr l3);
  p_1 ← nd_take (Nd1 p_new) (zshift (-1) xgood);
  p0 ← nd_take (Nd1 p_new) xgood;
  p1 ← nd_take (Nd1 p_new) (zshift 1 xgood);
  p2 ← nd_take (Nd1 p_new) (zshift 2 xgood);
  v ← coeff1 p_1 p1; c1_new ← nd_put (Nd1 c1_new) xgood v;
  v ← coeff2 p_1 p0 p1 p2; c2_new ← nd_put (Nd1 c2_new) xgood v;
  v ← coeff3 p_1 p0 p1 p2; c3_new ← nd_put (Nd1 c3_new) xgood v;
  Ok (Nd1 p_new, c1_new, c2_new, c3_new).

(** Lines 184-189: the coefficients at the subscripts [xgood], on arrays of
    the size of the table. *)
Definition rinter_nopad (p : pyobj) (xgood : list Z)
  : res (ndarray * ndarray * ndarray * ndarray) :=
  a ← py_array p;
  p_1 ← nd_take a (zshift (-1) xgood);
  p0 ← nd_take a xgood;
  p1 ← nd_take a (zshift 1 xgood);
  p2 ← nd_take a (zshift 2 xgood);
  c1 ← py_times_zero p;
  c2 ← py_times_zero p;
  c3 ← py_times_zero p;
  v ← coeff1 p_1 p1; c1 ← nd_put c1 xgood v;
  v ← coeff2 p_1 p0 p1 p2; c2 ← nd_put c2 xgood v;
  v ← coeff3 p_1 p0 p1 p2; c3 ← nd_put c3 xgood v;
  Ok (a, c1, c2, c3).

(** Lines 132-135: the distinct subscripts that the batch needs. *)
Definition rinter_xgood (x_1 x0 x1 x2 : list Z) : res (list Z) :=
  let xgood := x_1 ++ x0 ++ x1 ++ x2 in
  mx ← py_max xgood;
  Ok (np_where_ge1 (np_histogram xgood (mx + 2))).

(** Lines 127-129: a 2-D table is flattened when [ps1d] is not set. *)
Definition rinter_table (p : pyobj) (ps1d : bool) : res pyobj :=
  if ps1d then Ok p
  else match p with
       | PArr (Nd2 r c d) => a ← nd_reshape1 (Nd2 r c d) (r * c); Ok (PArr a)
       | _ => Raise IndexError
       end.

(** Lines 132-158 and 184-189: the table and the coefficient arrays that
    the evaluation reads. *)
Definition rinter_gather (p : pyobj) (x_1 x0 x1 x2 : list Z)
  : res (ndarray * ndarray * ndarray * ndarray) :=
  xgood ← rinter_xgood x_1 x0 x1 x2;
  mx ← py_max xgood;
  plen ← py_len p;
  if decide (mx > Z.of_nat plen - 3) then rinter_pad p mx xgood
  else rinter_nopad p xgood.

(** Lines 213-237: the interpolation along y, and the value returned.  The
    test of line 220 never holds, since [sx] is the shape of [x] after line
    88 made it a vector: lines 222-225 are not modelled. *)
Definition rinter_finish (xy : coords) (reshape_flag deriv : bool)
    (ydist y_1 y0 y1 y2 : ndarray) (dfdx : option ndarray) : res output :=
  d1 ← coeff1 y_1 y1;
  d2 ← coeff2 y_1 y0 y1 y2;
  d3 ← coeff3 y_1 y0 y1 y2;
  z ← horner ydist d3 d2 d1 y0;
  let reshaped (z : ndarray) : res ndarray :=
    match xy with
    | CGrid xr xc _ _ _ _ => nd_reshape2 z xr xc
    | _ => Ok z
    end in
  if deriv then
    dfdy ← dhorner ydist d3 d2 d1;
    match dfdx with
    | None => Raise NameError
    | Some dfdx =>
        if reshape_flag then z ← reshaped z; Ok (Out3 z dfdx dfdy)
        else Ok (Out3 z dfdx dfdy)
    end
  else
    if reshape_flag then z ← reshaped z; Ok (Out1 z)
    else Ok (Out1 z).

(** Lines 113-237, for the table [p] as the block of lines 103-111 left it.
    Scalar coordinates are taken as numpy scalars, which pass lines 117-123
    (a Python float has no [astype] and raises at line 117 already). *)
Definition rinter_body (p : pyobj) (c : list nat) (xy : coords)
    (reshape_flag : bool) (f : flat) (deriv initialize ps1d : bool) : res output :=
  stride ← tuple_get c 1;
  match f with
  | FScalar x y =>
      p ← rinter_table p ps1d;
      if initialize then Raise NameError   (* line 213: y1 is not bound *)
      else Raise ValueError                (* line 132: 0-d arrays *)
  | FVec xs ys =>
      let i := Qc_trunc <$> xs in
      let j := Qc_trunc <$> ys in
      let xdist := Nd1 ((fun x => x - Qc_of_Z (Qc_trunc x))%Qc <$> xs) in
      let ydist := Nd1 ((fun y => y - Qc_of_Z (Qc_trunc y))%Qc <$> ys) in
      x_1 ← zbroadcast Z.add ((fun j => Z.of_nat stride * (j - 1)) <$> j) i;
      let x0 := zshift (Z.of_nat stride) x_1 in
      let x1 := zshift (Z.of_nat stride) x0 in
      let x2 := zshift (Z.of_nat stride) x1 in
      p ← rinter_table p ps1d;
      if initialize then Raise NameError   (* line 213: y1 is not bound *)
      else
        '(P, C1, C2, C3) ← rinter_gather p x_1 x0 x1 x2;
        '(y_1, y0, y1, y2, dfdx) ←
          rinter_eval P C1 C2 C3 x_1 x0 x1 x2 xdist ydist deriv;
        rinter_finish xy reshape_flag deriv ydist y_1 y0 y1 y2 dfdx
  end.

(** [rinter(p, x, y, deriv, initialize, ps1d)]: the caller's table when the
    call is left, and the value returned or the exception raised. *)
Definition rinter (p : pyobj) (xy : coords) (deriv initialize ps1d : bool)
  : pyobj * res output :=
  match rinter_flatten xy with
  | Raise e => (p, Raise e)
  | Ok (reshape_flag, f) =>
  match rinter_dims p ps1d with
  | Raise e => (p, Raise e)
  | Ok c =>
      let '(p', r) := if initialize then rinter_init c p else (p, Ok tt) in
      (p', _ ← r; rinter_body p' c xy reshape_flag f deriv initialize ps1d)
  end end.

(** ** dao_value.py *)

Definition coords_map (f : Qc -> Qc) (xy : coords) : coords :=
  match xy with
  | CScalar x y => CScalar (f x) (f y)
  | CVec xs ys => CVec (f <$> xs) (f <$> ys)
  | CGrid xr xc xd yr yc yd => CGrid xr xc (f <$> xd) yr yc (f <$> yd)
  end.

Definition coords_x (xy : coords) : ndarray :=
  match xy with
  | CScalar x _ => Nd0 x
  | CVec xs _ => Nd1 xs
  | CGrid xr xc xd _ _ _ => Nd2 xr xc xd
  end.

Definition coords_y (xy : coords) : ndarray :=
  match xy with
  | CScalar _ y => Nd0 y
  | CVec _ ys => Nd1 ys
  | CGrid _ _ _ yr yc yd => Nd2 yr yc yd
  end.

Definition Qc_min (a b : Qc) : Qc := if Qc_ltb b a then b else a.
Definition Qc_max (a b : Qc) : Qc := if Qc_ltb a b then b else a.

(** [np.min(a)] and [np.max(a)]: an array without elements raises. *)
Definition np_min (a : ndarray) : res Qc :=
  match nd_data a with
  | [] => Raise ValueError
  | v :: l => Ok (foldl Qc_min v l)
  end.

Definition np_max (a : ndarray) : res Qc :=
  match nd_data a with
  | [] => Raise ValueError
  | v :: l => Ok (foldl Qc_max v l)
  end.

(** [a[k, :]] *)
Definition nd_row (a : ndarray) (k : nat) : res ndarray :=
  match a with
  | Nd2 r c d =>
      if decide (k < r)%nat then Ok (Nd1 (take c (drop (k * c) d)))
      else Raise IndexError
  | _ => Raise IndexError
  end.

Section DaoValue.

(** [daoerf.daoerf(xx, yy, gauss)] is not among the sources: the Gaussian
    evaluator is a parameter, which returns the value [e] and the array
    [pder] of partial derivatives, or raises. *)
Variable daoerf : coords -> list Qc -> res (ndarray * ndarray).

(** Lines 68-69: the test for a position too close to the edge; [or]
    evaluates its operands from left to right and stops at the first
    that holds. *)
Definition dao_edge (x y : ndarray) (npsf : nat) : res bool :=
  let hi := (Qc_of_Z (Z.of_nat npsf) - Qc_two)%Qc in
  m ← np_min x;
  if Qc_ltb m 1 then Ok true else
  m ← np_max x;
  if Qc_ltb hi m then Ok true else
  m ← np_min y;
  if Qc_ltb m 1 then Ok true else
  m ← np_max y;
  Ok (Qc_ltb hi m).

Definition dao_rescale (npsf : nat) (v : Qc) : Qc :=
  (Qc_two * v + Qc_of_Z (Z.of_nat npsf - 1) / Qc_two)%Qc.

Definition dao_value (xy : coords) (gauss : list Qc) (psf psf1d : pyobj)
    (deriv ps1d : bool) : res output :=
  npsf ← tuple_get (np_shape psf) 1;
  let g := coords_map (dao_rescale npsf) xy in
  edge ← dao_edge (coords_x g) (coords_y g) npsf;
  if (edge : bool) then
    let zeros := nd_map (fun v => v * 0)%Qc (coords_x xy) in
    if deriv then Ok (Out3 zeros zeros zeros) else Ok (Out1 zeros)
  else if deriv then
    '(e, pder) ← daoerf xy gauss;
    out ← (if ps1d then (rinter psf1d g true false true).2
           else (rinter psf g true false false).2);
    match out with
    | Out1 _ => Raise TypeError
    | Out3 value dfdx dfdy =>
        value ← (if ps1d then nd_add e value
                 else r ← tuple_get (nd_shape value) 0;
                      c ← tuple_get (nd_shape value) 1;
                      e ← nd_reshape2 e r c;
                      nd_add e value);
        px ← nd_row pder 1;
        dvdx ← nd_sub (nd_scale Qc_two dfdx) px;
        py ← nd_row pder 2;
        dvdy ← nd_sub (nd_scale Qc_two dfdy) py;
        Ok (Out3 value dvdx dvdy)
    end
  else
    '(e, pder) ← daoerf xy gauss;
    if ps1d then
      out ← (rinter psf g false false true).2;
      match out with
      | Out1 z => value ← nd_add e z; Ok (Out1 value)
      | Out3 _ _ _ => Raise TypeError
      end
    else
      out ← (rinter psf g false false false).2;
      match out with
      | Out1 value =>
          r ← tuple_get (nd_shape value) 0;
          c ← tuple_get (nd_shape value) 1;
          e ← nd_reshape2 e r c;
          value ← nd_add e value;
          Ok (Out1 value)
      | Out3 _ _ _ => Raise TypeError
      end.

End DaoValue.

(** ** The interpolation of one sample, as the specification words it

    The four neighbours [p_1], [p0], [p1], [p2] give the coefficients
    [c1], [c2], [c3]; the cubic is evaluated in Horner form at the
    fractional part [d]. *)

Definition cubic_c1 (p_1 p0 p1 p2 : Qc) : Qc :=
  (Qc_half * (p1 - p_1))%Qc.
Definition cubic_c2 (p_1 p0 p1 p2 : Qc) : Qc :=
  (Qc_two * p1 + p_1 - Qc_half * (Qc_five * p0 + p2))%Qc.
Definition cubic_c3 (p_1 p0 p1 p2 : Qc) : Qc :=
  (Qc_half * (Qc_three * (p0 - p1) + p2 - p_1))%Qc.

Definition cubic (p_1 p0 p1 p2 d : Qc) : Qc :=
  (d * (d * (d * cubic_c3 p_1 p0 p1 p2 + cubic_c2 p_1 p0 p1 p2)
        + cubic_c1 p_1 p0 p1 p2) + p0)%Qc.

Definition dcubic (p_1 p0 p1 p2 d : Qc) : Qc :=
  (d * (Qc_three * (d * cubic_c3 p_1 p0 p1 p2) + Qc_two * cubic_c2 p_1 p0 p1 p2)
   + cubic_c1 p_1 p0 p1 p2)%Qc.

Definition frac (x : Qc) : Qc := (x - Qc_of_Z (Qc_trunc x))%Qc.

(** The element that the subscript [k] reads in the vector [P]: a negative
    subscript counts from the end. *)
Definition wrap (n : nat) (k : Z) : nat :=
  Z.to_nat (if decide (k < 0) then k + Z.of_nat n else k).

Definition tab_at (P : list Qc) (k : Z) : Qc := default 0%Qc (P !! wrap (length P) k).

(** The subscript of the sample [s] = (x, y) in the row [r] of its four
    rows: [x_1], [x0], [x1], [x2] for [r] = 0, 1, 2, 3. *)
Definition row_index (stride : Z) (s : Qc * Qc) (r : Z) : Z :=
  stride * (Qc_trunc s.2 - 1) + Qc_trunc s.1 + r * stride.

Definition row_value (P : list Qc) (stride : Z) (s : Qc * Qc) (r : Z) : Qc :=
  let k := row_index stride s r in
  cubic (tab_at P (k - 1)) (tab_at P k) (tab_at P (k + 1)) (tab_at P (k + 2))
        (frac s.1).

Definition row_deriv (P : list Qc) (stride : Z) (s : Qc * Qc) (r : Z) : Qc :=
  let k := row_index stride s r in
  dcubic (tab_at P (k - 1)) (tab_at P k) (tab_at P (k + 1)) (tab_at P (k + 2))
         (frac s.1).

Definition bicubic (P : list Qc) (stride : Z) (s : Qc * Qc) : Qc :=
  cubic (row_value P stride s 0) (row_value P stride s 1)
        (row_value P stride s 2) (row_value P stride s 3) (frac s.2).

Definition bicubic_dx (P : list Qc) (stride : Z) (s : Qc * Qc) : Qc :=
  cubic (row_deriv P stride s 0) (row_deriv P stride s 1)
        (row_deriv P stride s 2) (row_deriv P stride s 3) (frac s.2).

Definition bicubic_dy (P : list Qc) (stride : Z) (s : Qc * Qc) : Qc :=
  dcubic (row_value P stride s 0) (row_value P stride s 1)
         (row_value P stride s 2) (row_value P stride s 3) (frac s.2).

(** The subscripts that a batch needs, and the table that the evaluation
    reads: the table itself, or the table extended by copies of its last
    element when the largest subscript [mx] is beyond its last but two. *)
Definition needed (stride : Z) (ss : list (Qc * Qc)) : list Z :=
  ((fun s => row_index stride s 0) <$> ss) ++ ((fun s => row_index stride s 1) <$> ss)
  ++ ((fun s => row_index stride s 2) <$> ss) ++ ((fun s => row_index stride s 3) <$> ss).

Definition table_ext (l : list Qc) (mx : Z) : list Qc :=
  if decide (mx > Z.of_nat (length l) - 3)
  then l ++ replicate (Z.to_nat (mx + 3) - length l) (default 0%Qc (last l))
  else l.

Definition batch_table (l : list Qc) (stride : Z) (ss : list (Qc * Qc)) : list Qc :=
  match py_max (needed stride ss) with
  | Ok mx => table_ext l mx
  | Raise _ => l
  end.

(** The coefficient arrays hold, at each of the subscripts [xgood], the
    coefficients of the four neighbours in the table that is read. *)
Definition coeffs_at (P c1 c2 c3 : list Qc) (k : Z) : Prop :=
  tab_at c1 k = cubic_c1 (tab_at P (k - 1)) (tab_at P k) (tab_at P (k + 1)) (tab_at P (k + 2))
  /\ tab_at c2 k = cubic_c2 (tab_at P (k - 1)) (tab_at P k) (tab_at P (k + 1)) (tab_at P (k + 2))
  /\ tab_at c3 k = cubic_c3 (tab_at P (k - 1)) (tab_at P k) (tab_at P (k + 1)) (tab_at P (k + 2)).

Definition coeffs_ok (P c1 c2 c3 : list Qc) (xgood : list Z) : Prop :=
  length c1 = length P /\ length c2 = length P /\ length c3 = length P
  /\ forall k, k ∈ xgood -> coeffs_at P c1 c2 c3 k.

(** The two ways to pass a table that [rinter] reads as a vector with a
    row stride: a vector with [ps1d] set, whose stride is the integer square
    root of its length, or a matrix with [ps1d] not set, whose stride is its
    number of columns. *)
Definition table_flat (p : pyobj) (ps1d : bool) : option (list Qc * nat) :=
  match p with
  | PArr (Nd1 l) => if ps1d then Some (l, isqrt (length l)) else None
  | PArr (Nd2 r c d) =>
      if ps1d then None
      else if decide (length d = (r * c)%nat) then Some (d, c) else None
  | _ => None
  end.

(** What [rinter] returns: the value alone, or the value and the two
    derivatives. *)
Definition rinter_out (deriv : bool) (z dfdx dfdy : ndarray) : output :=
  if deriv then Out3 z dfdx dfdy else Out1 z.

(** Tables and numbers for the examples: the values 0, 1, ..., n*n - 1 of
    an n x n table in row-major order. *)
Definition ramp (n : Z) : list Qc := Qc_of_Z <$> seqZ 0 (n * n).

Definition qc (a : Z) (b : positive) : Qc := Q2Qc (a # b).

(** The array of zeros of the shape of [a]. *)
Definition zeros_like (a : ndarray) : ndarray := nd_map (fun _ => 0%Qc) a.

(** [xx] and [yy] have as many elements. *)
Definition coords_matching (xy : coords) : Prop :=
  length (nd_data (coords_x xy)) = length (nd_data (coords_y xy)).

(** All the coordinates of a batch, those of [xx] and then those of [yy]. *)
Definition coords_all (xy : coords) : list Qc :=
  nd_data (coords_x xy) ++ nd_data (coords_y xy).

(** A rescaled coordinate outside the interval from 1 to N - 2. *)
Definition off_table (N : nat) (g : Qc) : Prop :=
  (g < 1 \/ Qc_of_Z (Z.of_nat N) - Qc_two < g)%Qc.

(** A Gaussian evaluator for the examples: one value and its three
    partial derivatives, for a batch of one sample. *)
Definition example_daoerf (xy : coords) (gauss : list Qc) : res (ndarray * ndarray) :=
  Ok (Nd1 [qc 1 2], Nd2 3 1 [qc 1 1; qc 2 1; qc 3 1]).

(** A table is well formed when it is not a matrix, or is a matrix of
    r * c elements; it has a single row when it is a matrix with r = 1. *)
Definition table_wf (p : pyobj) : Prop :=
  match p with
  | PEmptyStr => True
  | PArr a => nd_wf a
  end.

Definition single_row (p : pyobj) : Prop :=
  match p with
  | PArr (Nd2 r _ _) => r = 1%nat
  | _ => False
  end.

(** ** Vocabulary of the further properties

    The value that an evaluation reads at the subscript [k], whatever the
    batch: an element of the table, or its last element for a subscript
    before the first or after the last element. *)
Definition edge_read (l : list Qc) (k : Z) : Qc :=
  if decide (0 <= k < Z.of_nat (length l)) then tab_at l k
  else default 0%Qc (last l).

(** Polynomials of degree at most two in one and in two variables, and
    their derivatives: [c] holds the coefficients of 1, t and t*t. *)
Definition poly2 (c : Qc * Qc * Qc) (t : Qc) : Qc :=
  (c.1.1 + t * (c.1.2 + t * c.2))%Qc.

Definition dpoly2 (c : Qc * Qc * Qc) (t : Qc) : Qc :=
  (c.1.2 + Qc_two * (t * c.2))%Qc.

Definition biquad (c0 c1 c2 : Qc * Qc * Qc) (x y : Qc) : Qc :=
  poly2 (poly2 c0 x, poly2 c1 x, poly2 c2 x) y.

Definition biquad_dx (c0 c1 c2 : Qc * Qc * Qc) (x y : Qc) : Qc :=
  poly2 (dpoly2 c0 x, dpoly2 c1 x, dpoly2 c2 x) y.

Definition biquad_dy (c0 c1 c2 : Qc * Qc * Qc) (x y : Qc) : Qc :=
  dpoly2 (poly2 c0 x, poly2 c1 x, poly2 c2 x) y.

(** Five samples at the steps -2h, -h, 0, h, 2h from (x, y), along x and
    along y. *)
Definition stencil_x (x y h : Qc) : list (Qc * Qc) :=
  [(x - Qc_two * h, y); (x - h, y); (x, y); (x + h, y); (x + Qc_two * h, y)]%Qc.

Definition stencil_y (x y h : Qc) : list (Qc * Qc) :=
  [(x, y - Qc_two * h); (x, y - h); (x, y); (x, y + h); (x, y + Qc_two * h)]%Qc.

(** The combination a*u + b*v of two values. *)
Definition lincomb (a b u v : Qc) : Qc := (a * u + b * v)%Qc.

(** The transpose of an n x n table kept as a vector in row-major order. *)
Definition transposed (n : Z) (l : list Qc) : list Qc :=
  (fun k => tab_at l (n * (k mod n) + k / n)) <$> seqZ 0 (n * n).

(** The largest distance (N - 3)/4 from the centre of a table with N
    columns, in pixels, at which [dao_value] evaluates the profile. *)
Definition psf_radius (N : nat) : Qc := (Qc_of_Z (Z.of_nat N - 3) / Qc_of_Z 4)%Qc.

(** * Properties *)

(** ** The error monad *)

Lemma bind_Ok {A B} (a : A) (f : A -> res B) : Ok a ≫= f = f a.
Proof. reflexivity. Qed.

Lemma bind_Raise {A B} (e : exn) (f : A -> res B) : Raise e ≫= f = Raise e.
Proof. reflexivity. Qed.

Lemma raises_bind {A B} (m : res A) (f : A -> res B) :
  (forall a, raises (f a)) -> raises (m ≫= f).
Proof. intros H. destruct m as [a|e]; [apply H | by exists e]. Qed.

Lemma raises_not_Ok {A} (r : res A) (a : A) : raises r -> r <> Ok a.
Proof. intros [e ->]. discriminate. Qed.

Lemma mapM_Ok {A B} (f : A -> res B) (g : A -> B) (l : list A) :
  Forall (fun a => f a = Ok (g a)) l -> mapM f l = Ok (g <$> l).
Proof.
  induction 1 as [|a l Ha _ IH]; [done|].
  simpl. by rewrite Ha, bind_Ok, IH.
Qed.

(** ** Vectors *)

Lemma bdim_same n : bdim n n = Ok n.
Proof. unfold bdim. by rewrite decide_True. Qed.

Lemma broadcast_to_Nd1 l : broadcast_to (Nd1 l) 1 (length l) = Ok l.
Proof.
  unfold broadcast_to. simpl.
  rewrite decide_True by tauto. by rewrite decide_True.
Qed.

Lemma nd_op_Nd1 f a b :
  length a = length b -> nd_op f (Nd1 a) (Nd1 b) = Ok (Nd1 (zip_with f a b)).
Proof.
  intros Hab. unfold nd_op. cbn [nd_dims nd_rank nd_shape length].
  rewrite bdim_same, bind_Ok, Hab, bdim_same, bind_Ok.
  rewrite (broadcast_to_Nd1 b), <- Hab, (broadcast_to_Nd1 a).
  reflexivity.
Qed.

Lemma nd_op_fmap {A} f (g h : A -> Qc) (l : list A) :
  nd_op f (Nd1 (g <$> l)) (Nd1 (h <$> l)) = Ok (Nd1 ((fun a => f (g a) (h a)) <$> l)).
Proof.
  rewrite nd_op_Nd1 by by rewrite !length_fmap.
  by rewrite zip_with_fmap_l, zip_with_fmap_r, zip_with_diag.
Qed.

Lemma nd_scale_fmap {A} k (g : A -> Qc) (l : list A) :
  nd_scale k (Nd1 (g <$> l)) = Nd1 ((fun a => k * g a)%Qc <$> l).
Proof. unfold nd_scale. simpl. by rewrite <- list_fmap_compose. Qed.

Lemma py_index_valid n k :
  - Z.of_nat n <= k < Z.of_nat n -> py_index n k = Ok (wrap n k).
Proof.
  intros Hk. unfold py_index, wrap.
  destruct (decide (k < 0)); rewrite decide_True; (done || lia).
Qed.

Lemma nd_take_fmap {A} (P : list Qc) (ix : A -> Z) (l : list A) :
  Forall (fun a => - Z.of_nat (length P) <= ix a < Z.of_nat (length P)) l ->
  nd_take (Nd1 P) (ix <$> l) = Ok (Nd1 ((fun a => tab_at P (ix a)) <$> l)).
Proof.
  intros Hl. unfold nd_take.
  rewrite (mapM_Ok _ (wrap (length P))).
  - rewrite bind_Ok. by rewrite <- !list_fmap_compose.
  - apply Forall_fmap. eapply Forall_impl; [exact Hl|].
    intros a Ha. by apply py_index_valid.
Qed.

(** ** The largest subscript and the subscripts needed *)

Lemma foldl_max_spec (l : list Z) (a : Z) :
  foldl Z.max a l ∈ a :: l /\ Forall (fun k => k <= foldl Z.max a l) (a :: l).
Proof.
  revert a. induction l as [|b l IH]; intros a; simpl.
  - split; [apply elem_of_cons; by left|]. constructor; [lia|constructor].
  - destruct (IH (Z.max a b)) as [Hin Hle].
    apply Forall_cons in Hle as [Hab Hle]. split.
    + apply elem_of_cons in Hin as [Hin|Hin];
        [|apply elem_of_cons; right; apply elem_of_cons; by right].
      rewrite Hin. rewrite !elem_of_cons.
      destruct (Z.max_spec a b) as [[_ ->]|[_ ->]]; auto.
    + repeat constructor; [lia|lia|done].
Qed.

Lemma py_max_elem l m :
  py_max l = Ok m -> m ∈ l /\ Forall (fun k => k <= m) l.
Proof.
  destruct l as [|a l]; [done|]. simpl. intros [= <-]. apply foldl_max_spec.
Qed.

Lemma py_max_intro l m :
  m ∈ l -> Forall (fun k => k <= m) l -> py_max l = Ok m.
Proof.
  intros Hin Hle. destruct l as [|a l]; [by apply elem_of_nil in Hin|].
  simpl. f_equal.
  destruct (foldl_max_spec l a) as [Hin' Hle'].
  rewrite Forall_forall in Hle, Hle'.
  apply Hle in Hin'. apply Hle' in Hin. lia.
Qed.

Lemma py_max_is_Ok l : l <> [] -> exists m, py_max l = Ok m.
Proof. destruct l; [done|]. simpl. eauto. Qed.

Lemma elem_of_where_hist (a : list Z) (n k : Z) :
  k ∈ np_where_ge1 (np_histogram a n) <->
  0 <= k < n - 1 /\ exists v, v ∈ a /\ in_bin n k v = true.
Proof.
  unfold np_where_ge1, np_histogram.
  rewrite list_elem_of_fmap. split.
  - intros ([i c] & -> & Hf).
    apply list_elem_of_filter in Hf as [Hc Hi]. simpl in *.
    apply elem_of_lookup_imap in Hi as (i' & c' & [= -> ->] & Hl).
    rewrite list_lookup_fmap in Hl.
    destruct (seqZ 0 (n - 1) !! i') as [k|] eqn:Hk; [|done].
    simpl in Hl. injection Hl as <-.
    apply lookup_seqZ in Hk as [-> Hlt]. split; [lia|].
    replace (Z.of_nat (i', length (filter
               (λ v, in_bin n (0 + Z.of_nat i') v = true) a)).1)
      with (0 + Z.of_nat i') by (simpl; lia).
    destruct (filter (λ v, in_bin n (0 + Z.of_nat i') v = true) a)
      as [|v f] eqn:Hfl; [simpl in Hc; lia|].
    exists v. apply and_comm.
    apply (list_elem_of_filter (λ v, in_bin n (0 + Z.of_nat i') v = true)).
    rewrite Hfl. apply elem_of_cons. by left.
  - intros [Hk (v & Hv & Hb)].
    exists (Z.to_nat k, length (filter (λ v, in_bin n k v = true) a)). split.
    { simpl. lia. }
    apply list_elem_of_filter. split.
    + simpl.
      assert (v ∈ filter (λ v, in_bin n k v = true) a) as Hin
        by by apply list_elem_of_filter.
      destruct (filter (λ v, in_bin n k v = true) a);
        [by apply elem_of_nil in Hin|simpl; lia].
    + apply elem_of_lookup_imap. eexists _, _. split; [done|].
      rewrite list_lookup_fmap.
      replace (seqZ 0 (n - 1) !! Z.to_nat k) with (Some k); [done|].
      symmetry. apply lookup_seqZ. lia.
Qed.

(** When the largest subscript is not negative, the subscripts kept by
    lines 134-135 are the needed subscripts that are not negative. *)
Lemma rinter_xgood_spec (x_1 x0 x1 x2 : list Z) (mx : Z) :
  py_max (x_1 ++ x0 ++ x1 ++ x2) = Ok mx -> 0 <= mx ->
  exists xgood, rinter_xgood x_1 x0 x1 x2 = Ok xgood
    /\ (forall k, k ∈ xgood <-> 0 <= k /\ k ∈ x_1 ++ x0 ++ x1 ++ x2)
    /\ py_max xgood = Ok mx.
Proof.
  intros Hmx Hpos. unfold rinter_xgood. rewrite Hmx, bind_Ok.
  eexists. split; [done|].
  apply py_max_elem in Hmx as [Hin Hle]. rewrite Forall_forall in Hle.
  assert (forall k, k ∈ np_where_ge1 (np_histogram (x_1 ++ x0 ++ x1 ++ x2) (mx + 2))
                    <-> 0 <= k /\ k ∈ x_1 ++ x0 ++ x1 ++ x2) as Hx.
  { intros k. rewrite elem_of_where_hist. unfold in_bin. split.
    - intros [Hk (v & Hv & Hb)]. apply bool_decide_eq_true in Hb.
      destruct Hb as [->|[_ ->]]; [split; [lia|done]|].
      apply Hle in Hv. lia.
    - intros [Hk Hv]. split; [apply Hle in Hv; lia|].
      exists k. split; [done|]. apply bool_decide_eq_true. by left. }
  split; [done|].
  apply py_max_intro.
  - apply Hx. split; [lia|done].
  - apply Forall_forall. intros k Hk. apply Hx in Hk as [_ Hk]. by apply Hle.
Qed.

(** ** Assignment to the elements of a vector *)

Lemma put_elems_length (ps : list (nat * Qc)) (l : list Qc) :
  length (put_elems l ps) = length l.
Proof.
  unfold put_elems. revert l. induction ps as [|[i x] ps IH]; intros l; [done|].
  simpl. by rewrite IH, length_insert.
Qed.

Lemma put_elems_lookup (h : nat -> Qc) (ps : list (nat * Qc)) (l : list Qc) i x :
  (forall j y, (j, y) ∈ ps -> y = h j) ->
  (i, x) ∈ ps -> (i < length l)%nat ->
  put_elems l ps !! i = Some (h i).
Proof.
  revert i x. induction ps as [|[j y] ps IH] using rev_ind; intros i x Hh Hin Hi.
  { by apply elem_of_nil in Hin. }
  unfold put_elems. rewrite foldl_app. simpl. fold (put_elems l ps).
  destruct (decide (j = i)) as [->|Hne].
  - rewrite list_lookup_insert_eq by by rewrite put_elems_length.
    f_equal. apply Hh. apply elem_of_app. right. apply elem_of_cons. by left.
  - rewrite list_lookup_insert_ne by done.
    apply elem_of_app in Hin as [Hin|Hin].
    + apply (IH i x); [|done|done].
      intros j' y' Hj'. apply Hh. apply elem_of_app. by left.
    + apply list_elem_of_singleton in Hin. congruence.
Qed.

Lemma wrap_nonneg n k : 0 <= k -> wrap n k = Z.to_nat k.
Proof. intros Hk. unfold wrap. by rewrite decide_False by lia. Qed.

Lemma tab_at_nonneg (P : list Qc) k :
  0 <= k -> tab_at P k = default 0%Qc (P !! Z.to_nat k).
Proof. intros Hk. unfold tab_at. by rewrite wrap_nonneg. Qed.

(** [c[xgood] = v], where [v] has one value for each subscript: the
    array keeps its length and holds the assigned value at each of the
    subscripts. *)
Lemma nd_put_fmap (c : list Qc) (g : Z -> Qc) (xgood : list Z) :
  Forall (fun k => 0 <= k < Z.of_nat (length c)) xgood ->
  exists c', nd_put (Nd1 c) xgood (Nd1 (g <$> xgood)) = Ok (Nd1 c')
    /\ length c' = length c
    /\ forall k, k ∈ xgood -> tab_at c' k = g k.
Proof.
  intros Hx. unfold nd_put.
  rewrite (mapM_Ok _ (wrap (length c))).
  2:{ eapply Forall_impl; [exact Hx|]. intros k Hk. simpl in Hk.
      apply py_index_valid. lia. }
  rewrite bind_Ok.
  replace (length xgood) with (length (g <$> xgood)) by by rewrite length_fmap.
  rewrite broadcast_to_Nd1, bind_Ok.
  eexists. split; [done|]. split; [apply put_elems_length|].
  intros k Hk. rewrite Forall_forall in Hx. pose proof (Hx k Hk) as Hk'.
  rewrite tab_at_nonneg by lia.
  assert (zip (wrap (length c) <$> xgood) (g <$> xgood)
          = (fun k => (wrap (length c) k, g k)) <$> xgood) as ->.
  { clear. induction xgood as [|a l IH]; [done|]. simpl. by f_equal. }
  rewrite (put_elems_lookup (fun i => g (Z.of_nat i)) _ _ _ (g k)).
  - simpl. f_equal. lia.
  - intros j y Hj. apply list_elem_of_fmap in Hj as (k' & [= -> ->] & Hk'').
    apply Hx in Hk''. rewrite wrap_nonneg by lia. f_equal. lia.
  - apply list_elem_of_fmap. exists k. split; [|done].
    rewrite wrap_nonneg by lia. done.
  - lia.
Qed.

(** ** Assignment to a slice of a vector *)

Lemma broadcast_to_Nd0 v c : broadcast_to (Nd0 v) 1 c = Ok (replicate c v).
Proof.
  unfold broadcast_to. simpl. rewrite decide_True by tauto.
  destruct (decide (1%nat = 1%nat /\ 1%nat = c)) as [[_ <-]|Hc]; [done|].
  f_equal. unfold stretch at 1. simpl. unfold stretch. simpl.
  destruct (decide (1%nat = c)); [lia|]. simpl. by rewrite app_nil_r.
Qed.

Lemma slice_assign_prefix (z l : list Qc) :
  (length l <= length z)%nat ->
  slice_assign z 0 (length l) (PArr (Nd1 l)) = Ok (l ++ drop (length l) z).
Proof.
  intros Hl. unfold slice_assign.
  rewrite Nat.min_0_l, Nat.min_l, Nat.sub_0_r by done.
  rewrite broadcast_to_Nd1, bind_Ok. unfold overwrite. simpl.
  rewrite Nat.sub_0_r. by rewrite take_ge by lia.
Qed.

Lemma slice_assign_suffix (z : list Qc) (k : nat) (v : Qc) :
  (k <= length z)%nat ->
  slice_assign z k (length z) (PArr (Nd0 v)) =
  Ok (take k z ++ replicate (length z - k) v).
Proof.
  intros Hk. unfold slice_assign.
  rewrite Nat.min_l, Nat.min_id by done.
  rewrite broadcast_to_Nd0, bind_Ok. unfold overwrite.
  rewrite length_replicate, take_replicate, Nat.min_id.
  rewrite drop_ge by lia. by rewrite app_nil_r.
Qed.

(** ** The coefficient arrays *)

Ltac nd_simp :=
  repeat (progress (rewrite ?nd_scale_fmap, ?nd_op_fmap, ?bind_Ok)).

Lemma coeff1_fmap {A} (f g : A -> Qc) (l : list A) :
  coeff1 (Nd1 (f <$> l)) (Nd1 (g <$> l))
  = Ok (Nd1 ((fun a => Qc_half * (g a - f a))%Qc <$> l)).
Proof. unfold coeff1, nd_sub. by nd_simp. Qed.

Lemma coeff2_fmap {A} (f g h k : A -> Qc) (l : list A) :
  coeff2 (Nd1 (f <$> l)) (Nd1 (g <$> l)) (Nd1 (h <$> l)) (Nd1 (k <$> l))
  = Ok (Nd1 ((fun a => Qc_two * h a + f a - Qc_half * (Qc_five * g a + k a))%Qc <$> l)).
Proof. unfold coeff2, nd_sub, nd_add. by nd_simp. Qed.

Lemma coeff3_fmap {A} (f g h k : A -> Qc) (l : list A) :
  coeff3 (Nd1 (f <$> l)) (Nd1 (g <$> l)) (Nd1 (h <$> l)) (Nd1 (k <$> l))
  = Ok (Nd1 ((fun a => Qc_half * (Qc_three * (g a - h a) + k a - f a))%Qc <$> l)).
Proof. unfold coeff3, nd_sub, nd_add. by nd_simp. Qed.

Lemma nd_take_list (P : list Qc) (l : list Z) :
  Forall (fun k => - Z.of_nat (length P) <= k < Z.of_nat (length P)) l ->
  nd_take (Nd1 P) l = Ok (Nd1 (tab_at P <$> l)).
Proof.
  intros Hl. pose proof (nd_take_fmap P id l Hl) as E.
  by rewrite list_fmap_id in E.
Qed.

(** The subscripts [xgood] and their neighbours are subscripts of a table
    of at least [mx + 3] elements. *)
Lemma gather_valid (P : list Qc) (xgood : list Z) (mx d : Z) :
  Forall (fun k => 0 <= k <= mx) xgood ->
  mx + 3 <= Z.of_nat (length P) -> -1 <= d <= 2 ->
  Forall (fun k => - Z.of_nat (length P) <= k + d < Z.of_nat (length P)) xgood.
Proof.
  intros Hx HP Hd. eapply Forall_impl; [exact Hx|]. intros k Hk. simpl in Hk. lia.
Qed.

(** Lines 154-158 and 184-189 on a vector [P] of at least [mx + 3]
    elements and coefficient arrays [z1], [z2], [z3] of its length. *)
Lemma gather_coeffs (P z1 z2 z3 : list Qc) (xgood : list Z) (mx : Z) :
  Forall (fun k => 0 <= k <= mx) xgood ->
  mx + 3 <= Z.of_nat (length P) ->
  length z1 = length P -> length z2 = length P -> length z3 = length P ->
  exists c1 c2 c3,
    (p_1 ← nd_take (Nd1 P) (zshift (-1) xgood);
     p0 ← nd_take (Nd1 P) xgood;
     p1 ← nd_take (Nd1 P) (zshift 1 xgood);
     p2 ← nd_take (Nd1 P) (zshift 2 xgood);
     v ← coeff1 p_1 p1; c1 ← nd_put (Nd1 z1) xgood v;
     v ← coeff2 p_1 p0 p1 p2; c2 ← nd_put (Nd1 z2) xgood v;
     v ← coeff3 p_1 p0 p1 p2; c3 ← nd_put (Nd1 z3) xgood v;
     Ok (Nd1 P, c1, c2, c3)) = Ok (Nd1 P, Nd1 c1, Nd1 c2, Nd1 c3)
    /\ coeffs_ok P c1 c2 c3 xgood.
Proof.
  intros Hx HP H1 H2 H3. unfold zshift.
  rewrite (nd_take_fmap P (fun v => v + -1)) by (apply (gather_valid P xgood mx); [done|done|lia]).
  rewrite bind_Ok.
  rewrite (nd_take_list P xgood).
  2:{ eapply Forall_impl; [exact Hx|]. intros k Hk. simpl in *. lia. }
  rewrite bind_Ok.
  rewrite (nd_take_fmap P (fun v => v + 1)) by (apply (gather_valid P xgood mx); [done|done|lia]).
  rewrite bind_Ok.
  rewrite (nd_take_fmap P (fun v => v + 2)) by (apply (gather_valid P xgood mx); [done|done|lia]).
  rewrite bind_Ok.
  assert (Forall (fun k => 0 <= k < Z.of_nat (length P)) xgood) as Hx'.
  { eapply Forall_impl; [exact Hx|]. intros k Hk. simpl in *. lia. }
  rewrite coeff1_fmap, bind_Ok.
  destruct (nd_put_fmap z1 (fun a => Qc_half * (tab_at P (a + 1) - tab_at P (a + -1)))%Qc xgood)
    as (c1 & -> & Hl1 & Hc1); [by rewrite H1|].
  rewrite bind_Ok, coeff2_fmap, bind_Ok.
  destruct (nd_put_fmap z2 (fun a => Qc_two * tab_at P (a + 1) + tab_at P (a + -1)
      - Qc_half * (Qc_five * tab_at P a + tab_at P (a + 2)))%Qc xgood)
    as (c2 & -> & Hl2 & Hc2); [by rewrite H2|].
  rewrite bind_Ok, coeff3_fmap, bind_Ok.
  destruct (nd_put_fmap z3 (fun a => Qc_half * (Qc_three * (tab_at P a - tab_at P (a + 1))
      + tab_at P (a + 2) - tab_at P (a + -1)))%Qc xgood)
    as (c3 & -> & Hl3 & Hc3); [by rewrite H3|].
  rewrite bind_Ok.
  exists c1, c2, c3. split; [done|].
  repeat split; try congruence.
  - by rewrite Hc1.
  - by rewrite Hc2.
  - by rewrite Hc3.
Qed.

(** ** The table that the evaluation reads *)

Lemma table_ext_length (l : list Qc) (mx : Z) :
  0 <= mx -> mx + 3 <= Z.of_nat (length (table_ext l mx)).
Proof.
  intros Hmx. unfold table_ext. case_decide; [|lia].
  rewrite length_app, length_replicate. lia.
Qed.

Lemma table_ext_lookup (l : list Qc) (mx : Z) (i : nat) :
  (i < length l)%nat -> table_ext l mx !! i = l !! i.
Proof.
  intros Hi. unfold table_ext. case_decide; [|done]. by apply lookup_app_l.
Qed.

(** Lines 184-189. *)
Lemma rinter_nopad_spec (l : list Qc) (xgood : list Z) (mx : Z) :
  Forall (fun k => 0 <= k <= mx) xgood ->
  ~ mx > Z.of_nat (length l) - 3 ->
  exists c1 c2 c3,
    rinter_nopad (PArr (Nd1 l)) xgood = Ok (Nd1 (table_ext l mx), Nd1 c1, Nd1 c2, Nd1 c3)
    /\ coeffs_ok (table_ext l mx) c1 c2 c3 xgood.
Proof.
  intros Hx Hmx. unfold table_ext. rewrite decide_False by done.
  unfold rinter_nopad. simpl py_array. simpl py_times_zero. rewrite bind_Ok.
  destruct (gather_coeffs l ((fun v => v * 0)%Qc <$> l) ((fun v => v * 0)%Qc <$> l)
              ((fun v => v * 0)%Qc <$> l) xgood mx)
    as (c1 & c2 & c3 & E & Hok); rewrite ?length_fmap; try done; try lia.
  exists c1, c2, c3. split; [|done].
  destruct (nd_take (Nd1 l) (zshift (-1) xgood)) as [p_1|]; [|done].
  rewrite bind_Ok in E |- *.
  destruct (nd_take (Nd1 l) xgood) as [p0|]; [|done].
  rewrite bind_Ok in E |- *.
  destruct (nd_take (Nd1 l) (zshift 1 xgood)) as [p1|]; [|done].
  rewrite bind_Ok in E |- *.
  destruct (nd_take (Nd1 l) (zshift 2 xgood)) as [p2|]; [|done].
  rewrite bind_Ok in E |- *. rewrite !bind_Ok. exact E.
Qed.

Lemma nd_item_last (l : list Qc) :
  l <> [] ->
  nd_item (Nd1 l) (Z.of_nat (length l) - 1) = Ok (Nd0 (default 0%Qc (last l))).
Proof.
  intros Hl. unfold nd_item.
  assert (0 < length l)%nat by (destruct l; [done|simpl; lia]).
  rewrite py_index_valid, bind_Ok by lia.
  rewrite wrap_nonneg by lia. rewrite last_lookup.
  replace (Z.to_nat (Z.of_nat (length l) - 1)) with (pred (length l)) by lia.
  done.
Qed.

(** Lines 141-158. *)
Lemma rinter_pad_spec (l : list Qc) (xgood : list Z) (mx : Z) :
  l <> [] ->
  Forall (fun k => 0 <= k <= mx) xgood ->
  mx > Z.of_nat (length l) - 3 ->
  exists c1 c2 c3,
    rinter_pad (PArr (Nd1 l)) mx xgood = Ok (Nd1 (table_ext l mx), Nd1 c1, Nd1 c2, Nd1 c3)
    /\ coeffs_ok (table_ext l mx) c1 c2 c3 xgood.
Proof.
  intros Hl Hx Hmx.
  assert (0 < length l)%nat as Hlen by (destruct l; [done|simpl; lia]).
  assert (length l <= Z.to_nat (mx + 3))%nat as Hn by lia.
  set (zl := (fun v => v * 0)%Qc <$> l).
  assert (length zl = length l) as Hzl by apply length_fmap.
  assert (zl <> []) as Hz by (intros E; rewrite E in Hzl; simpl in Hzl; lia).
  set (P := table_ext l mx).
  assert (P = l ++ replicate (Z.to_nat (mx + 3) - length l) (default 0%Qc (last l))) as HP.
  { unfold P, table_ext. by rewrite decide_True. }
  assert (mx + 3 <= Z.of_nat (length P)) as HPlen.
  { rewrite HP, length_app, length_replicate. lia. }
  set (Z1 := zl ++ replicate (Z.to_nat (mx + 3) - length l) (default 0%Qc (last zl))) in *.
  assert (length Z1 = length P) as HZ1.
  { unfold Z1. rewrite HP, !length_app, !length_replicate. lia. }
  destruct (gather_coeffs P Z1 Z1 Z1 xgood mx Hx HPlen HZ1 HZ1 HZ1)
    as (c1 & c2 & c3 & E & Hok).
  exists c1, c2, c3. split; [|done].
  assert (forall (A : Type) (k : list Qc -> res A),
    (p_new ← slice_assign (np_zeros (Z.to_nat (mx + 3))) 0 (length l) (PArr (Nd1 l));
     last ← py_item (PArr (Nd1 l)) (Z.of_nat (length l) - 1);
     p_new ← slice_assign p_new (length l) (length p_new) last; k p_new) = k P) as EP.
  { intros A k. unfold np_zeros.
    rewrite slice_assign_prefix, bind_Ok by by rewrite length_replicate.
    unfold py_item. rewrite nd_item_last, !bind_Ok by done.
    rewrite slice_assign_suffix, bind_Ok by (rewrite length_app; lia).
    f_equal. rewrite HP.
    rewrite take_app_length, length_app, length_drop, length_replicate.
    do 2 f_equal. lia. }
  unfold rinter_pad. simpl py_len. rewrite bind_Ok. rewrite EP.
  simpl py_times_zero. fold zl. rewrite !bind_Ok.
  unfold nd_len. simpl py_len. rewrite bind_Ok.
  unfold np_zeros.
  rewrite slice_assign_prefix by (rewrite length_replicate; lia).
  rewrite !bind_Ok.
  rewrite nd_item_last by done. rewrite !bind_Ok.
  rewrite slice_assign_suffix by (rewrite length_app; lia).
  rewrite !bind_Ok.
  replace (take (length zl) (zl ++ drop (length zl) (replicate (Z.to_nat (mx + 3)) 0%Qc))
           ++ replicate (length (zl ++ drop (length zl) (replicate (Z.to_nat (mx + 3)) 0%Qc))
                         - length zl) (default 0%Qc (last zl))) with Z1.
  2:{ unfold Z1. rewrite take_app_length, length_app, length_drop, length_replicate.
      do 2 f_equal. lia. }
  exact E.
Qed.

(** Lines 132-158 and 184-189: for a table that is not empty and a batch
    whose largest subscript [mx] is not negative, the evaluation reads the
    table [table_ext l mx] and coefficient arrays of its length, which
    hold the coefficients at each needed subscript that is not negative. *)
Lemma rinter_gather_spec (l : list Qc) (x_1 x0 x1 x2 : list Z) (mx : Z) :
  l <> [] ->
  py_max (x_1 ++ x0 ++ x1 ++ x2) = Ok mx -> 0 <= mx ->
  exists c1 c2 c3,
    rinter_gather (PArr (Nd1 l)) x_1 x0 x1 x2
    = Ok (Nd1 (table_ext l mx), Nd1 c1, Nd1 c2, Nd1 c3)
    /\ length c1 = length (table_ext l mx)
    /\ length c2 = length (table_ext l mx)
    /\ length c3 = length (table_ext l mx)
    /\ forall k, k ∈ x_1 ++ x0 ++ x1 ++ x2 -> 0 <= k ->
                 coeffs_at (table_ext l mx) c1 c2 c3 k.
Proof.
  intros Hl Hmx Hpos.
  destruct (rinter_xgood_spec _ _ _ _ _ Hmx Hpos) as (xgood & Ex & Hx & Emx).
  assert (Forall (fun k => 0 <= k <= mx) xgood) as Hxg.
  { apply Forall_forall. intros k Hk. apply Hx in Hk as [Hk0 Hk].
    apply py_max_elem in Hmx as [_ Hle]. rewrite Forall_forall in Hle.
    split; [done|by apply Hle]. }
  unfold rinter_gather. rewrite Ex, bind_Ok, Emx, bind_Ok.
  simpl py_len. rewrite bind_Ok.
  destruct (decide (mx > Z.of_nat (length l) - 3)) as [Hpad|Hnopad].
  - destruct (rinter_pad_spec l xgood mx Hl Hxg Hpad)
      as (c1 & c2 & c3 & -> & H1 & H2 & H3 & Hc).
    exists c1, c2, c3. repeat split; try done.
    all: apply Hc, Hx; done.
  - destruct (rinter_nopad_spec l xgood mx Hxg Hnopad)
      as (c1 & c2 & c3 & -> & H1 & H2 & H3 & Hc).
    exists c1, c2, c3. repeat split; try done.
    all: apply Hc, Hx; done.
Qed.

(** ** The evaluation *)

Lemma horner_fmap {A} (d c3 c2 c1 p0 : A -> Qc) (l : list A) :
  horner (Nd1 (d <$> l)) (Nd1 (c3 <$> l)) (Nd1 (c2 <$> l)) (Nd1 (c1 <$> l)) (Nd1 (p0 <$> l))
  = Ok (Nd1 ((fun a => d a * (d a * (d a * c3 a + c2 a) + c1 a) + p0 a)%Qc <$> l)).
Proof. unfold horner, nd_mul, nd_add. by nd_simp. Qed.

Lemma dhorner_fmap {A} (d c3 c2 c1 : A -> Qc) (l : list A) :
  dhorner (Nd1 (d <$> l)) (Nd1 (c3 <$> l)) (Nd1 (c2 <$> l)) (Nd1 (c1 <$> l))
  = Ok (Nd1 ((fun a => d a * (Qc_three * (d a * c3 a) + Qc_two * c2 a) + c1 a)%Qc <$> l)).
Proof. unfold dhorner, nd_mul, nd_add. by nd_simp. Qed.

Section Eval.

Context {A : Type}.
Variables (P c1 c2 c3 : list Qc) (d : A -> Qc) (ix : A -> Z) (l : list A).
Hypothesis Hc1 : length c1 = length P.
Hypothesis Hc2 : length c2 = length P.
Hypothesis Hc3 : length c3 = length P.
Hypothesis Hix :
  Forall (fun a => - Z.of_nat (length P) <= ix a < Z.of_nat (length P)) l.

Lemma horner_at_fmap :
  horner_at (Nd1 P) (Nd1 c1) (Nd1 c2) (Nd1 c3) (Nd1 (d <$> l)) (ix <$> l)
  = Ok (Nd1 ((fun a => d a * (d a * (d a * tab_at c3 (ix a) + tab_at c2 (ix a))
                              + tab_at c1 (ix a)) + tab_at P (ix a))%Qc <$> l)).
Proof.
  unfold horner_at, nd_mul, nd_add.
  rewrite (nd_take_fmap c3), (nd_take_fmap c2), (nd_take_fmap c1), (nd_take_fmap P)
    by (rewrite ?Hc1, ?Hc2, ?Hc3; exact Hix).
  by nd_simp.
Qed.

Lemma dhorner_at_fmap :
  dhorner_at (Nd1 c1) (Nd1 c2) (Nd1 c3) (Nd1 (d <$> l)) (ix <$> l)
  = Ok (Nd1 ((fun a => d a * (Qc_three * (d a * tab_at c3 (ix a))
                              + Qc_two * tab_at c2 (ix a))
                       + tab_at c1 (ix a))%Qc <$> l)).
Proof.
  unfold dhorner_at, nd_mul, nd_add.
  rewrite (nd_take_fmap c3), (nd_take_fmap c2), (nd_take_fmap c1)
    by (rewrite ?Hc1, ?Hc2, ?Hc3; exact Hix).
  by nd_simp.
Qed.

End Eval.

(** ** The subscripts of a batch *)

Lemma zip_with_fmap_same {A B C D} (f : B -> C -> D) (g : A -> B) (h : A -> C)
    (l : list A) :
  zip_with f (g <$> l) (h <$> l) = (fun a => f (g a) (h a)) <$> l.
Proof. induction l as [|a l IH]; [done|]. simpl. by f_equal. Qed.

Lemma stretch_same {A} (l : list A) : stretch (length l) l = l.
Proof. unfold stretch. by rewrite decide_True. Qed.

Lemma zbroadcast_fmap {A} (f : Z -> Z -> Z) (g h : A -> Z) (l : list A) :
  zbroadcast f (g <$> l) (h <$> l) = Ok ((fun a => f (g a) (h a)) <$> l).
Proof.
  unfold zbroadcast. rewrite !length_fmap, bdim_same, bind_Ok.
  rewrite <- (length_fmap g) at 1. rewrite stretch_same.
  rewrite <- (length_fmap h). rewrite stretch_same.
  by rewrite zip_with_fmap_same.
Qed.

Lemma row_index_succ (stride : Z) (s : Qc * Qc) (r : Z) :
  row_index stride s (r + 1) = row_index stride s r + stride.
Proof. unfold row_index. lia. Qed.

(** Lines 117-123 on a batch of samples: the four vectors of subscripts. *)
Lemma rinter_indices (stride : nat) (ss : list (Qc * Qc)) :
  zbroadcast Z.add ((fun j => Z.of_nat stride * (j - 1)) <$> (Qc_trunc <$> ss.*2))
             (Qc_trunc <$> ss.*1)
  = Ok ((fun s => row_index (Z.of_nat stride) s 0) <$> ss).
Proof.
  rewrite <- !list_fmap_compose. rewrite zbroadcast_fmap. f_equal.
  apply list_fmap_ext. intros i s _. unfold row_index. simpl. lia.
Qed.

Lemma zshift_row_index (stride : Z) (r : Z) (ss : list (Qc * Qc)) :
  zshift stride ((fun s => row_index stride s r) <$> ss)
  = (fun s => row_index stride s (r + 1)) <$> ss.
Proof.
  unfold zshift. rewrite <- list_fmap_compose.
  apply list_fmap_ext. intros i s _. simpl. by rewrite row_index_succ.
Qed.

Lemma elem_of_needed (stride : Z) (ss : list (Qc * Qc)) (k : Z) :
  k ∈ needed stride ss <->
  exists s r, s ∈ ss /\ 0 <= r <= 3 /\ k = row_index stride s r.
Proof.
  unfold needed. rewrite !elem_of_app, !list_elem_of_fmap. split.
  - intros [H|[H|[H|H]]]; destruct H as (s & E & Hs); subst k;
      eexists s, _; (split; [done|]); (split; [|done]); lia.
  - intros (s & r & Hs & Hr & ->).
    assert (r = 0 \/ r = 1 \/ r = 2 \/ r = 3) as [-> | [-> | [-> | ->]]] by lia; eauto 10.
Qed.

Lemma row_index_mono (stride : Z) (s : Qc * Qc) (r r' : Z) :
  0 <= stride -> r <= r' -> row_index stride s r <= row_index stride s r'.
Proof. intros Hs Hr. unfold row_index. nia. Qed.

(** The largest subscript of a batch that is not empty and has no negative
    subscript. *)
Lemma needed_max (stride : Z) (ss : list (Qc * Qc)) :
  0 <= stride -> ss <> [] ->
  Forall (fun s => 0 <= row_index stride s 0) ss ->
  exists mx, py_max (needed stride ss) = Ok mx /\ 0 <= mx
    /\ forall s r, s ∈ ss -> 0 <= r <= 3 ->
                   0 <= row_index stride s r <= mx.
Proof.
  intros Hst Hss Hpos. rewrite Forall_forall in Hpos.
  destruct (py_max_is_Ok (needed stride ss)) as [mx Hmx].
  { destruct ss as [|s ss]; [done|]. unfold needed. done. }
  exists mx. split; [done|].
  apply py_max_elem in Hmx as [Hin Hle]. rewrite Forall_forall in Hle.
  assert (forall s r, s ∈ ss -> 0 <= r <= 3 -> 0 <= row_index stride s r <= mx) as H.
  { intros s r Hs Hr. split.
    - pose proof (Hpos s Hs). pose proof (row_index_mono stride s 0 r Hst). lia.
    - apply Hle. apply elem_of_needed. eauto. }
  split; [|done].
  apply elem_of_needed in Hin as (s & r & Hs & Hr & ->). by apply H.
Qed.

(** ** The interpolation of a batch of samples *)

Section Batch.

Variables (P c1 c2 c3 : list Qc) (stride : Z) (ss : list (Qc * Qc)).
Hypothesis Hc1 : length c1 = length P.
Hypothesis Hc2 : length c2 = length P.
Hypothesis Hc3 : length c3 = length P.
Hypothesis Hix : forall s r, s ∈ ss -> 0 <= r <= 3 ->
  0 <= row_index stride s r < Z.of_nat (length P)
  /\ coeffs_at P c1 c2 c3 (row_index stride s r).

Lemma batch_valid (r : Z) :
  0 <= r <= 3 ->
  Forall (fun s => - Z.of_nat (length P) <= row_index stride s r < Z.of_nat (length P)) ss.
Proof.
  intros Hr. apply Forall_forall. intros s Hs.
  destruct (Hix s r Hs Hr) as [H _]. lia.
Qed.

(** The value of the cubic along x in one of the four rows. *)
Lemma batch_row (r : Z) :
  0 <= r <= 3 ->
  horner_at (Nd1 P) (Nd1 c1) (Nd1 c2) (Nd1 c3) (Nd1 ((fun s => frac s.1) <$> ss))
            ((fun s => row_index stride s r) <$> ss)
  = Ok (Nd1 ((fun s => row_value P stride s r) <$> ss)).
Proof.
  intros Hr. rewrite horner_at_fmap by (done || by apply batch_valid).
  do 2 f_equal. apply list_fmap_ext. intros i s Hs.
  apply list_elem_of_lookup_2 in Hs.
  destruct (Hix s r Hs Hr) as [_ (E1 & E2 & E3)].
  unfold row_value, cubic. simpl. by rewrite E1, E2, E3.
Qed.

(** The derivative of the cubic along x in one of the four rows. *)
Lemma batch_row_deriv (r : Z) :
  0 <= r <= 3 ->
  dhorner_at (Nd1 c1) (Nd1 c2) (Nd1 c3) (Nd1 ((fun s => frac s.1) <$> ss))
             ((fun s => row_index stride s r) <$> ss)
  = Ok (Nd1 ((fun s => row_deriv P stride s r) <$> ss)).
Proof.
  intros Hr. rewrite (dhorner_at_fmap P) by (done || by apply batch_valid).
  do 2 f_equal. apply list_fmap_ext. intros i s Hs.
  apply list_elem_of_lookup_2 in Hs.
  destruct (Hix s r Hs Hr) as [_ (E1 & E2 & E3)].
  unfold row_deriv, dcubic. simpl. by rewrite E1, E2, E3.
Qed.

(** Lines 163-181 and 193-211. *)
Lemma batch_eval (deriv : bool) :
  rinter_eval (Nd1 P) (Nd1 c1) (Nd1 c2) (Nd1 c3)
    ((fun s => row_index stride s 0) <$> ss) ((fun s => row_index stride s 1) <$> ss)
    ((fun s => row_index stride s 2) <$> ss) ((fun s => row_index stride s 3) <$> ss)
    (Nd1 ((fun s => frac s.1) <$> ss)) (Nd1 ((fun s => frac s.2) <$> ss)) deriv
  = Ok (Nd1 ((fun s => row_value P stride s 0) <$> ss),
        Nd1 ((fun s => row_value P stride s 1) <$> ss),
        Nd1 ((fun s => row_value P stride s 2) <$> ss),
        Nd1 ((fun s => row_value P stride s 3) <$> ss),
        if deriv then Some (Nd1 (bicubic_dx P stride <$> ss)) else None).
Proof.
  unfold rinter_eval.
  rewrite !batch_row, !bind_Ok by lia.
  destruct deriv; [|done].
  rewrite !batch_row_deriv, !bind_Ok by lia.
  rewrite coeff1_fmap, bind_Ok, coeff2_fmap, bind_Ok, coeff3_fmap, bind_Ok.
  by rewrite horner_fmap, bind_Ok.
Qed.

End Batch.

Lemma table_flat_dims (p : pyobj) (ps1d : bool) (l : list Qc) (stride : nat) :
  table_flat p ps1d = Some (l, stride) ->
  (exists c0, rinter_dims p ps1d = Ok [c0; stride])
  /\ rinter_table p ps1d = Ok (PArr (Nd1 l)).
Proof.
  unfold table_flat, rinter_dims, rinter_table.
  destruct p as [|[v|l'|r c d]], ps1d; try done.
  - intros [= -> <-]. simpl. eauto.
  - case_decide as Hd; [|done]. intros [= -> <-]. simpl. split; [eauto|].
    unfold nd_reshape1. simpl. by rewrite decide_True.
Qed.

(** Lines 113-211 on a batch of samples. *)
Lemma rinter_body_spec (p : pyobj) (ps1d : bool) (l : list Qc) (stride c0 : nat)
    (ss : list (Qc * Qc)) (xy : coords) (flag deriv : bool) :
  rinter_table p ps1d = Ok (PArr (Nd1 l)) ->
  l <> [] -> ss <> [] ->
  Forall (fun s => 0 <= row_index (Z.of_nat stride) s 0) ss ->
  let P := batch_table l (Z.of_nat stride) ss in
  rinter_body p [c0; stride] xy flag (FVec ss.*1 ss.*2) deriv false ps1d
  = rinter_finish xy flag deriv (Nd1 ((fun s => frac s.2) <$> ss))
      (Nd1 ((fun s => row_value P (Z.of_nat stride) s 0) <$> ss))
      (Nd1 ((fun s => row_value P (Z.of_nat stride) s 1) <$> ss))
      (Nd1 ((fun s => row_value P (Z.of_nat stride) s 2) <$> ss))
      (Nd1 ((fun s => row_value P (Z.of_nat stride) s 3) <$> ss))
      (if deriv then Some (Nd1 (bicubic_dx P (Z.of_nat stride) <$> ss)) else None).
Proof.
  intros Ht Hl Hss Hpos P.
  destruct (needed_max (Z.of_nat stride) ss) as (mx & Hmx & Hmx0 & Hrows);
    [lia|done|done|].
  assert (P = table_ext l mx) as HP by (unfold P, batch_table; by rewrite Hmx).
  unfold rinter_body.
  change (tuple_get [c0; stride] 1) with (Ok stride). rewrite bind_Ok.
  rewrite rinter_indices, bind_Ok. rewrite Ht, bind_Ok.
  rewrite !zshift_row_index. simpl Z.add.
  destruct (rinter_gather_spec l _ _ _ _ mx Hl Hmx Hmx0)
    as (c1 & c2 & c3 & Eg & H1 & H2 & H3 & Hc).
  change (0 + 1 + 1 + 1) with 3. change (0 + 1 + 1) with 2. change (0 + 1) with 1.
  unfold needed in Hmx. rewrite Eg, bind_Ok. rewrite <- HP in *.
  assert ((fun x => x - Qc_of_Z (Qc_trunc x))%Qc <$> ss.*1
          = (fun s => frac s.1) <$> ss) as -> by by rewrite <- list_fmap_compose.
  assert ((fun x => x - Qc_of_Z (Qc_trunc x))%Qc <$> ss.*2
          = (fun s => frac s.2) <$> ss) as -> by by rewrite <- list_fmap_compose.
  rewrite (batch_eval P c1 c2 c3 (Z.of_nat stride) ss H1 H2 H3); [done|].
  intros s r Hs Hr. destruct (Hrows s r Hs Hr) as [Hlo Hhi].
  pose proof (table_ext_length l mx Hmx0) as Hlen. rewrite <- HP in Hlen.
  split; [lia|]. apply Hc; [|done].
  apply (elem_of_needed (Z.of_nat stride) ss). eauto.
Qed.

(** Lines 213-237 on a batch of samples: a vector of values, reshaped to
    the shape of [x] when [x] was a 2-D array; the derivatives are returned
    as the vectors that they are. *)
Lemma rinter_finish_spec (xy : coords) (flag deriv : bool) (P : list Qc) (stride : Z)
    (ss : list (Qc * Qc)) :
  rinter_finish xy flag deriv (Nd1 ((fun s => frac s.2) <$> ss))
      (Nd1 ((fun s => row_value P stride s 0) <$> ss))
      (Nd1 ((fun s => row_value P stride s 1) <$> ss))
      (Nd1 ((fun s => row_value P stride s 2) <$> ss))
      (Nd1 ((fun s => row_value P stride s 3) <$> ss))
      (if deriv then Some (Nd1 (bicubic_dx P stride <$> ss)) else None)
  = z ← (if flag then
           match xy with
           | CGrid xr xc _ _ _ _ => nd_reshape2 (Nd1 (bicubic P stride <$> ss)) xr xc
           | _ => Ok (Nd1 (bicubic P stride <$> ss))
           end
         else Ok (Nd1 (bicubic P stride <$> ss)));
    Ok (rinter_out deriv z (Nd1 (bicubic_dx P stride <$> ss))
                           (Nd1 (bicubic_dy P stride <$> ss))).
Proof.
  unfold rinter_finish.
  rewrite coeff1_fmap, bind_Ok, coeff2_fmap, bind_Ok, coeff3_fmap, bind_Ok.
  rewrite horner_fmap, bind_Ok.
  destruct deriv.
  - rewrite dhorner_fmap, bind_Ok. by destruct flag.
  - by destruct flag.
Qed.

(** [rinter] on a vector of samples, with [initialize] not set: the table
    is left as it was, and the call returns the vector of the interpolated
    values and, when asked for, the vectors of the derivatives. *)
Lemma rinter_vec_spec (p : pyobj) (ps1d : bool) (l : list Qc) (stride : nat)
    (ss : list (Qc * Qc)) (deriv : bool) :
  table_flat p ps1d = Some (l, stride) ->
  l <> [] -> ss <> [] ->
  Forall (fun s => 0 <= row_index (Z.of_nat stride) s 0) ss ->
  let P := batch_table l (Z.of_nat stride) ss in
  rinter p (CVec ss.*1 ss.*2) deriv false ps1d
  = (p, Ok (rinter_out deriv (Nd1 (bicubic P (Z.of_nat stride) <$> ss))
                             (Nd1 (bicubic_dx P (Z.of_nat stride) <$> ss))
                             (Nd1 (bicubic_dy P (Z.of_nat stride) <$> ss)))).
Proof.
  intros Ht Hl Hss Hpos P.
  destruct (table_flat_dims _ _ _ _ Ht) as [[c0 Hd] Htab].
  unfold rinter. simpl rinter_flatten. rewrite Hd. f_equal. rewrite bind_Ok.
  rewrite (rinter_body_spec p ps1d l stride c0 ss) by done.
  by rewrite rinter_finish_spec.
Qed.

(** [rinter] on a 2-D array of samples of shape ([xr], [xc]): the values
    are returned with that shape, the derivatives as vectors of
    [xr * xc] elements. *)
Lemma rinter_grid_spec (p : pyobj) (ps1d : bool) (l : list Qc) (stride : nat)
    (ss : list (Qc * Qc)) (xr xc yr yc : nat) (deriv : bool) :
  table_flat p ps1d = Some (l, stride) ->
  l <> [] -> ss <> [] ->
  length ss = (xr * xc)%nat -> length ss = (yr * yc)%nat ->
  Forall (fun s => 0 <= row_index (Z.of_nat stride) s 0) ss ->
  let P := batch_table l (Z.of_nat stride) ss in
  rinter p (CGrid xr xc ss.*1 yr yc ss.*2) deriv false ps1d
  = (p, Ok (rinter_out deriv (Nd2 xr xc (bicubic P (Z.of_nat stride) <$> ss))
                             (Nd1 (bicubic_dx P (Z.of_nat stride) <$> ss))
                             (Nd1 (bicubic_dy P (Z.of_nat stride) <$> ss)))).
Proof.
  intros Ht Hl Hss Hx Hy Hpos P.
  destruct (table_flat_dims _ _ _ _ Ht) as [[c0 Hd] Htab].
  unfold rinter, rinter_flatten, nd_reshape1. simpl nd_data.
  rewrite !decide_True by (by rewrite length_fmap).
  rewrite !bind_Ok. simpl nd_data. rewrite Hd. f_equal. rewrite bind_Ok.
  rewrite (rinter_body_spec p ps1d l stride c0 ss) by done.
  rewrite rinter_finish_spec. unfold nd_reshape2. simpl nd_data.
  by rewrite decide_True by (by rewrite length_fmap).
Qed.

(** ** Coordinates on the nodes of the grid *)

Lemma Qc_trunc_of_Z (i : Z) : Qc_trunc (Qc_of_Z i) = i.
Proof. unfold Qc_trunc, Qc_of_Z. simpl. apply Z.quot_1_r. Qed.

Lemma frac_of_Z (i : Z) : frac (Qc_of_Z i) = 0%Qc.
Proof. unfold frac. rewrite Qc_trunc_of_Z. apply Qcplus_opp_r. Qed.

Lemma cubic_at_0 (p_1 p0 p1 p2 : Qc) : cubic p_1 p0 p1 p2 0 = p0.
Proof. unfold cubic. by rewrite Qcmult_0_l, Qcplus_0_l. Qed.

Lemma batch_table_tab_at (l : list Qc) (stride : Z) (ss : list (Qc * Qc)) (k : Z) :
  0 <= k < Z.of_nat (length l) ->
  tab_at (batch_table l stride ss) k = tab_at l k.
Proof.
  intros Hk. rewrite !tab_at_nonneg by lia. unfold batch_table.
  destruct (py_max (needed stride ss)) as [mx|]; [|done].
  rewrite table_ext_lookup by lia. done.
Qed.

(** C2. Exactness at nodes: for an N x N table, passed as a vector with
    [ps1d] set or as a matrix with [ps1d] not set, and a batch of interior
    integer grid nodes (i, j), with 1 <= i, j <= N - 2, [rinter] returns at
    each node the table value stored at that node, the element N * j + i of
    the flattened table. *)
Theorem rinter_exact_at_nodes (p : pyobj) (ps1d : bool) (l : list Qc) (N : nat)
    (nodes : list (Z * Z)) (deriv : bool) :
  table_flat p ps1d = Some (l, N) ->
  length l = (N * N)%nat ->
  nodes <> [] ->
  Forall (fun n => 1 <= n.1 <= Z.of_nat N - 2 /\ 1 <= n.2 <= Z.of_nat N - 2) nodes ->
  let ss := (fun n => (Qc_of_Z n.1, Qc_of_Z n.2)) <$> nodes in
  exists dfdx dfdy,
    rinter p (CVec ss.*1 ss.*2) deriv false ps1d
    = (p, Ok (rinter_out deriv
                (Nd1 ((fun n => tab_at l (Z.of_nat N * n.2 + n.1)) <$> nodes))
                dfdx dfdy)).
Proof.
  intros Ht Hlen Hn Hint ss.
  assert (3 <= N)%nat as HN.
  { destruct nodes as [|n nodes]; [done|]. apply Forall_cons in Hint as [[H1 H2] _]. lia. }
  assert (l <> []) as Hl by (intros ->; simpl in Hlen; nia).
  assert (ss <> []) as Hss by (unfold ss; by destruct nodes).
  rewrite Forall_forall in Hint.
  assert (Forall (fun s => 0 <= row_index (Z.of_nat N) s 0) ss) as Hpos.
  { apply Forall_fmap, Forall_forall. intros n Hin. destruct (Hint n Hin) as [H1 H2].
    unfold row_index. simpl. rewrite !Qc_trunc_of_Z. nia. }
  rewrite (rinter_vec_spec p ps1d l N ss deriv Ht Hl Hss Hpos).
  eexists _, _. do 4 f_equal.
  unfold ss. rewrite <- list_fmap_compose.
  apply list_fmap_ext. intros i n Hin. apply list_elem_of_lookup_2 in Hin.
  destruct (Hint n Hin) as [H1 H2]. simpl.
  unfold bicubic. simpl. rewrite frac_of_Z, cubic_at_0.
  unfold row_value. simpl. rewrite frac_of_Z, cubic_at_0.
  unfold row_index. simpl. rewrite !Qc_trunc_of_Z.
  rewrite batch_table_tab_at by nia. f_equal. lia.
Qed.

(** A 5 x 5 table, passed as a vector, and its centre node. *)
Lemma rinter_exact_at_nodes_witness :
  table_flat (PArr (Nd1 (ramp 5))) true = Some (ramp 5, 5%nat)
  /\ exists dfdx dfdy,
       rinter (PArr (Nd1 (ramp 5))) (CVec [Qc_of_Z 2] [Qc_of_Z 2]) true false true
       = (PArr (Nd1 (ramp 5)),
          Ok (rinter_out true (Nd1 [tab_at (ramp 5) 12]) dfdx dfdy)).
Proof.
  split; [reflexivity|].
  apply (rinter_exact_at_nodes (PArr (Nd1 (ramp 5))) true (ramp 5) 5 [(2, 2)] true).
  - reflexivity.
  - reflexivity.
  - discriminate.
  - repeat constructor; simpl; lia.
Defined.

(** C3. The cubic coefficients and the Horner form: on a batch of samples
    whose neighbours are gathered (the table is not empty and no needed
    subscript is negative), [rinter] returns for each sample the cubic in
    the fractional part of y of the four row values, where the value of a
    row is the cubic in the fractional part of x of the four neighbours in
    that row; the cubic of the neighbours p_1, p0, p1, p2 at d is
    d*(d*(d*c3 + c2) + c1) + p0 with c1 = 0.5*(p1 - p_1),
    c2 = 2*p1 + p_1 - 0.5*(5*p0 + p2) and
    c3 = 0.5*(3*(p0 - p1) + p2 - p_1). *)
Theorem rinter_cubic_horner (p : pyobj) (ps1d : bool) (l : list Qc) (stride : nat)
    (ss : list (Qc * Qc)) (deriv : bool) :
  table_flat p ps1d = Some (l, stride) ->
  l <> [] -> ss <> [] ->
  Forall (fun s => 0 <= row_index (Z.of_nat stride) s 0) ss ->
  let P := batch_table l (Z.of_nat stride) ss in
  let c1 p_1 p0 p1 p2 := (Qc_half * (p1 - p_1))%Qc in
  let c2 p_1 p0 p1 p2 := (Qc_two * p1 + p_1 - Qc_half * (Qc_five * p0 + p2))%Qc in
  let c3 p_1 p0 p1 p2 := (Qc_half * (Qc_three * (p0 - p1) + p2 - p_1))%Qc in
  let horner4 p_1 p0 p1 p2 d :=
    (d * (d * (d * c3 p_1 p0 p1 p2 + c2 p_1 p0 p1 p2) + c1 p_1 p0 p1 p2) + p0)%Qc in
  let row s r :=
    let k := row_index (Z.of_nat stride) s r in
    horner4 (tab_at P (k - 1)) (tab_at P k) (tab_at P (k + 1)) (tab_at P (k + 2))
            (frac s.1) in
  exists z dfdx dfdy,
    (rinter p (CVec ss.*1 ss.*2) deriv false ps1d).2
    = Ok (rinter_out deriv (Nd1 z) dfdx dfdy)
    /\ length z = length ss
    /\ forall m s, ss !! m = Some s ->
         z !! m = Some (horner4 (row s 0) (row s 1) (row s 2) (row s 3) (frac s.2)).
Proof.
  intros Ht Hl Hss Hpos P c1 c2 c3 horner4 row.
  rewrite (rinter_vec_spec p ps1d l stride ss deriv Ht Hl Hss Hpos).
  eexists _, _, _. split; [done|]. split; [by rewrite length_fmap|].
  intros m s Hm. rewrite list_lookup_fmap, Hm. done.
Qed.

(** A 7 x 7 table passed as a matrix, and two samples between its nodes. *)
Lemma rinter_cubic_horner_witness :
  table_flat (PArr (Nd2 7 7 (ramp 7))) false = Some (ramp 7, 7%nat)
  /\ exists z dfdx dfdy,
       (rinter (PArr (Nd2 7 7 (ramp 7)))
               (CVec [qc 7 2; qc 5 1] [qc 3 1; qc 9 4]) true false false).2
       = Ok (rinter_out true (Nd1 z) dfdx dfdy)
       /\ length z = 2%nat.
Proof.
  split; [reflexivity|].
  destruct (rinter_cubic_horner (PArr (Nd2 7 7 (ramp 7))) false (ramp 7) 7
              [(qc 7 2, qc 3 1); (qc 5 1, qc 9 4)] true)
    as (z & dfdx & dfdy & E & Hlen & _).
  - reflexivity.
  - discriminate.
  - discriminate.
  - repeat constructor; vm_compute; discriminate.
  - exists z, dfdx, dfdy. split; [exact E|exact Hlen].
Defined.

(** ** The test for positions too close to the edge *)

Lemma Qc_ltb_true (a b : Qc) : Qc_ltb a b = true <-> (a < b)%Qc.
Proof. unfold Qc_ltb. apply bool_decide_eq_true. Qed.

Lemma Qc_ltb_false (a b : Qc) : Qc_ltb a b = false <-> (b <= a)%Qc.
Proof.
  unfold Qc_ltb. rewrite bool_decide_eq_false. split.
  - apply Qcnot_lt_le.
  - apply Qcle_not_lt.
Qed.

Lemma Qc_min_lt (a b c : Qc) : (Qc_min a b < c)%Qc <-> (a < c \/ b < c)%Qc.
Proof.
  unfold Qc_min. destruct (Qc_ltb b a) eqn:E.
  - apply Qc_ltb_true in E. split; [by right|].
    intros [H|H]; [|done]. by apply Qclt_trans with a.
  - apply Qc_ltb_false in E. split; [by left|].
    intros [H|H]; [done|]. by apply Qcle_lt_trans with b.
Qed.

Lemma Qc_max_lt (a b c : Qc) : (c < Qc_max a b)%Qc <-> (c < a \/ c < b)%Qc.
Proof.
  unfold Qc_max. destruct (Qc_ltb a b) eqn:E.
  - apply Qc_ltb_true in E. split; [by right|].
    intros [H|H]; [|done]. by apply Qclt_trans with a.
  - apply Qc_ltb_false in E. split; [by left|].
    intros [H|H]; [done|]. by apply Qclt_le_trans with b.
Qed.

Lemma foldl_min_lt (l : list Qc) (v c : Qc) :
  (foldl Qc_min v l < c)%Qc <-> Exists (fun e => (e < c)%Qc) (v :: l).
Proof.
  revert v. induction l as [|a l IH]; intros v; simpl.
  - rewrite Exists_cons, Exists_nil. tauto.
  - rewrite IH, !Exists_cons, Qc_min_lt. tauto.
Qed.

Lemma foldl_max_lt (l : list Qc) (v c : Qc) :
  (c < foldl Qc_max v l)%Qc <-> Exists (fun e => (c < e)%Qc) (v :: l).
Proof.
  revert v. induction l as [|a l IH]; intros v; simpl.
  - rewrite Exists_cons, Exists_nil. tauto.
  - rewrite IH, !Exists_cons, Qc_max_lt. tauto.
Qed.

Lemma np_min_lt (a : ndarray) (c : Qc) :
  nd_data a <> [] ->
  exists m, np_min a = Ok m
    /\ (Qc_ltb m c = true <-> Exists (fun e => (e < c)%Qc) (nd_data a)).
Proof.
  intros Ha. unfold np_min. destruct (nd_data a) as [|v l]; [done|].
  eexists. split; [done|]. rewrite Qc_ltb_true. apply foldl_min_lt.
Qed.

Lemma np_max_lt (a : ndarray) (c : Qc) :
  nd_data a <> [] ->
  exists m, np_max a = Ok m
    /\ (Qc_ltb c m = true <-> Exists (fun e => (c < e)%Qc) (nd_data a)).
Proof.
  intros Ha. unfold np_max. destruct (nd_data a) as [|v l]; [done|].
  eexists. split; [done|]. rewrite Qc_ltb_true. apply foldl_max_lt.
Qed.

(** Lines 68-69: for arrays that are not empty the test holds exactly when
    one of the coordinates is outside the interval from 1 to N - 2. *)
Lemma dao_edge_spec (x y : ndarray) (N : nat) :
  nd_data x <> [] -> nd_data y <> [] ->
  exists b, dao_edge x y N = Ok b
    /\ (b = true <-> Exists (off_table N) (nd_data x ++ nd_data y)).
Proof.
  intros Hx Hy. unfold dao_edge.
  set (hi := (Qc_of_Z (Z.of_nat N) - Qc_two)%Qc).
  destruct (np_min_lt x 1 Hx) as (m1 & -> & H1).
  destruct (np_max_lt x hi Hx) as (m2 & -> & H2).
  destruct (np_min_lt y 1 Hy) as (m3 & -> & H3).
  destruct (np_max_lt y hi Hy) as (m4 & -> & H4).
  rewrite !bind_Ok.
  assert (Exists (off_table N) (nd_data x ++ nd_data y) <->
          Exists (fun e => (e < 1)%Qc) (nd_data x)
          \/ Exists (fun e => (hi < e)%Qc) (nd_data x)
          \/ Exists (fun e => (e < 1)%Qc) (nd_data y)
          \/ Exists (fun e => (hi < e)%Qc) (nd_data y)) as Hiff.
  { rewrite Exists_app. unfold off_table. fold hi.
    rewrite !Exists_exists. split.
    - intros [(e & He & [H|H])|(e & He & [H|H])]; eauto 10.
    - intros [(e & He & H)|[(e & He & H)|[(e & He & H)|(e & He & H)]]]; eauto 10. }
  rewrite <- H1, <- H2, <- H3, <- H4 in Hiff.
  destruct (Qc_ltb m1 1); [eexists; split; [done|tauto]|].
  rewrite ?bind_Ok.
  destruct (Qc_ltb hi m2); [eexists; split; [done|tauto]|].
  rewrite ?bind_Ok.
  destruct (Qc_ltb m3 1); [eexists; split; [done|tauto]|].
  rewrite ?bind_Ok.
  eexists; split; [done|]. rewrite Hiff.
  destruct (Qc_ltb hi m4); split; try done; try tauto.
Qed.

Lemma coords_map_x (f : Qc -> Qc) (xy : coords) :
  nd_data (coords_x (coords_map f xy)) = f <$> nd_data (coords_x xy).
Proof. by destruct xy. Qed.

Lemma coords_map_y (f : Qc -> Qc) (xy : coords) :
  nd_data (coords_y (coords_map f xy)) = f <$> nd_data (coords_y xy).
Proof. by destruct xy. Qed.

Lemma zeros_like_shape (a : ndarray) : nd_shape (zeros_like a) = nd_shape a.
Proof. destruct a; simpl; by rewrite ?length_fmap. Qed.

Lemma zeros_like_data (a : ndarray) : Forall (fun v => v = 0%Qc) (nd_data (zeros_like a)).
Proof.
  destruct a; simpl; [by repeat constructor| |]; by apply Forall_fmap, Forall_true.
Qed.

Lemma times_zero_zeros (a : ndarray) : nd_map (fun v => v * 0)%Qc a = zeros_like a.
Proof.
  unfold zeros_like.
  destruct a; simpl; f_equal; try apply list_fmap_ext; intros; apply Qcmult_0_r.
Qed.

(** C1. The edge guard: for a batch whose [xx] and [yy] have as many
    elements and a table with N columns, if one of the rescaled coordinates
    2*xx + (N-1)/2, 2*yy + (N-1)/2 is outside the interval from 1 to N - 2,
    [dao_value] does not raise and returns an array of zeros of the shape
    of [xx], three times when the derivatives are asked for, whatever the
    other coordinates of the batch are. *)
Theorem dao_value_edge_zeros (daoerf : coords -> list Qc -> res (ndarray * ndarray))
    (xy : coords) (gauss : list Qc) (r N : nat) (d : list Qc) (psf1d : pyobj)
    (deriv ps1d : bool) :
  coords_matching xy ->
  Exists (off_table N) (dao_rescale N <$> coords_all xy) ->
  let zeros := zeros_like (coords_x xy) in
  dao_value daoerf xy gauss (PArr (Nd2 r N d)) psf1d deriv ps1d
  = Ok (if deriv then Out3 zeros zeros zeros else Out1 zeros)
  /\ nd_shape zeros = nd_shape (coords_x xy)
  /\ Forall (fun v => v = 0%Qc) (nd_data zeros).
Proof.
  intros Hm Hoff zeros.
  split; [|split; [apply zeros_like_shape|apply zeros_like_data]].
  unfold coords_matching in Hm. unfold coords_all in Hoff.
  assert (nd_data (coords_x xy) <> [] /\ nd_data (coords_y xy) <> []) as [Hx Hy].
  { destruct (nd_data (coords_x xy)), (nd_data (coords_y xy)); try done.
    by apply Exists_nil in Hoff. }
  unfold dao_value.
  change (tuple_get (np_shape (PArr (Nd2 r N d))) 1) with (Ok N). rewrite bind_Ok.
  destruct (dao_edge_spec (coords_x (coords_map (dao_rescale N) xy))
                          (coords_y (coords_map (dao_rescale N) xy)) N)
    as (b & -> & Hb).
  { rewrite coords_map_x. by destruct (nd_data (coords_x xy)). }
  { rewrite coords_map_y. by destruct (nd_data (coords_y xy)). }
  rewrite bind_Ok. rewrite coords_map_x, coords_map_y, <- fmap_app in Hb.
  apply Hb in Hoff as ->. rewrite times_zero_zeros. by destruct deriv.
Qed.

(** The scenario of the specification: a rescaled coordinate equal to 0.5,
    next to a sample at the centre of a 7 x 7 table. *)
Lemma dao_value_edge_zeros_witness :
  coords_matching (CVec [qc (-5) 4; 0%Qc] [0%Qc; 0%Qc])
  /\ dao_value (fun _ _ => Raise ValueError)
       (CVec [qc (-5) 4; 0%Qc] [0%Qc; 0%Qc]) [] (PArr (Nd2 7 7 (ramp 7))) PEmptyStr
       true true
     = Ok (Out3 (Nd1 [0%Qc; 0%Qc]) (Nd1 [0%Qc; 0%Qc]) (Nd1 [0%Qc; 0%Qc])).
Proof.
  split; [reflexivity|].
  apply (dao_value_edge_zeros (fun _ _ => Raise ValueError)
           (CVec [qc (-5) 4; 0%Qc] [0%Qc; 0%Qc]) [] 7 7 (ramp 7) PEmptyStr true true).
  - reflexivity.
  - apply Exists_cons_hd. left. reflexivity.
Defined.

(** ** A table of zeros *)

Lemma Qc_trunc_ge_1 (q : Qc) : (1 <= q)%Qc -> 1 <= Qc_trunc q.
Proof.
  unfold Qcle, Qle, Qc_trunc. simpl. intros H.
  apply Z.quot_le_lower_bound; lia.
Qed.

Lemma tab_at_zeros (P : list Qc) (k : Z) :
  Forall (fun v => v = 0%Qc) P -> tab_at P k = 0%Qc.
Proof.
  intros HP. unfold tab_at.
  destruct (P !! wrap (length P) k) as [v|] eqn:E; [|done].
  rewrite Forall_forall in HP. apply HP. by eapply list_elem_of_lookup_2.
Qed.

Lemma batch_table_zeros (l : list Qc) (stride : Z) (ss : list (Qc * Qc)) :
  Forall (fun v => v = 0%Qc) l ->
  Forall (fun v => v = 0%Qc) (batch_table l stride ss).
Proof.
  intros Hl. unfold batch_table, table_ext.
  destruct (py_max (needed stride ss)) as [mx|]; [|done].
  case_decide; [|done]. apply Forall_app. split; [done|].
  apply Forall_replicate.
  destruct (last l) as [v|] eqn:E; [|done]. simpl.
  rewrite last_lookup in E. rewrite Forall_forall in Hl.
  apply Hl. by eapply list_elem_of_lookup_2.
Qed.

Lemma cubic_zeros (d : Qc) : cubic 0 0 0 0 d = 0%Qc.
Proof. unfold cubic, cubic_c1, cubic_c2, cubic_c3. ring. Qed.

Lemma dcubic_zeros (d : Qc) : dcubic 0 0 0 0 d = 0%Qc.
Proof. unfold dcubic, cubic_c1, cubic_c2, cubic_c3. ring. Qed.

Lemma bicubic_zeros (P : list Qc) (stride : Z) (s : Qc * Qc) :
  Forall (fun v => v = 0%Qc) P ->
  bicubic P stride s = 0%Qc /\ bicubic_dx P stride s = 0%Qc
  /\ bicubic_dy P stride s = 0%Qc.
Proof.
  intros HP. unfold bicubic, bicubic_dx, bicubic_dy, row_value, row_deriv.
  simpl. rewrite !(tab_at_zeros P) by done.
  by rewrite ?cubic_zeros, ?dcubic_zeros, ?cubic_zeros, ?dcubic_zeros.
Qed.

(** ** The composite value and its derivatives *)

Lemma zip_plus_zero {A} (el : list Qc) (f : A -> Qc) (l : list A) :
  length el = length l -> (forall a, f a = 0%Qc) ->
  zip_with Qcplus el (f <$> l) = el.
Proof.
  intros Hlen Hf. revert l Hlen.
  induction el as [|e el IH]; intros [|a l] Hlen; try done.
  simpl. rewrite Hf, Qcplus_0_r. f_equal. apply IH. simpl in Hlen. lia.
Qed.

Lemma zip_twice_zero_minus {A} (row : list Qc) (f : A -> Qc) (l : list A) :
  length row = length l -> (forall a, f a = 0%Qc) ->
  zip_with Qcminus ((fun a => Qc_two * f a)%Qc <$> l) row = Qcopp <$> row.
Proof.
  intros Hlen Hf. revert l Hlen.
  induction row as [|e row IH]; intros [|a l] Hlen; try done.
  simpl. rewrite Hf. f_equal; [ring|]. apply IH. simpl in Hlen. lia.
Qed.

Lemma in_range_rows (N stride : nat) (ss : list (Qc * Qc)) :
  Forall (fun g => ~ off_table N g)
         (dao_rescale N <$> (ss.*1 ++ ss.*2)) ->
  Forall (fun s => 0 <= row_index (Z.of_nat stride) s 0)
         ((fun s => (dao_rescale N s.1, dao_rescale N s.2)) <$> ss).
Proof.
  intros Hin. rewrite fmap_app in Hin. apply Forall_app in Hin as [Hx Hy].
  rewrite <- !list_fmap_compose in Hx, Hy.
  rewrite Forall_fmap in Hx, Hy. rewrite Forall_forall in Hx, Hy.
  apply Forall_fmap, Forall_forall. intros s Hs.
  specialize (Hx s Hs). specialize (Hy s Hs). simpl in Hx, Hy.
  unfold off_table in Hx, Hy.
  assert (1 <= dao_rescale N s.1)%Qc as H1.
  { apply Qcnot_lt_le. tauto. }
  assert (1 <= dao_rescale N s.2)%Qc as H2.
  { apply Qcnot_lt_le. tauto. }
  apply Qc_trunc_ge_1 in H1, H2. unfold row_index. simpl. nia.
Qed.

Lemma nd_row_Nd2 (r c : nat) (d : list Qc) (k : nat) :
  (k < r)%nat -> nd_row (Nd2 r c d) k = Ok (Nd1 (take c (drop (k * c) d))).
Proof. intros Hk. unfold nd_row. by rewrite decide_True. Qed.



(** ** Calls that raise *)

Lemma raises_Raise {A} (e : exn) : raises (@Raise A e).
Proof. by exists e. Qed.

(** With [initialize] set, lines 113-237 raise: the block of lines 130-211
    is skipped, and line 213 reads [y1], which no line has bound. *)
Lemma rinter_body_initialize_raises (p : pyobj) (c : list nat) (xy : coords)
    (flag : bool) (f : flat) (deriv ps1d : bool) :
  raises (rinter_body p c xy flag f deriv true ps1d).
Proof.
  unfold rinter_body. apply raises_bind. intros stride. destruct f as [x y|xs ys].
  - apply raises_bind. intros _. apply raises_Raise.
  - apply raises_bind. intros x_1. apply raises_bind. intros _. apply raises_Raise.
Qed.

(** On scalars, lines 113-237 raise: line 132 concatenates 0-d arrays. *)
Lemma rinter_body_scalar_raises (p : pyobj) (c : list nat) (xy : coords)
    (flag : bool) (x y : Qc) (deriv initialize ps1d : bool) :
  raises (rinter_body p c xy flag (FScalar x y) deriv initialize ps1d).
Proof.
  unfold rinter_body. apply raises_bind. intros stride.
  apply raises_bind. intros _. destruct initialize; apply raises_Raise.
Qed.

Lemma rinter_scalar_raises (p : pyobj) (x y : Qc) (deriv initialize ps1d : bool) :
  raises (rinter p (CScalar x y) deriv initialize ps1d).2.
Proof.
  unfold rinter. simpl rinter_flatten.
  destruct (rinter_dims p ps1d) as [c|e]; [|apply raises_Raise].
  destruct (if initialize then rinter_init c p else (p, Ok ())) as [p' r].
  simpl. apply raises_bind. intros _. apply rinter_body_scalar_raises.
Qed.

Lemma rinter_init_call_raises (p : pyobj) (xy : coords) (deriv ps1d : bool) :
  raises (rinter p xy deriv true ps1d).2.
Proof.
  unfold rinter.
  destruct (rinter_flatten xy) as [[flag f]|e]; [|apply raises_Raise].
  destruct (rinter_dims p ps1d) as [c|e]; [|apply raises_Raise].
  destruct (rinter_init c p) as [p' r]. simpl.
  apply raises_bind. intros _. apply rinter_body_initialize_raises.
Qed.

(** C8. Precomputed coefficients: the claim does not hold of the code.
    A call of [rinter] with [initialize] set never returns: whatever the
    table, the coordinates and the other flags are, it raises.  Nothing is
    kept from one call to the next, since [c1], [c2], [c3] and [init] are
    local variables, so that there is no cache for a later call to reuse. *)
Theorem rinter_initialize_raises (p : pyobj) (xy : coords) (deriv ps1d : bool) :
  raises (rinter p xy deriv true ps1d).2.
Proof. apply rinter_init_call_raises. Qed.

(** A 5 x 5 table and its centre, with [initialize] set: line 105 assigns
    a 5 x 3 array to one element of the table, which raises ValueError; the
    same call on the flattened table raises IndexError. *)
Example rinter_initialize_5x5 :
  rinter (PArr (Nd2 5 5 (ramp 5))) (CVec [Qc_of_Z 2] [Qc_of_Z 2]) true true false
  = (PArr (Nd2 5 5 (ramp 5)), Raise ValueError)
  /\ rinter (PArr (Nd1 (ramp 5))) (CVec [Qc_of_Z 2] [Qc_of_Z 2]) true true true
     = (PArr (Nd1 (ramp 5)), Raise IndexError).
Proof. split; reflexivity. Qed.

(** ** The table after a call *)

Lemma rows_of_lengths (r c : nat) (d : list Qc) :
  length d = (r * c)%nat -> Forall (fun row => length row = c) (rows_of r c d).
Proof.
  intros Hd. unfold rows_of. apply Forall_fmap, Forall_forall.
  intros i Hi. apply elem_of_seq in Hi. simpl.
  rewrite length_take, length_drop. nia.
Qed.

Lemma bind_length_uniform {A B} (f : A -> list B) (m : nat) (l : list A) :
  Forall (fun a => length (f a) = m) l -> length (l ≫= f) = (length l * m)%nat.
Proof.
  induction 1 as [|a l Ha _ IH]; [done|].
  rewrite bind_cons, length_app, Ha, IH. simpl. lia.
Qed.

(** A slice of the columns of a well-formed matrix with r rows has a
    number of elements that is a multiple of r. *)
Lemma col_slice_size (r c : nat) (d : list Qc) (start : Z) (stop : option Z)
    (v : ndarray) :
  length d = (r * c)%nat ->
  col_slice (PArr (Nd2 r c d)) start stop = Ok v ->
  exists m, length (nd_data v) = (r * m)%nat.
Proof.
  intros Hd. unfold col_slice. intros [= <-]. simpl.
  set (lo := slice_bound c start).
  set (hi := match stop with Some s => slice_bound c s | None => c end).
  exists (Nat.min (hi - lo) (c - lo)).
  rewrite (bind_length_uniform _ (Nat.min (hi - lo) (c - lo))).
  - unfold rows_of. by rewrite length_fmap, length_seq.
  - eapply Forall_impl; [by apply rows_of_lengths|].
    intros row Hrow. simpl in *. rewrite length_take, length_drop. lia.
Qed.

(** An assignment to one element of a well-formed table from a slice of
    its columns succeeds only when the table has a single row. *)
Lemma set_elem_col_slice (p p' : pyobj) (i j : nat) (start : Z) (stop : option Z) :
  table_wf p ->
  (v ← col_slice p start stop; set_elem p i j v) = Ok p' ->
  single_row p.
Proof.
  intros Hwf. destruct p as [|[x|l|r c d]]; try done. simpl in Hwf.
  destruct (col_slice (PArr (Nd2 r c d)) start stop) as [v|e] eqn:Ev; [|done].
  rewrite bind_Ok. apply col_slice_size in Ev as [m Hm]; [|done].
  unfold set_elem. case_decide; [|done].
  destruct (nd_data v) as [|x [|y l]]; try done.
  intros _. unfold single_row. simpl in Hm.
  destruct r as [|[|r]]; [simpl in Hm; lia|done|]. destruct m; simpl in Hm; lia.
Qed.

(** Lines 103-111 leave a well-formed table that does not have a single
    row as it was: the assignment of line 105 raises. *)
Lemma rinter_init_table (c : list nat) (p : pyobj) :
  table_wf p -> ~ single_row p -> (rinter_init c p).1 = p.
Proof.
  intros Hwf Hrow. unfold rinter_init.
  destruct (tuple_get c 1) as [nx|e]; [|done].
  destruct (v ← col_slice p 0 (Some (Z.of_nat nx - 2)); set_elem p 0 1 v)
    as [pa|e] eqn:E; [|done].
  by apply set_elem_col_slice in E.
Qed.

Lemma rinter_table_no_init (p : pyobj) (xy : coords) (deriv ps1d : bool) :
  (rinter p xy deriv false ps1d).1 = p.
Proof.
  unfold rinter. destruct (rinter_flatten xy) as [[flag f]|e]; [|done].
  by destruct (rinter_dims p ps1d).
Qed.

(** C9. The table is only read: when a call of [rinter] returns, the
    caller's table is as it was before the call; with [initialize] not
    set, and for every well-formed table that does not have a single row
    (as every N x N table of the specification, N >= 5) also with
    [initialize] set, the table is as it was before the call when the call
    is left, whether by a return or by an exception. *)
Theorem rinter_table_unchanged (p : pyobj) (xy : coords) (deriv initialize ps1d : bool) :
  (forall p' out, rinter p xy deriv initialize ps1d = (p', Ok out) -> p' = p)
  /\ (initialize = false \/ (table_wf p /\ ~ single_row p) ->
      (rinter p xy deriv initialize ps1d).1 = p).
Proof.
  split.
  - intros p' out E. destruct initialize.
    + pose proof (rinter_init_call_raises p xy deriv ps1d) as [e He].
      rewrite E in He. done.
    + pose proof (rinter_table_no_init p xy deriv ps1d) as H.
      rewrite E in H. done.
  - intros [->|[Hwf Hrow]]; [apply rinter_table_no_init|].
    destruct initialize; [|apply rinter_table_no_init].
    unfold rinter. destruct (rinter_flatten xy) as [[flag f]|e]; [|done].
    destruct (rinter_dims p ps1d) as [c|e]; [|done].
    pose proof (rinter_init_table c p Hwf Hrow) as H.
    by destruct (rinter_init c p).
Qed.

(** A 5 x 5 table, with [initialize] set: the call raises and the table is
    as it was. *)
Lemma rinter_table_unchanged_witness :
  (table_wf (PArr (Nd2 5 5 (ramp 5))) /\ ~ single_row (PArr (Nd2 5 5 (ramp 5))))
  /\ (rinter (PArr (Nd2 5 5 (ramp 5))) (CVec [Qc_of_Z 2] [Qc_of_Z 2]) true true false).1
     = PArr (Nd2 5 5 (ramp 5)).
Proof.
  assert (table_wf (PArr (Nd2 5 5 (ramp 5))) /\ ~ single_row (PArr (Nd2 5 5 (ramp 5))))
    as H by (split; [reflexivity|simpl; lia]).
  split; [exact H|].
  apply (proj2 (rinter_table_unchanged (PArr (Nd2 5 5 (ramp 5)))
                  (CVec [Qc_of_Z 2] [Qc_of_Z 2]) true true false)).
  right. exact H.
Defined.

(** The hypothesis on the rows is needed: on a table of one row and three
    columns, line 105 assigns the 1 x 1 slice [p[:, 0:1]] to [p[0, 1]]
    before line 106 raises. *)
Example rinter_single_row_written :
  rinter (PArr (Nd2 1 3 [qc 1 1; qc 2 1; qc 3 1])) (CVec [Qc_of_Z 1] [Qc_of_Z 1])
         true true false
  = (PArr (Nd2 1 3 [qc 1 1; qc 1 1; qc 3 1]), Raise ValueError).
Proof. reflexivity. Qed.

(** ** The shapes that [rinter] accepts and returns *)

(** C6, as the claim states it, does not hold: on the centre of a 5 x 5
    table, the call with the pair given as scalars raises and the call with
    the pair given as a batch of one element returns. *)
Lemma rinter_scalar_batch_differ :
  (rinter (PArr (Nd1 (ramp 5))) (CScalar (Qc_of_Z 2) (Qc_of_Z 2)) true false true).2
  = Raise ValueError
  /\ is_ok (rinter (PArr (Nd1 (ramp 5))) (CVec [Qc_of_Z 2] [Qc_of_Z 2]) true false true).2
     = true
  /\ (rinter (PArr (Nd1 (ramp 5))) (CScalar (Qc_of_Z 2) (Qc_of_Z 2)) true false true).2
     <> (rinter (PArr (Nd1 (ramp 5))) (CVec [Qc_of_Z 2] [Qc_of_Z 2]) true false true).2.
Proof.
  assert ((rinter (PArr (Nd1 (ramp 5))) (CScalar (Qc_of_Z 2) (Qc_of_Z 2))
                  true false true).2 = Raise ValueError) as Hs
    by (vm_compute; reflexivity).
  assert (is_ok (rinter (PArr (Nd1 (ramp 5))) (CVec [Qc_of_Z 2] [Qc_of_Z 2])
                        true false true).2 = true) as Hv
    by (vm_compute; reflexivity).
  split; [exact Hs|]. split; [exact Hv|].
  rewrite Hs. intros E. rewrite <- E in Hv. clear E Hs. discriminate Hv.
Qed.

(** C6, amended. Scalars are not an accepted input: for every table and
    every pair (x, y), [rinter] given the pair as scalars raises; given the
    pair as a batch of one element, over a table that is not empty and
    with no negative subscript, it returns arrays of one element, the
    interpolated value and its derivatives at (x, y). *)
Theorem rinter_scalar_raises_batch_returns (p : pyobj) (ps1d : bool) (l : list Qc)
    (stride : nat) (x y : Qc) (deriv initialize : bool) :
  raises (rinter p (CScalar x y) deriv initialize ps1d).2
  /\ (table_flat p ps1d = Some (l, stride) -> l <> [] ->
      0 <= row_index (Z.of_nat stride) (x, y) 0 ->
      let P := batch_table l (Z.of_nat stride) [(x, y)] in
      (rinter p (CVec [x] [y]) deriv false ps1d).2
      = Ok (rinter_out deriv (Nd1 [bicubic P (Z.of_nat stride) (x, y)])
                             (Nd1 [bicubic_dx P (Z.of_nat stride) (x, y)])
                             (Nd1 [bicubic_dy P (Z.of_nat stride) (x, y)]))).
Proof.
  split; [apply rinter_scalar_raises|].
  intros Ht Hl Hpos P.
  change (CVec [x] [y]) with (CVec [(x, y)].*1 [(x, y)].*2).
  rewrite (rinter_vec_spec p ps1d l stride [(x, y)] deriv Ht Hl);
    [reflexivity|done|by repeat constructor].
Qed.

Lemma rinter_scalar_raises_batch_returns_witness :
  table_flat (PArr (Nd1 (ramp 5))) true = Some (ramp 5, 5%nat)
  /\ raises (rinter (PArr (Nd1 (ramp 5))) (CScalar (Qc_of_Z 2) (Qc_of_Z 2)) true false true).2
  /\ exists z dfdx dfdy,
       (rinter (PArr (Nd1 (ramp 5))) (CVec [Qc_of_Z 2] [Qc_of_Z 2]) true false true).2
       = Ok (Out3 (Nd1 [z]) (Nd1 [dfdx]) (Nd1 [dfdy])).
Proof.
  split; [reflexivity|].
  destruct (rinter_scalar_raises_batch_returns (PArr (Nd1 (ramp 5))) true (ramp 5) 5
              (Qc_of_Z 2) (Qc_of_Z 2) true false) as [Hs Hv].
  split; [exact Hs|].
  eexists _, _, _. apply Hv.
  - reflexivity.
  - discriminate.
  - vm_compute. discriminate.
Defined.

(** C5, as the claim states it, does not hold: on a 2 x 2 grid of
    samples over a 7 x 7 table the value has the shape (2, 2) of the grid,
    but the derivatives are returned as vectors of 4 elements; and on
    scalars the call raises. *)
Lemma rinter_shape_not_preserved :
  (exists z dfdx dfdy,
     (rinter (PArr (Nd1 (ramp 7)))
             (CGrid 2 2 [qc 5 2; qc 3 1; qc 3 1; qc 7 2] 2 2 [qc 3 1; qc 3 1; qc 7 2; qc 4 1])
             true false true).2
     = Ok (Out3 z dfdx dfdy)
     /\ nd_shape z = [2; 2]%nat /\ nd_shape dfdx = [4%nat] /\ nd_shape dfdy = [4%nat])
  /\ (rinter (PArr (Nd1 (ramp 7))) (CScalar (qc 5 2) (qc 3 1)) true false true).2
     = Raise ValueError.
Proof.
  split; [|vm_compute; reflexivity].
  pose proof (rinter_grid_spec (PArr (Nd1 (ramp 7))) true (ramp 7) 7
                [(qc 5 2, qc 3 1); (qc 3 1, qc 3 1); (qc 3 1, qc 7 2); (qc 7 2, qc 4 1)]
                2 2 2 2 true eq_refl) as E.
  eexists _, _, _. split.
  - change [qc 5 2; qc 3 1; qc 3 1; qc 7 2]
      with [(qc 5 2, qc 3 1); (qc 3 1, qc 3 1); (qc 3 1, qc 7 2); (qc 7 2, qc 4 1)].*1.
    change [qc 3 1; qc 3 1; qc 7 2; qc 4 1]
      with [(qc 5 2, qc 3 1); (qc 3 1, qc 3 1); (qc 3 1, qc 7 2); (qc 7 2, qc 4 1)].*2.
    rewrite E; [reflexivity|discriminate|discriminate|reflexivity|reflexivity|].
    repeat constructor; vm_compute; discriminate.
  - repeat split.
Qed.

(** C5, amended. Shapes: over a table that is not empty and with no
    negative subscript, a batch given as a vector of M samples gives a
    value of shape (M), and derivatives of shape (M) when they are asked
    for; a batch given as a 2-D array of shape (R, C) gives a value of
    shape (R, C); a pair of scalars is not accepted, the call raises. *)
Theorem rinter_output_shapes (p : pyobj) (ps1d : bool) (l : list Qc) (stride : nat)
    (ss : list (Qc * Qc)) (R C : nat) (deriv : bool) :
  table_flat p ps1d = Some (l, stride) ->
  l <> [] -> ss <> [] ->
  Forall (fun s => 0 <= row_index (Z.of_nat stride) s 0) ss ->
  (exists z dfdx dfdy,
     (rinter p (CVec ss.*1 ss.*2) deriv false ps1d).2 = Ok (rinter_out deriv z dfdx dfdy)
     /\ nd_shape z = [length ss]
     /\ nd_shape dfdx = [length ss] /\ nd_shape dfdy = [length ss])
  /\ (length ss = (R * C)%nat ->
      exists z dfdx dfdy,
        (rinter p (CGrid R C ss.*1 R C ss.*2) deriv false ps1d).2
        = Ok (rinter_out deriv z dfdx dfdy)
        /\ nd_shape z = [R; C])
  /\ (forall x y initialize, raises (rinter p (CScalar x y) deriv initialize ps1d).2).
Proof.
  intros Ht Hl Hss Hpos. split; [|split].
  - rewrite (rinter_vec_spec p ps1d l stride ss deriv Ht Hl Hss Hpos).
    eexists _, _, _. split; [reflexivity|]. simpl. by rewrite !length_fmap.
  - intros Hlen.
    rewrite (rinter_grid_spec p ps1d l stride ss R C R C deriv Ht Hl Hss Hlen Hlen Hpos).
    eexists _, _, _. split; reflexivity.
  - intros x y initialize. apply rinter_scalar_raises.
Qed.

Lemma rinter_output_shapes_witness :
  table_flat (PArr (Nd1 (ramp 7))) true = Some (ramp 7, 7%nat)
  /\ exists z dfdx dfdy,
       (rinter (PArr (Nd1 (ramp 7)))
               (CVec [qc 5 2; qc 3 1; qc 3 1] [qc 3 1; qc 3 1; qc 7 2]) true false true).2
       = Ok (Out3 z dfdx dfdy)
       /\ nd_shape z = [3%nat] /\ nd_shape dfdx = [3%nat] /\ nd_shape dfdy = [3%nat].
Proof.
  split; [reflexivity|].
  destruct (rinter_output_shapes (PArr (Nd1 (ramp 7))) true (ramp 7) 7
              [(qc 5 2, qc 3 1); (qc 3 1, qc 3 1); (qc 3 1, qc 7 2)] 1 3 true)
    as [Hv _].
  - reflexivity.
  - discriminate.
  - discriminate.
  - repeat constructor; vm_compute; discriminate.
  - exact Hv.
Defined.

(** ** Subscripts beyond the end of the table *)




(** ** The table that [dao_value] passes to [rinter] *)

Lemma raises_bind_l {A B} (m : res A) (f : A -> res B) :
  raises m -> raises (m ≫= f).
Proof. intros [e ->]. by exists e. Qed.

(** The empty string, the default of [psf1d], cannot be interpolated. *)
Lemma rinter_gather_empty_str_raises (x_1 x0 x1 x2 : list Z) :
  raises (rinter_gather PEmptyStr x_1 x0 x1 x2).
Proof.
  unfold rinter_gather. apply raises_bind. intros xgood.
  apply raises_bind. intros mx. simpl py_len. rewrite bind_Ok.
  case_decide.
  - unfold rinter_pad. simpl py_len. rewrite bind_Ok.
    apply raises_bind_l. apply raises_Raise.
  - unfold rinter_nopad. apply raises_bind_l. apply raises_Raise.
Qed.

Lemma rinter_empty_str_raises (xy : coords) (deriv initialize : bool) :
  raises (rinter PEmptyStr xy deriv initialize true).2.
Proof.
  destruct initialize; [apply rinter_init_call_raises|].
  unfold rinter. destruct (rinter_flatten xy) as [[flag f]|e]; [|apply raises_Raise].
  change (rinter_dims PEmptyStr true) with (Ok [isqrt 0; isqrt 0]).
  cbn [snd]. rewrite bind_Ok.
  unfold rinter_body. apply raises_bind. intros stride.
  destruct f as [x y|xs ys].
  - apply raises_bind. intros _. apply raises_Raise.
  - apply raises_bind. intros x_1. simpl rinter_table. rewrite bind_Ok.
    apply raises_bind_l. apply rinter_gather_empty_str_raises.
Qed.

(** The test of lines 68-69 fails for a batch that is not empty and has no
    rescaled coordinate off the table. *)
Lemma dao_edge_in_range (xy : coords) (N : nat) :
  nd_data (coords_x xy) <> [] -> nd_data (coords_y xy) <> [] ->
  Forall (fun g => ~ off_table N g) (dao_rescale N <$> coords_all xy) ->
  dao_edge (coords_x (coords_map (dao_rescale N) xy))
           (coords_y (coords_map (dao_rescale N) xy)) N = Ok false.
Proof.
  intros Hx Hy Hin.
  destruct (dao_edge_spec (coords_x (coords_map (dao_rescale N) xy))
                          (coords_y (coords_map (dao_rescale N) xy)) N)
    as (b & -> & Hb).
  { rewrite coords_map_x. by destruct (nd_data (coords_x xy)). }
  { rewrite coords_map_y. by destruct (nd_data (coords_y xy)). }
  rewrite coords_map_x, coords_map_y, <- fmap_app in Hb.
  destruct b; [|done]. destruct Hb as [Hb _]. specialize (Hb eq_refl).
  apply Exists_exists in Hb as (g & Hg & Hoff).
  rewrite Forall_forall in Hin. by apply Hin in Hoff.
Qed.

(** C10. The table that is interpolated: for a call with [ps1d] set, on a
    batch that is not empty and has no rescaled coordinate off the table,
    - with the derivatives asked for, [dao_value] interpolates [psf1d]:
      its result is made from what [rinter] returns on [psf1d], it is the
      same for every table [psf] with as many columns, and with the
      default of [psf1d], the empty string, the call raises;
    - with the derivatives not asked for, [dao_value] interpolates [psf]
      itself: its result is made from what [rinter] returns on [psf], and
      it is the same for every [psf1d];
    - [rinter], given the matrix [psf] with [ps1d] set, takes as row stride
      the integer square root of [len(psf)], the number of rows. *)
Theorem dao_value_table_consumed
    (daoerf : coords -> list Qc -> res (ndarray * ndarray))
    (xy : coords) (gauss : list Qc) (r N : nat) (d : list Qc) (psf1d : pyobj)
    (e pder : ndarray) :
  let psf := PArr (Nd2 r N d) in
  let g := coords_map (dao_rescale N) xy in
  nd_data (coords_x xy) <> [] -> nd_data (coords_y xy) <> [] ->
  Forall (fun v => ~ off_table N v) (dao_rescale N <$> coords_all xy) ->
  daoerf xy gauss = Ok (e, pder) ->
  dao_value daoerf xy gauss psf psf1d true true
  = (out ← (rinter psf1d g true false true).2;
     match out with
     | Out1 _ => Raise TypeError
     | Out3 value dfdx dfdy =>
         value ← nd_add e value;
         px ← nd_row pder 1;
         dvdx ← nd_sub (nd_scale Qc_two dfdx) px;
         py ← nd_row pder 2;
         dvdy ← nd_sub (nd_scale Qc_two dfdy) py;
         Ok (Out3 value dvdx dvdy)
     end)
  /\ (forall r' d',
        dao_value daoerf xy gauss (PArr (Nd2 r' N d')) psf1d true true
        = dao_value daoerf xy gauss psf psf1d true true)
  /\ raises (dao_value daoerf xy gauss psf PEmptyStr true true)
  /\ dao_value daoerf xy gauss psf psf1d false true
     = (out ← (rinter psf g false false true).2;
        match out with
        | Out1 z => value ← nd_add e z; Ok (Out1 value)
        | Out3 _ _ _ => Raise TypeError
        end)
  /\ (forall psf1d',
        dao_value daoerf xy gauss psf psf1d' false true
        = dao_value daoerf xy gauss psf psf1d false true)
  /\ rinter_dims psf true = Ok [isqrt r; isqrt r].
Proof.
  intros psf g Hx Hy Hin He.
  pose proof (dao_edge_in_range xy N Hx Hy Hin) as Hedge.
  assert (forall p1,
    dao_value daoerf xy gauss psf p1 true true
    = (out ← (rinter p1 g true false true).2;
       match out with
       | Out1 _ => Raise TypeError
       | Out3 value dfdx dfdy =>
           value ← nd_add e value;
           px ← nd_row pder 1;
           dvdx ← nd_sub (nd_scale Qc_two dfdx) px;
           py ← nd_row pder 2;
           dvdy ← nd_sub (nd_scale Qc_two dfdy) py;
           Ok (Out3 value dvdx dvdy)
       end)) as Hd.
  { intros p1. unfold dao_value.
    change (tuple_get (np_shape psf) 1) with (Ok N).
    rewrite bind_Ok, Hedge, bind_Ok, He, bind_Ok. reflexivity. }
  split; [|split; [|split; [|split; [|split]]]].
  - apply Hd.
  - intros r' d'. unfold dao_value.
    change (tuple_get (np_shape (PArr (Nd2 r' N d'))) 1) with (Ok N).
    change (tuple_get (np_shape psf) 1) with (Ok N). reflexivity.
  - rewrite Hd. apply raises_bind_l. apply rinter_empty_str_raises.
  - unfold dao_value.
    change (tuple_get (np_shape psf) 1) with (Ok N).
    rewrite bind_Ok, Hedge, bind_Ok, He, bind_Ok. reflexivity.
  - intros psf1d'. reflexivity.
  - reflexivity.
Qed.

(** A sample at the centre of a 7 x 7 table, with the residual given both
    as the matrix [psf] and as the vector [psf1d]: with the derivatives the
    call interpolates [psf1d] and returns; without them it passes the
    matrix to [rinter], which takes 2, the integer square root of 7, as row
    stride and raises when it copies the matrix into a vector. *)
Lemma dao_value_table_consumed_witness :
  Forall (fun v => ~ off_table 7 v) (dao_rescale 7 <$> coords_all (CVec [0%Qc] [0%Qc]))
  /\ raises (dao_value example_daoerf (CVec [0%Qc] [0%Qc]) []
               (PArr (Nd2 7 7 (ramp 7))) PEmptyStr true true)
  /\ rinter_dims (PArr (Nd2 7 7 (ramp 7))) true = Ok [2; 2]%nat
  /\ is_ok (dao_value example_daoerf (CVec [0%Qc] [0%Qc]) []
              (PArr (Nd2 7 7 (ramp 7))) (PArr (Nd1 (ramp 7))) true true) = true
  /\ dao_value example_daoerf (CVec [0%Qc] [0%Qc]) []
       (PArr (Nd2 7 7 (ramp 7))) (PArr (Nd1 (ramp 7))) false true
     = Raise ValueError.
Proof.
  assert (Forall (fun v => ~ off_table 7 v)
            (dao_rescale 7 <$> coords_all (CVec [0%Qc] [0%Qc]))) as Hin.
  { repeat constructor; intros [H|H]; vm_compute in H; discriminate. }
  split; [exact Hin|].
  destruct (dao_value_table_consumed example_daoerf (CVec [0%Qc] [0%Qc]) [] 7 7 (ramp 7)
              (PArr (Nd1 (ramp 7))) (Nd1 [qc 1 2]) (Nd2 3 1 [qc 1 1; qc 2 1; qc 3 1]))
    as (_ & _ & Hr & _ & _ & Hs).
  - discriminate.
  - discriminate.
  - exact Hin.
  - reflexivity.
  - split; [exact Hr|]. split; [exact Hs|].
    split; vm_compute; reflexivity.
Defined.

(** * Further properties *)

From Stdlib Require Import Lqa Sorted.

Lemma row_value_ext (P P' : list Qc) (stride : Z) (s : Qc * Qc) (r : Z) :
  (forall o, -1 <= o <= 2 ->
     tab_at P (row_index stride s r + o) = tab_at P' (row_index stride s r + o)) ->
  row_value P stride s r = row_value P' stride s r
  /\ row_deriv P stride s r = row_deriv P' stride s r.
Proof.
  intros H. unfold row_value, row_deriv.
  pose proof (H (-1) ltac:(lia)) as H1. pose proof (H 0 ltac:(lia)) as H2.
  pose proof (H 1 ltac:(lia)) as H3. pose proof (H 2 ltac:(lia)) as H4.
  rewrite Z.add_0_r in H2.
  change (row_index stride s r + -1) with (row_index stride s r - 1) in H1.
  cbv zeta. by rewrite H1, H2, H3, H4.
Qed.

Lemma bicubic_ext (P P' : list Qc) (stride : Z) (s : Qc * Qc) :
  (forall r o, 0 <= r <= 3 -> -1 <= o <= 2 ->
     tab_at P (row_index stride s r + o) = tab_at P' (row_index stride s r + o)) ->
  bicubic P stride s = bicubic P' stride s
  /\ bicubic_dx P stride s = bicubic_dx P' stride s
  /\ bicubic_dy P stride s = bicubic_dy P' stride s.
Proof.
  intros H. unfold bicubic, bicubic_dx, bicubic_dy.
  destruct (row_value_ext P P' stride s 0 (fun o => H 0 o ltac:(lia))) as [-> ->].
  destruct (row_value_ext P P' stride s 1 (fun o => H 1 o ltac:(lia))) as [-> ->].
  destruct (row_value_ext P P' stride s 2 (fun o => H 2 o ltac:(lia))) as [-> ->].
  destruct (row_value_ext P P' stride s 3 (fun o => H 3 o ltac:(lia))) as [-> ->].
  done.
Qed.

Lemma table_ext_edge_read (l : list Qc) (mx k : Z) :
  l <> [] -> 0 <= mx -> -1 <= k <= mx + 2 ->
  tab_at (table_ext l mx) k = edge_read l k.
Proof.
  intros Hl Hmx Hk.
  assert (0 < length l)%nat as Hlen by (destruct l; [done|simpl; lia]).
  assert (default 0%Qc (last l) = default 0%Qc (l !! (length l - 1)%nat)) as Hlast.
  { by rewrite last_lookup, Nat.sub_1_r. }
  unfold edge_read, tab_at, table_ext, wrap.
  destruct (decide (mx > Z.of_nat (length l) - 3)) as [Hp|Hp].
  - rewrite length_app, length_replicate.
    destruct (decide (k < 0)) as [Hn|Hn].
    + rewrite decide_False by lia.
      rewrite lookup_app_r by lia. rewrite lookup_replicate_2 by lia. done.
    + destruct (decide (0 <= k < Z.of_nat (length l))).
      * by rewrite lookup_app_l by lia.
      * rewrite lookup_app_r by lia. by rewrite lookup_replicate_2 by lia.
  - destruct (decide (k < 0)) as [Hn|Hn].
    + rewrite decide_False by lia. rewrite Hlast. do 2 f_equal. lia.
    + by rewrite decide_True by lia.
Qed.

Lemma batch_table_edge_read (l : list Qc) (stride : Z) (ss : list (Qc * Qc))
    (s : Qc * Qc) (r o : Z) :
  l <> [] -> 0 <= stride ->
  Forall (fun s => 0 <= row_index stride s 0) ss ->
  s ∈ ss -> 0 <= r <= 3 -> -1 <= o <= 2 ->
  tab_at (batch_table l stride ss) (row_index stride s r + o)
  = edge_read l (row_index stride s r + o).
Proof.
  intros Hl Hst Hpos Hs Hr Ho.
  assert (ss <> []) as Hss by (intros ->; by apply elem_of_nil in Hs).
  destruct (needed_max stride ss Hst Hss Hpos) as (mx & Hmx & Hmx0 & Hall).
  unfold batch_table. rewrite Hmx.
  apply table_ext_edge_read; [done|done|].
  specialize (Hall s r Hs Hr). lia.
Qed.

Lemma bicubic_batch_indep (l : list Qc) (stride : Z) (ss ss' : list (Qc * Qc))
    (s : Qc * Qc) :
  l <> [] -> 0 <= stride ->
  Forall (fun s => 0 <= row_index stride s 0) ss ->
  Forall (fun s => 0 <= row_index stride s 0) ss' ->
  s ∈ ss -> s ∈ ss' ->
  bicubic (batch_table l stride ss) stride s = bicubic (batch_table l stride ss') stride s
  /\ bicubic_dx (batch_table l stride ss) stride s
     = bicubic_dx (batch_table l stride ss') stride s
  /\ bicubic_dy (batch_table l stride ss) stride s
     = bicubic_dy (batch_table l stride ss') stride s.
Proof.
  intros Hl Hst Hpos Hpos' Hs Hs'. apply bicubic_ext. intros r o Hr Ho.
  rewrite !batch_table_edge_read by done. done.
Qed.

Lemma fmap_ext_elem {A B} (f g : A -> B) (l : list A) :
  (forall a, a ∈ l -> f a = g a) -> f <$> l = g <$> l.
Proof.
  intros H. apply list_fmap_ext. intros i a Hi. apply H.
  by apply list_elem_of_lookup_2 in Hi.
Qed.

(** X1. The samples of a batch are independent: a call on the batch made
    of two batches returns, for the value and for the two derivatives, the
    results of the calls on the two batches one after the other. *)
Theorem rinter_batch_concat (p : pyobj) (ps1d : bool) (l : list Qc) (stride : nat)
    (ss1 ss2 : list (Qc * Qc)) (deriv : bool) :
  table_flat p ps1d = Some (l, stride) ->
  l <> [] -> ss1 <> [] -> ss2 <> [] ->
  Forall (fun s => 0 <= row_index (Z.of_nat stride) s 0) (ss1 ++ ss2) ->
  exists z1 dx1 dy1 z2 dx2 dy2,
    (rinter p (CVec ss1.*1 ss1.*2) deriv false ps1d).2
    = Ok (rinter_out deriv (Nd1 z1) (Nd1 dx1) (Nd1 dy1))
    /\ (rinter p (CVec ss2.*1 ss2.*2) deriv false ps1d).2
       = Ok (rinter_out deriv (Nd1 z2) (Nd1 dx2) (Nd1 dy2))
    /\ (rinter p (CVec (ss1 ++ ss2).*1 (ss1 ++ ss2).*2) deriv false ps1d).2
       = Ok (rinter_out deriv (Nd1 (z1 ++ z2)) (Nd1 (dx1 ++ dx2)) (Nd1 (dy1 ++ dy2)))
    /\ length z1 = length ss1 /\ length dx1 = length ss1 /\ length dy1 = length ss1.
Proof.
  intros Ht Hl H1 H2 Hpos.
  pose proof Hpos as Hpos'. apply Forall_app in Hpos' as [Hp1 Hp2].
  assert (ss1 ++ ss2 <> []) as H12 by (destruct ss1; done).
  assert (0 <= Z.of_nat stride) as Hst by lia.
  rewrite (rinter_vec_spec p ps1d l stride ss1 deriv Ht Hl H1 Hp1).
  rewrite (rinter_vec_spec p ps1d l stride ss2 deriv Ht Hl H2 Hp2).
  rewrite (rinter_vec_spec p ps1d l stride (ss1 ++ ss2) deriv Ht Hl H12 Hpos).
  eexists _, _, _, _, _, _.
  split; [reflexivity|]. split; [reflexivity|].
  split; [|by rewrite !length_fmap].
  assert (forall s, s ∈ ss1 -> s ∈ ss1 ++ ss2) as Hin1
    by (intros s Hs; apply elem_of_app; by left).
  assert (forall s, s ∈ ss2 -> s ∈ ss1 ++ ss2) as Hin2
    by (intros s Hs; apply elem_of_app; by right).
  pose proof (fun s (Hs : s ∈ ss1) =>
    bicubic_batch_indep l (Z.of_nat stride) ss1 (ss1 ++ ss2) s Hl Hst Hp1 Hpos Hs (Hin1 s Hs))
    as E1.
  pose proof (fun s (Hs : s ∈ ss2) =>
    bicubic_batch_indep l (Z.of_nat stride) ss2 (ss1 ++ ss2) s Hl Hst Hp2 Hpos Hs (Hin2 s Hs))
    as E2.
  cbn [snd]. rewrite !fmap_app.
  rewrite (fmap_ext_elem _ _ ss1 (fun s Hs => proj1 (E1 s Hs))).
  rewrite (fmap_ext_elem _ _ ss2 (fun s Hs => proj1 (E2 s Hs))).
  rewrite (fmap_ext_elem _ _ ss1 (fun s Hs => proj1 (proj2 (E1 s Hs)))).
  rewrite (fmap_ext_elem _ _ ss2 (fun s Hs => proj1 (proj2 (E2 s Hs)))).
  rewrite (fmap_ext_elem _ _ ss1 (fun s Hs => proj2 (proj2 (E1 s Hs)))).
  rewrite (fmap_ext_elem _ _ ss2 (fun s Hs => proj2 (proj2 (E2 s Hs)))).
  reflexivity.
Qed.

(** A 5 x 5 table passed as a vector; a batch of one node and a batch of
    two samples between nodes, one of them in the last cell. *)
Lemma rinter_batch_concat_witness :
  table_flat (PArr (Nd1 (ramp 5))) true = Some (ramp 5, 5%nat)
  /\ exists z1 dx1 dy1 z2 dx2 dy2,
       (rinter (PArr (Nd1 (ramp 5))) (CVec [qc 2 1] [qc 2 1]) true false true).2
       = Ok (rinter_out true (Nd1 z1) (Nd1 dx1) (Nd1 dy1))
       /\ (rinter (PArr (Nd1 (ramp 5)))
                  (CVec [qc 5 2; qc 7 2] [qc 3 2; qc 5 2]) true false true).2
          = Ok (rinter_out true (Nd1 z2) (Nd1 dx2) (Nd1 dy2))
       /\ (rinter (PArr (Nd1 (ramp 5)))
                  (CVec [qc 2 1; qc 5 2; qc 7 2] [qc 2 1; qc 3 2; qc 5 2])
                  true false true).2
          = Ok (rinter_out true (Nd1 (z1 ++ z2)) (Nd1 (dx1 ++ dx2)) (Nd1 (dy1 ++ dy2)))
       /\ length z1 = 1%nat /\ length dx1 = 1%nat /\ length dy1 = 1%nat.
Proof.
  split; [reflexivity|].
  apply (rinter_batch_concat (PArr (Nd1 (ramp 5))) true (ramp 5) 5
           [(qc 2 1, qc 2 1)] [(qc 5 2, qc 3 2); (qc 7 2, qc 5 2)] true).
  - reflexivity.
  - discriminate.
  - discriminate.
  - discriminate.
  - repeat constructor; vm_compute; discriminate.
Defined.

Lemma isqrt_square (N : nat) : isqrt (N * N) = N.
Proof.
  unfold isqrt. rewrite Nat2Z.inj_mul, Z.sqrt_square by lia. apply Nat2Z.id.
Qed.

(** X2. The two ways to pass a square table agree: for every N x N matrix,
    every coordinate argument and either value of [deriv], the call on the
    matrix with [ps1d] not set and the call on the flattened matrix with
    [ps1d] set return the same result, or raise the same exception. *)
Theorem rinter_matrix_as_vector (N : nat) (d : list Qc) (xy : coords) (deriv : bool) :
  length d = (N * N)%nat ->
  (rinter (PArr (Nd2 N N d)) xy deriv false false).2
  = (rinter (PArr (Nd1 d)) xy deriv false true).2.
Proof.
  intros Hd.
  assert (rinter_dims (PArr (Nd1 d)) true = Ok [N; N]) as Hdims.
  { unfold rinter_dims. cbn [py_len]. by rewrite bind_Ok, Hd, isqrt_square. }
  assert (rinter_table (PArr (Nd2 N N d)) false = Ok (PArr (Nd1 d))) as Htab.
  { unfold rinter_table, nd_reshape1. cbn [nd_data]. by rewrite decide_True. }
  unfold rinter.
  destruct (rinter_flatten xy) as [[flag f]|e]; [|done].
  rewrite Hdims.
  change (rinter_dims (PArr (Nd2 N N d)) false) with (Ok [N; N]).
  cbn [snd]. rewrite !bind_Ok. unfold rinter_body.
  rewrite Htab.
  change (rinter_table (PArr (Nd1 d)) true) with (Ok (PArr (Nd1 d))).
  reflexivity.
Qed.

(** A 5 x 5 table and a batch of two samples. *)
Lemma rinter_matrix_as_vector_witness :
  length (ramp 5) = (5 * 5)%nat
  /\ (rinter (PArr (Nd2 5 5 (ramp 5))) (CVec [qc 5 2; qc 2 1] [qc 3 2; qc 2 1])
             true false false).2
     = (rinter (PArr (Nd1 (ramp 5))) (CVec [qc 5 2; qc 2 1] [qc 3 2; qc 2 1])
               true false true).2.
Proof.
  split; [reflexivity|].
  apply (rinter_matrix_as_vector 5 (ramp 5)). reflexivity.
Defined.

(** X3. The derivatives: on a batch of samples whose neighbours are
    gathered, [rinter] returns for each sample, as [dfdx], the cubic in the
    fractional part of y of the derivatives of the four rows, where the
    derivative of a row is d*(3*(d*c3) + 2*c2) + c1 at the fractional part d
    of x, with the coefficients of the four neighbours in that row; and as
    [dfdy] the derivative d*(3*(d*c3) + 2*c2) + c1 at the fractional part d
    of y, with the coefficients of the four row values.  The value returned
    is the same with and without the derivatives. *)
Theorem rinter_derivatives_formula (p : pyobj) (ps1d : bool) (l : list Qc)
    (stride : nat) (ss : list (Qc * Qc)) :
  table_flat p ps1d = Some (l, stride) ->
  l <> [] -> ss <> [] ->
  Forall (fun s => 0 <= row_index (Z.of_nat stride) s 0) ss ->
  let P := batch_table l (Z.of_nat stride) ss in
  let c1 p_1 p0 p1 p2 := (Qc_half * (p1 - p_1))%Qc in
  let c2 p_1 p0 p1 p2 := (Qc_two * p1 + p_1 - Qc_half * (Qc_five * p0 + p2))%Qc in
  let c3 p_1 p0 p1 p2 := (Qc_half * (Qc_three * (p0 - p1) + p2 - p_1))%Qc in
  let horner4 p_1 p0 p1 p2 d :=
    (d * (d * (d * c3 p_1 p0 p1 p2 + c2 p_1 p0 p1 p2) + c1 p_1 p0 p1 p2) + p0)%Qc in
  let dhorner4 p_1 p0 p1 p2 d :=
    (d * (Qc_three * (d * c3 p_1 p0 p1 p2) + Qc_two * c2 p_1 p0 p1 p2)
     + c1 p_1 p0 p1 p2)%Qc in
  let row s r :=
    let k := row_index (Z.of_nat stride) s r in
    horner4 (tab_at P (k - 1)) (tab_at P k) (tab_at P (k + 1)) (tab_at P (k + 2))
            (frac s.1) in
  let drow s r :=
    let k := row_index (Z.of_nat stride) s r in
    dhorner4 (tab_at P (k - 1)) (tab_at P k) (tab_at P (k + 1)) (tab_at P (k + 2))
             (frac s.1) in
  exists z dfdx dfdy,
    (rinter p (CVec ss.*1 ss.*2) true false ps1d).2
    = Ok (Out3 (Nd1 z) (Nd1 dfdx) (Nd1 dfdy))
    /\ (rinter p (CVec ss.*1 ss.*2) false false ps1d).2 = Ok (Out1 (Nd1 z))
    /\ length dfdx = length ss /\ length dfdy = length ss
    /\ forall m s, ss !! m = Some s ->
         dfdx !! m
         = Some (horner4 (drow s 0) (drow s 1) (drow s 2) (drow s 3) (frac s.2))
         /\ dfdy !! m
            = Some (dhorner4 (row s 0) (row s 1) (row s 2) (row s 3) (frac s.2)).
Proof.
  intros Ht Hl Hss Hpos P c1 c2 c3 horner4 dhorner4 row drow.
  rewrite (rinter_vec_spec p ps1d l stride ss true Ht Hl Hss Hpos).
  rewrite (rinter_vec_spec p ps1d l stride ss false Ht Hl Hss Hpos).
  eexists _, _, _. split; [done|]. split; [done|].
  split; [by rewrite length_fmap|]. split; [by rewrite length_fmap|].
  intros m s Hm. rewrite !list_lookup_fmap, Hm. done.
Qed.

(** A 7 x 7 table passed as a matrix, and two samples between its nodes. *)
Lemma rinter_derivatives_formula_witness :
  table_flat (PArr (Nd2 7 7 (ramp 7))) false = Some (ramp 7, 7%nat)
  /\ exists z dfdx dfdy,
       (rinter (PArr (Nd2 7 7 (ramp 7)))
               (CVec [qc 7 2; qc 5 1] [qc 3 1; qc 9 4]) true false false).2
       = Ok (Out3 (Nd1 z) (Nd1 dfdx) (Nd1 dfdy))
       /\ (rinter (PArr (Nd2 7 7 (ramp 7)))
                  (CVec [qc 7 2; qc 5 1] [qc 3 1; qc 9 4]) false false false).2
          = Ok (Out1 (Nd1 z))
       /\ length dfdx = 2%nat /\ length dfdy = 2%nat.
Proof.
  split; [reflexivity|].
  destruct (rinter_derivatives_formula (PArr (Nd2 7 7 (ramp 7))) false (ramp 7) 7
              [(qc 7 2, qc 3 1); (qc 5 1, qc 9 4)])
    as (z & dfdx & dfdy & E & E' & Hx & Hy & _).
  - reflexivity.
  - discriminate.
  - discriminate.
  - repeat constructor; vm_compute; discriminate.
  - exists z, dfdx, dfdy. split; [exact E|]. split; [exact E'|]. split; [exact Hx|exact Hy].
Defined.

(** X4. A 2-D batch is the 1-D batch of its elements in row-major order:
    for coordinates given as two R x C arrays, [rinter] returns as value
    the R x C array of the values that it returns for the flattened
    coordinates, and the same two vectors of derivatives. *)
Theorem rinter_grid_as_vector (p : pyobj) (ps1d : bool) (l : list Qc) (stride : nat)
    (ss : list (Qc * Qc)) (R C : nat) (deriv : bool) :
  table_flat p ps1d = Some (l, stride) ->
  l <> [] -> ss <> [] ->
  length ss = (R * C)%nat ->
  Forall (fun s => 0 <= row_index (Z.of_nat stride) s 0) ss ->
  exists z dfdx dfdy,
    (rinter p (CVec ss.*1 ss.*2) deriv false ps1d).2
    = Ok (rinter_out deriv (Nd1 z) dfdx dfdy)
    /\ (rinter p (CGrid R C ss.*1 R C ss.*2) deriv false ps1d).2
       = Ok (rinter_out deriv (Nd2 R C z) dfdx dfdy)
    /\ length z = (R * C)%nat.
Proof.
  intros Ht Hl Hss Hlen Hpos.
  rewrite (rinter_vec_spec p ps1d l stride ss deriv Ht Hl Hss Hpos).
  rewrite (rinter_grid_spec p ps1d l stride ss R C R C deriv Ht Hl Hss Hlen Hlen Hpos).
  eexists _, _, _. split; [done|]. split; [done|].
  by rewrite length_fmap.
Qed.

(** A 7 x 7 table and a 2 x 2 batch. *)
Lemma rinter_grid_as_vector_witness :
  table_flat (PArr (Nd1 (ramp 7))) true = Some (ramp 7, 7%nat)
  /\ exists z dfdx dfdy,
       (rinter (PArr (Nd1 (ramp 7)))
               (CVec [qc 7 2; qc 5 1; qc 2 1; qc 9 2] [qc 3 1; qc 9 4; qc 2 1; qc 1 1])
               true false true).2
       = Ok (rinter_out true (Nd1 z) dfdx dfdy)
       /\ (rinter (PArr (Nd1 (ramp 7)))
                  (CGrid 2 2 [qc 7 2; qc 5 1; qc 2 1; qc 9 2]
                         2 2 [qc 3 1; qc 9 4; qc 2 1; qc 1 1])
                  true false true).2
          = Ok (rinter_out true (Nd2 2 2 z) dfdx dfdy)
       /\ length z = (2 * 2)%nat.
Proof.
  split; [reflexivity|].
  apply (rinter_grid_as_vector (PArr (Nd1 (ramp 7))) true (ramp 7) 7
           [(qc 7 2, qc 3 1); (qc 5 1, qc 9 4); (qc 2 1, qc 2 1); (qc 9 2, qc 1 1)]
           2 2 true).
  - reflexivity.
  - discriminate.
  - discriminate.
  - reflexivity.
  - repeat constructor; vm_compute; discriminate.
Defined.

(** ** Exactness on polynomials *)

Lemma Qc_two_eq : Qc_two = (1 + 1)%Qc.
Proof. apply Qc_is_canon. reflexivity. Qed.

Lemma Qc_three_eq : Qc_three = (1 + 1 + 1)%Qc.
Proof. apply Qc_is_canon. reflexivity. Qed.

Lemma Qc_five_eq : Qc_five = (1 + 1 + 1 + 1 + 1)%Qc.
Proof. apply Qc_is_canon. reflexivity. Qed.

Lemma Qc_half_eq : Qc_half = (/ (1 + 1))%Qc.
Proof. apply Qc_is_canon. reflexivity. Qed.

Lemma Qc_two_neq_0 : (1 + 1)%Qc <> 0%Qc.
Proof. intros H. by apply (f_equal Qc_trunc) in H. Qed.

Ltac qc_field :=
  rewrite ?Qc_two_eq, ?Qc_three_eq, ?Qc_five_eq, ?Qc_half_eq;
  field; try exact Qc_two_neq_0.

Lemma cubic_const (c d : Qc) : cubic c c c c d = c.
Proof. unfold cubic, cubic_c1, cubic_c2, cubic_c3. qc_field. Qed.

Lemma dcubic_const (c d : Qc) : dcubic c c c c d = 0%Qc.
Proof. unfold dcubic, cubic_c1, cubic_c2, cubic_c3. qc_field. Qed.

(** The cubic through the values of a polynomial of degree at most two at
    k - 1, k, k + 1, k + 2 is that polynomial. *)
Lemma cubic_poly2 (c : Qc * Qc * Qc) (k d : Qc) :
  cubic (poly2 c (k - 1)) (poly2 c k) (poly2 c (k + 1)) (poly2 c (k + 1 + 1)) d
  = poly2 c (k + d).
Proof. unfold cubic, cubic_c1, cubic_c2, cubic_c3, poly2. qc_field. Qed.

Lemma dcubic_poly2 (c : Qc * Qc * Qc) (k d : Qc) :
  dcubic (poly2 c (k - 1)) (poly2 c k) (poly2 c (k + 1)) (poly2 c (k + 1 + 1)) d
  = dpoly2 c (k + d).
Proof. unfold dcubic, cubic_c1, cubic_c2, cubic_c3, poly2, dpoly2. qc_field. Qed.

Lemma biquad_transpose (c0 c1 c2 : Qc * Qc * Qc) (x y : Qc) :
  biquad c0 c1 c2 x y
  = poly2 (poly2 (c0.1.1, c1.1.1, c2.1.1) y, poly2 (c0.1.2, c1.1.2, c2.1.2) y,
           poly2 (c0.2, c1.2, c2.2) y) x.
Proof. unfold biquad, poly2. simpl. ring. Qed.

Lemma biquad_dx_transpose (c0 c1 c2 : Qc * Qc * Qc) (x y : Qc) :
  biquad_dx c0 c1 c2 x y
  = dpoly2 (poly2 (c0.1.1, c1.1.1, c2.1.1) y, poly2 (c0.1.2, c1.1.2, c2.1.2) y,
            poly2 (c0.2, c1.2, c2.2) y) x.
Proof. unfold biquad_dx, poly2, dpoly2. simpl. ring. Qed.

Lemma frac_split (x : Qc) : (Qc_of_Z (Qc_trunc x) + frac x)%Qc = x.
Proof. unfold frac. ring. Qed.

Lemma Z2Qc_pred (i : Z) : Qc_of_Z (i + -1) = (Qc_of_Z i - 1)%Qc.
Proof. change (i + -1) with (i - 1). by rewrite Z2Qc_inj_sub, Z2Qc_inj_1. Qed.

Lemma Z2Qc_succ (i : Z) : Qc_of_Z (i + 1) = (Qc_of_Z i + 1)%Qc.
Proof. by rewrite Z2Qc_inj_add, Z2Qc_inj_1. Qed.

Lemma Z2Qc_succ2 (i : Z) : Qc_of_Z (i + 2) = (Qc_of_Z i + 1 + 1)%Qc.
Proof.
  rewrite Z2Qc_inj_add. change (Qc_of_Z 2) with Qc_two. rewrite Qc_two_eq. ring.
Qed.

Section Biquadratic.

Variables (l : list Qc) (N : nat) (c0 c1 c2 : Qc * Qc * Qc).
Variable ss : list (Qc * Qc).
Hypothesis Hlen : length l = (N * N)%nat.
Hypothesis Htab : forall col row : Z,
  0 <= col < Z.of_nat N -> 0 <= row < Z.of_nat N ->
  tab_at l (Z.of_nat N * row + col) = biquad c0 c1 c2 (Qc_of_Z col) (Qc_of_Z row).

Lemma biquad_read (s : Qc * Qc) (r o : Z) :
  1 <= Qc_trunc s.1 <= Z.of_nat N - 3 -> 1 <= Qc_trunc s.2 <= Z.of_nat N - 3 ->
  0 <= r <= 3 -> -1 <= o <= 2 ->
  tab_at (batch_table l (Z.of_nat N) ss) (row_index (Z.of_nat N) s r + o)
  = biquad c0 c1 c2 (Qc_of_Z (Qc_trunc s.1 + o)) (Qc_of_Z (Qc_trunc s.2 + (r - 1))).
Proof.
  intros Hi Hj Hr Ho.
  replace (row_index (Z.of_nat N) s r + o)
    with (Z.of_nat N * (Qc_trunc s.2 + (r - 1)) + (Qc_trunc s.1 + o))
    by (unfold row_index; lia).
  rewrite batch_table_tab_at by (rewrite Hlen; nia).
  apply Htab; lia.
Qed.

Lemma biquad_row (s : Qc * Qc) (r : Z) :
  1 <= Qc_trunc s.1 <= Z.of_nat N - 3 -> 1 <= Qc_trunc s.2 <= Z.of_nat N - 3 ->
  0 <= r <= 3 ->
  row_value (batch_table l (Z.of_nat N) ss) (Z.of_nat N) s r
  = biquad c0 c1 c2 s.1 (Qc_of_Z (Qc_trunc s.2 + (r - 1)))
  /\ row_deriv (batch_table l (Z.of_nat N) ss) (Z.of_nat N) s r
     = biquad_dx c0 c1 c2 s.1 (Qc_of_Z (Qc_trunc s.2 + (r - 1))).
Proof.
  intros Hi Hj Hr.
  pose proof (biquad_read s r (-1) Hi Hj Hr ltac:(lia)) as H1.
  pose proof (biquad_read s r 0 Hi Hj Hr ltac:(lia)) as H2.
  pose proof (biquad_read s r 1 Hi Hj Hr ltac:(lia)) as H3.
  pose proof (biquad_read s r 2 Hi Hj Hr ltac:(lia)) as H4.
  rewrite !Z.add_0_r in H2.
  change (row_index (Z.of_nat N) s r + -1) with (row_index (Z.of_nat N) s r - 1) in H1.
  rewrite Z2Qc_pred in H1. rewrite Z2Qc_succ in H3. rewrite Z2Qc_succ2 in H4.
  unfold row_value, row_deriv. cbv zeta. rewrite H1, H2, H3, H4.
  rewrite !biquad_transpose, cubic_poly2, dcubic_poly2, frac_split.
  by rewrite biquad_dx_transpose.
Qed.

Lemma biquad_sample (s : Qc * Qc) :
  1 <= Qc_trunc s.1 <= Z.of_nat N - 3 -> 1 <= Qc_trunc s.2 <= Z.of_nat N - 3 ->
  bicubic (batch_table l (Z.of_nat N) ss) (Z.of_nat N) s = biquad c0 c1 c2 s.1 s.2
  /\ bicubic_dx (batch_table l (Z.of_nat N) ss) (Z.of_nat N) s
     = biquad_dx c0 c1 c2 s.1 s.2
  /\ bicubic_dy (batch_table l (Z.of_nat N) ss) (Z.of_nat N) s
     = biquad_dy c0 c1 c2 s.1 s.2.
Proof.
  intros Hi Hj.
  destruct (biquad_row s 0 Hi Hj ltac:(lia)) as [V0 D0].
  destruct (biquad_row s 1 Hi Hj ltac:(lia)) as [V1 D1].
  destruct (biquad_row s 2 Hi Hj ltac:(lia)) as [V2 D2].
  destruct (biquad_row s 3 Hi Hj ltac:(lia)) as [V3 D3].
  change (0 - 1) with (-1) in *. change (1 - 1) with 0 in *.
  change (2 - 1) with 1 in *. change (3 - 1) with 2 in *.
  rewrite Z.add_0_r in V1, D1.
  rewrite Z2Qc_pred in V0, D0. rewrite Z2Qc_succ in V2, D2.
  rewrite Z2Qc_succ2 in V3, D3.
  unfold bicubic, bicubic_dx, bicubic_dy.
  rewrite V0, V1, V2, V3, D0, D1, D2, D3.
  unfold biquad, biquad_dx, biquad_dy.
  by rewrite !cubic_poly2, dcubic_poly2, frac_split.
Qed.

End Biquadratic.

Lemma ramp_tab_at (n k : Z) :
  0 <= k < n * n -> tab_at (ramp n) k = Qc_of_Z k.
Proof.
  intros Hk. rewrite tab_at_nonneg by lia. unfold ramp.
  rewrite list_lookup_fmap.
  rewrite (lookup_seqZ_lt 0 (n * n) (Z.to_nat k)) by lia.
  simpl. f_equal. lia.
Qed.



Lemma edge_read_replicate (n : nat) (c : Qc) (k : Z) :
  (0 < n)%nat -> edge_read (replicate n c) k = c.
Proof.
  intros Hn. unfold edge_read. rewrite length_replicate. case_decide.
  - rewrite tab_at_nonneg by lia. by rewrite lookup_replicate_2 by lia.
  - rewrite last_lookup, length_replicate. by rewrite lookup_replicate_2 by lia.
Qed.

Lemma bicubic_const (n : nat) (c : Qc) (stride : Z) (ss : list (Qc * Qc))
    (s : Qc * Qc) :
  (0 < n)%nat -> 0 <= stride ->
  Forall (fun s => 0 <= row_index stride s 0) ss -> s ∈ ss ->
  bicubic (batch_table (replicate n c) stride ss) stride s = c
  /\ bicubic_dx (batch_table (replicate n c) stride ss) stride s = 0%Qc
  /\ bicubic_dy (batch_table (replicate n c) stride ss) stride s = 0%Qc.
Proof.
  intros Hn Hst Hpos Hs.
  assert (replicate n c <> []) as Hl by (destruct n; [lia|done]).
  assert (forall r o, 0 <= r <= 3 -> -1 <= o <= 2 ->
            tab_at (batch_table (replicate n c) stride ss) (row_index stride s r + o) = c)
    as H.
  { intros r o Hr Ho. rewrite batch_table_edge_read by done.
    by apply edge_read_replicate. }
  assert (forall r, 0 <= r <= 3 ->
            row_value (batch_table (replicate n c) stride ss) stride s r = c
            /\ row_deriv (batch_table (replicate n c) stride ss) stride s r = 0%Qc) as Hrow.
  { intros r Hr.
    pose proof (H r (-1) Hr ltac:(lia)) as H1. pose proof (H r 0 Hr ltac:(lia)) as H2.
    pose proof (H r 1 Hr ltac:(lia)) as H3. pose proof (H r 2 Hr ltac:(lia)) as H4.
    rewrite Z.add_0_r in H2.
    change (row_index stride s r + -1) with (row_index stride s r - 1) in H1.
    unfold row_value, row_deriv. cbv zeta. rewrite H1, H2, H3, H4.
    by rewrite cubic_const, dcubic_const. }
  destruct (Hrow 0 ltac:(lia)) as [V0 D0]. destruct (Hrow 1 ltac:(lia)) as [V1 D1].
  destruct (Hrow 2 ltac:(lia)) as [V2 D2]. destruct (Hrow 3 ltac:(lia)) as [V3 D3].
  unfold bicubic, bicubic_dx, bicubic_dy.
  rewrite V0, V1, V2, V3, D0, D1, D2, D3.
  by rewrite !cubic_const, dcubic_const.
Qed.



(** ** The derivatives and difference quotients *)

Lemma Qc_eight_eq : Qc_of_Z 8 = ((1 + 1) * (1 + 1) * (1 + 1))%Qc.
Proof. apply Qc_is_canon. reflexivity. Qed.

Lemma Qc_twelve_eq : Qc_of_Z 12 = ((1 + 1) * (1 + 1) * (1 + 1 + 1))%Qc.
Proof. apply Qc_is_canon. reflexivity. Qed.

(** The five-point difference quotient of a cubic is its derivative. *)
Lemma cubic_five_point (p_1 p0 p1 p2 d h : Qc) :
  (Qc_of_Z 12 * h * dcubic p_1 p0 p1 p2 d
   = Qc_of_Z 8 * (cubic p_1 p0 p1 p2 (d + h) - cubic p_1 p0 p1 p2 (d - h))
     - (cubic p_1 p0 p1 p2 (d + Qc_two * h) - cubic p_1 p0 p1 p2 (d - Qc_two * h)))%Qc.
Proof.
  unfold cubic, dcubic, cubic_c1, cubic_c2, cubic_c3.
  rewrite Qc_eight_eq, Qc_twelve_eq. qc_field.
Qed.

Lemma frac_same_cell (x x' : Qc) :
  Qc_trunc x' = Qc_trunc x -> frac x' = (frac x + (x' - x))%Qc.
Proof. intros H. unfold frac. rewrite H. ring. Qed.

Lemma bicubic_five_point_x (P : list Qc) (stride : Z) (x y h : Qc) :
  Qc_trunc (x - Qc_two * h) = Qc_trunc x -> Qc_trunc (x - h) = Qc_trunc x ->
  Qc_trunc (x + h) = Qc_trunc x -> Qc_trunc (x + Qc_two * h) = Qc_trunc x ->
  (Qc_of_Z 12 * h * bicubic_dx P stride (x, y)
   = Qc_of_Z 8 * (bicubic P stride (x + h, y) - bicubic P stride (x - h, y))
     - (bicubic P stride (x + Qc_two * h, y) - bicubic P stride (x - Qc_two * h, y)))%Qc.
Proof.
  intros H1 H2 H3 H4.
  unfold bicubic, bicubic_dx, row_value, row_deriv, row_index. cbn [fst snd].
  rewrite (frac_same_cell x _ H1), (frac_same_cell x _ H2),
    (frac_same_cell x _ H3), (frac_same_cell x _ H4).
  rewrite H1, H2, H3, H4.
  generalize (frac x) (frac y).
  generalize (stride * (Qc_trunc y - 1) + Qc_trunc x + 0 * stride).
  generalize (stride * (Qc_trunc y - 1) + Qc_trunc x + 1 * stride).
  generalize (stride * (Qc_trunc y - 1) + Qc_trunc x + 2 * stride).
  generalize (stride * (Qc_trunc y - 1) + Qc_trunc x + 3 * stride).
  intros k3 k2 k1 k0 dx dy.
  unfold cubic, dcubic, cubic_c1, cubic_c2, cubic_c3.
  rewrite Qc_eight_eq, Qc_twelve_eq. qc_field.
Qed.

Lemma bicubic_five_point_y (P : list Qc) (stride : Z) (x y h : Qc) :
  Qc_trunc (y - Qc_two * h) = Qc_trunc y -> Qc_trunc (y - h) = Qc_trunc y ->
  Qc_trunc (y + h) = Qc_trunc y -> Qc_trunc (y + Qc_two * h) = Qc_trunc y ->
  (Qc_of_Z 12 * h * bicubic_dy P stride (x, y)
   = Qc_of_Z 8 * (bicubic P stride (x, y + h) - bicubic P stride (x, y - h))
     - (bicubic P stride (x, y + Qc_two * h) - bicubic P stride (x, y - Qc_two * h)))%Qc.
Proof.
  intros H1 H2 H3 H4.
  unfold bicubic, bicubic_dy, row_value, row_index. cbn [fst snd].
  rewrite (frac_same_cell y _ H1), (frac_same_cell y _ H2),
    (frac_same_cell y _ H3), (frac_same_cell y _ H4).
  rewrite H1, H2, H3, H4.
  replace (y - Qc_two * h - y)%Qc with (- (Qc_two * h))%Qc by ring.
  replace (y - h - y)%Qc with (- h)%Qc by ring.
  replace (y + h - y)%Qc with h by ring.
  replace (y + Qc_two * h - y)%Qc with (Qc_two * h)%Qc by ring.
  rewrite cubic_five_point. reflexivity.
Qed.





(** ** Arguments that are rejected *)

(** X9. An empty batch is rejected: for every table that [rinter] reads as
    a vector with a row stride, the call on two empty coordinate vectors
    raises ValueError, the exception of [max] on the empty array of needed
    subscripts (line 134). *)
Theorem rinter_empty_batch_raises (p : pyobj) (ps1d : bool) (l : list Qc)
    (stride : nat) (deriv : bool) :
  table_flat p ps1d = Some (l, stride) ->
  rinter p (CVec [] []) deriv false ps1d = (p, Raise ValueError).
Proof.
  intros Ht. destruct (table_flat_dims p ps1d l stride Ht) as [[c0 Hc] Htab].
  unfold rinter. cbn [rinter_flatten]. rewrite Hc. cbn [snd].
  rewrite bind_Ok. unfold rinter_body.
  change (tuple_get [c0; stride] 1) with (Ok stride). rewrite bind_Ok.
  cbn [fmap list_fmap]. change (zbroadcast Z.add [] []) with (Ok (@nil Z)).
  rewrite bind_Ok, Htab, bind_Ok. reflexivity.
Qed.

Lemma rinter_empty_batch_raises_witness :
  table_flat (PArr (Nd2 5 5 (ramp 5))) false = Some (ramp 5, 5%nat)
  /\ rinter (PArr (Nd2 5 5 (ramp 5))) (CVec [] []) true false false
     = (PArr (Nd2 5 5 (ramp 5)), Raise ValueError).
Proof.
  split; [reflexivity|].
  apply (rinter_empty_batch_raises (PArr (Nd2 5 5 (ramp 5))) false (ramp 5) 5 true).
  reflexivity.
Defined.

(** X10. Coordinate vectors of different lengths, neither of length one,
    are rejected: the call raises ValueError, the exception of the
    broadcast of [c[1]*(j-1)] with [i] (line 120); the length of [x] or [y]
    alone is not checked. *)
Theorem rinter_length_mismatch_raises (p : pyobj) (ps1d : bool) (l : list Qc)
    (stride : nat) (xs ys : list Qc) (deriv : bool) :
  table_flat p ps1d = Some (l, stride) ->
  length xs <> length ys -> length xs <> 1%nat -> length ys <> 1%nat ->
  rinter p (CVec xs ys) deriv false ps1d = (p, Raise ValueError).
Proof.
  intros Ht Hxy Hx Hy. destruct (table_flat_dims p ps1d l stride Ht) as [[c0 Hc] Htab].
  unfold rinter. cbn [rinter_flatten]. rewrite Hc. cbn [snd].
  rewrite bind_Ok. unfold rinter_body.
  change (tuple_get [c0; stride] 1) with (Ok stride). rewrite bind_Ok.
  unfold zbroadcast, bdim. rewrite !length_fmap.
  rewrite !decide_False by (done || by apply not_eq_sym).
  reflexivity.
Qed.

Lemma rinter_length_mismatch_raises_witness :
  table_flat (PArr (Nd1 (ramp 5))) true = Some (ramp 5, 5%nat)
  /\ rinter (PArr (Nd1 (ramp 5))) (CVec [qc 2 1; qc 2 1; qc 2 1] [qc 2 1; qc 2 1])
            true false true
     = (PArr (Nd1 (ramp 5)), Raise ValueError).
Proof.
  split; [reflexivity|].
  apply (rinter_length_mismatch_raises (PArr (Nd1 (ramp 5))) true (ramp 5) 5
           [qc 2 1; qc 2 1; qc 2 1] [qc 2 1; qc 2 1] true).
  - reflexivity.
  - simpl; lia.
  - simpl; lia.
  - simpl; lia.
Defined.

(** X11. With [ps1d] not set the table must be a matrix: for every table
    whose shape has not two dimensions (a vector, a scalar, the empty
    string) and all coordinate vectors, the call raises IndexError at
    [c[1]] (line 103 with [initialize], line 120 without), and the table is
    as before. *)
Theorem rinter_table_not_matrix_raises (p : pyobj) (xs ys : list Qc)
    (deriv initialize : bool) :
  length (np_shape p) <> 2%nat ->
  rinter p (CVec xs ys) deriv initialize false = (p, Raise IndexError).
Proof.
  intros Hp.
  assert (tuple_get (np_shape p) 1 = Raise IndexError) as Hc.
  { destruct p as [|[v|l|r c d]]; try done. }
  unfold rinter. cbn [rinter_flatten rinter_dims].
  destruct initialize.
  - unfold rinter_init. rewrite Hc. reflexivity.
  - cbn [snd]. rewrite bind_Ok. unfold rinter_body. rewrite Hc. reflexivity.
Qed.

Lemma rinter_table_not_matrix_raises_witness :
  length (np_shape (PArr (Nd1 (ramp 5)))) <> 2%nat
  /\ rinter (PArr (Nd1 (ramp 5))) (CVec [qc 2 1] [qc 2 1]) true false false
     = (PArr (Nd1 (ramp 5)), Raise IndexError).
Proof.
  split; [simpl; lia|].
  apply (rinter_table_not_matrix_raises (PArr (Nd1 (ramp 5))) [qc 2 1] [qc 2 1]
           true false).
  simpl; lia.
Defined.

(** ** Linearity in the table *)

Lemma cubic_lincomb (a b : Qc) (p_1 p0 p1 p2 q_1 q0 q1 q2 d : Qc) :
  cubic (lincomb a b p_1 q_1) (lincomb a b p0 q0) (lincomb a b p1 q1)
        (lincomb a b p2 q2) d
  = lincomb a b (cubic p_1 p0 p1 p2 d) (cubic q_1 q0 q1 q2 d).
Proof. unfold lincomb, cubic, cubic_c1, cubic_c2, cubic_c3. qc_field. Qed.

Lemma dcubic_lincomb (a b : Qc) (p_1 p0 p1 p2 q_1 q0 q1 q2 d : Qc) :
  dcubic (lincomb a b p_1 q_1) (lincomb a b p0 q0) (lincomb a b p1 q1)
         (lincomb a b p2 q2) d
  = lincomb a b (dcubic p_1 p0 p1 p2 d) (dcubic q_1 q0 q1 q2 d).
Proof. unfold lincomb, dcubic, cubic_c1, cubic_c2, cubic_c3. qc_field. Qed.

Lemma edge_read_lincomb (a b : Qc) (l1 l2 : list Qc) (k : Z) :
  length l1 = length l2 ->
  edge_read (zip_with (lincomb a b) l1 l2) k
  = lincomb a b (edge_read l1 k) (edge_read l2 k).
Proof.
  intros Hlen.
  assert (forall i, default 0%Qc (zip_with (lincomb a b) l1 l2 !! i)
                    = lincomb a b (default 0%Qc (l1 !! i)) (default 0%Qc (l2 !! i)))
    as Hlk.
  { intros i. rewrite lookup_zip_with.
    destruct (l1 !! i) as [u|] eqn:E1; destruct (l2 !! i) as [v|] eqn:E2; simpl.
    - done.
    - apply lookup_lt_Some in E1. apply lookup_ge_None in E2. lia.
    - apply lookup_lt_Some in E2. apply lookup_ge_None in E1. lia.
    - unfold lincomb. ring. }
  unfold edge_read. rewrite length_zip_with, <- Hlen, Nat.min_id.
  case_decide.
  - rewrite !tab_at_nonneg by lia. apply Hlk.
  - rewrite !last_lookup, length_zip_with, <- Hlen, Nat.min_id. apply Hlk.
Qed.

Lemma bicubic_lincomb (a b : Qc) (P P1 P2 : list Qc) (stride : Z) (s : Qc * Qc) :
  (forall r o, 0 <= r <= 3 -> -1 <= o <= 2 ->
     tab_at P (row_index stride s r + o)
     = lincomb a b (tab_at P1 (row_index stride s r + o))
                   (tab_at P2 (row_index stride s r + o))) ->
  bicubic P stride s = lincomb a b (bicubic P1 stride s) (bicubic P2 stride s)
  /\ bicubic_dx P stride s
     = lincomb a b (bicubic_dx P1 stride s) (bicubic_dx P2 stride s)
  /\ bicubic_dy P stride s
     = lincomb a b (bicubic_dy P1 stride s) (bicubic_dy P2 stride s).
Proof.
  intros H.
  assert (forall r, 0 <= r <= 3 ->
            row_value P stride s r
            = lincomb a b (row_value P1 stride s r) (row_value P2 stride s r)
            /\ row_deriv P stride s r
               = lincomb a b (row_deriv P1 stride s r) (row_deriv P2 stride s r)) as Hrow.
  { intros r Hr.
    pose proof (H r (-1) Hr ltac:(lia)) as H1. pose proof (H r 0 Hr ltac:(lia)) as H2.
    pose proof (H r 1 Hr ltac:(lia)) as H3. pose proof (H r 2 Hr ltac:(lia)) as H4.
    rewrite !Z.add_0_r in H2.
    change (row_index stride s r + -1) with (row_index stride s r - 1) in H1.
    unfold row_value, row_deriv. cbv zeta. rewrite H1, H2, H3, H4.
    by rewrite cubic_lincomb, dcubic_lincomb. }
  destruct (Hrow 0 ltac:(lia)) as [V0 D0]. destruct (Hrow 1 ltac:(lia)) as [V1 D1].
  destruct (Hrow 2 ltac:(lia)) as [V2 D2]. destruct (Hrow 3 ltac:(lia)) as [V3 D3].
  unfold bicubic, bicubic_dx, bicubic_dy.
  rewrite V0, V1, V2, V3, D0, D1, D2, D3.
  by rewrite !cubic_lincomb, dcubic_lincomb.
Qed.



(** ** Symmetry in x and y *)

(** The cubic along x of four cubics along y is the cubic along y of four
    cubics along x; likewise with one of the two differentiated. *)
Lemma cubic_cubic_swap
    (a00 a01 a02 a03 a10 a11 a12 a13 a20 a21 a22 a23 a30 a31 a32 a33 dx dy : Qc) :
  cubic (cubic a00 a01 a02 a03 dx) (cubic a10 a11 a12 a13 dx)
        (cubic a20 a21 a22 a23 dx) (cubic a30 a31 a32 a33 dx) dy
  = cubic (cubic a00 a10 a20 a30 dy) (cubic a01 a11 a21 a31 dy)
          (cubic a02 a12 a22 a32 dy) (cubic a03 a13 a23 a33 dy) dx.
Proof. unfold cubic, cubic_c1, cubic_c2, cubic_c3. qc_field. Qed.

Lemma cubic_dcubic_swap
    (a00 a01 a02 a03 a10 a11 a12 a13 a20 a21 a22 a23 a30 a31 a32 a33 dx dy : Qc) :
  cubic (dcubic a00 a01 a02 a03 dx) (dcubic a10 a11 a12 a13 dx)
        (dcubic a20 a21 a22 a23 dx) (dcubic a30 a31 a32 a33 dx) dy
  = dcubic (cubic a00 a10 a20 a30 dy) (cubic a01 a11 a21 a31 dy)
           (cubic a02 a12 a22 a32 dy) (cubic a03 a13 a23 a33 dy) dx.
Proof. unfold cubic, dcubic, cubic_c1, cubic_c2, cubic_c3. qc_field. Qed.

Section Interior.

Variables (l : list Qc) (N : nat) (ss : list (Qc * Qc)) (g : Z -> Z -> Qc).
Hypothesis Hlen : length l = (N * N)%nat.
Hypothesis Hg : forall col row : Z,
  0 <= col < Z.of_nat N -> 0 <= row < Z.of_nat N ->
  tab_at l (Z.of_nat N * row + col) = g col row.

Lemma interior_read (s : Qc * Qc) (r o : Z) :
  1 <= Qc_trunc s.1 <= Z.of_nat N - 3 -> 1 <= Qc_trunc s.2 <= Z.of_nat N - 3 ->
  0 <= r <= 3 -> -1 <= o <= 2 ->
  tab_at (batch_table l (Z.of_nat N) ss) (row_index (Z.of_nat N) s r + o)
  = g (Qc_trunc s.1 + o) (Qc_trunc s.2 + (r - 1)).
Proof.
  intros Hi Hj Hr Ho.
  replace (row_index (Z.of_nat N) s r + o)
    with (Z.of_nat N * (Qc_trunc s.2 + (r - 1)) + (Qc_trunc s.1 + o))
    by (unfold row_index; lia).
  rewrite batch_table_tab_at by (rewrite Hlen; nia).
  apply Hg; lia.
Qed.

Lemma interior_row (s : Qc * Qc) (r : Z) :
  1 <= Qc_trunc s.1 <= Z.of_nat N - 3 -> 1 <= Qc_trunc s.2 <= Z.of_nat N - 3 ->
  0 <= r <= 3 ->
  let i := Qc_trunc s.1 in
  let j := Qc_trunc s.2 + (r - 1) in
  row_value (batch_table l (Z.of_nat N) ss) (Z.of_nat N) s r
  = cubic (g (i + -1) j) (g i j) (g (i + 1) j) (g (i + 2) j) (frac s.1)
  /\ row_deriv (batch_table l (Z.of_nat N) ss) (Z.of_nat N) s r
     = dcubic (g (i + -1) j) (g i j) (g (i + 1) j) (g (i + 2) j) (frac s.1).
Proof.
  intros Hi Hj Hr i j.
  pose proof (interior_read s r (-1) Hi Hj Hr ltac:(lia)) as H1.
  pose proof (interior_read s r 0 Hi Hj Hr ltac:(lia)) as H2.
  pose proof (interior_read s r 1 Hi Hj Hr ltac:(lia)) as H3.
  pose proof (interior_read s r 2 Hi Hj Hr ltac:(lia)) as H4.
  rewrite !Z.add_0_r in H2.
  change (row_index (Z.of_nat N) s r + -1) with (row_index (Z.of_nat N) s r - 1) in H1.
  unfold row_value, row_deriv. cbv zeta. by rewrite H1, H2, H3, H4.
Qed.

Lemma interior_sample (s : Qc * Qc) :
  1 <= Qc_trunc s.1 <= Z.of_nat N - 3 -> 1 <= Qc_trunc s.2 <= Z.of_nat N - 3 ->
  let i := Qc_trunc s.1 in
  let j := Qc_trunc s.2 in
  let row (f : Qc -> Qc -> Qc -> Qc -> Qc -> Qc) (j : Z) :=
    f (g (i + -1) j) (g i j) (g (i + 1) j) (g (i + 2) j) (frac s.1) in
  bicubic (batch_table l (Z.of_nat N) ss) (Z.of_nat N) s
  = cubic (row cubic (j + -1)) (row cubic j) (row cubic (j + 1)) (row cubic (j + 2))
          (frac s.2)
  /\ bicubic_dx (batch_table l (Z.of_nat N) ss) (Z.of_nat N) s
     = cubic (row dcubic (j + -1)) (row dcubic j) (row dcubic (j + 1))
             (row dcubic (j + 2)) (frac s.2)
  /\ bicubic_dy (batch_table l (Z.of_nat N) ss) (Z.of_nat N) s
     = dcubic (row cubic (j + -1)) (row cubic j) (row cubic (j + 1))
              (row cubic (j + 2)) (frac s.2).
Proof.
  intros Hi Hj i j row.
  destruct (interior_row s 0 Hi Hj ltac:(lia)) as [V0 D0].
  destruct (interior_row s 1 Hi Hj ltac:(lia)) as [V1 D1].
  destruct (interior_row s 2 Hi Hj ltac:(lia)) as [V2 D2].
  destruct (interior_row s 3 Hi Hj ltac:(lia)) as [V3 D3].
  change (0 - 1) with (-1) in *. change (1 - 1) with 0 in *.
  change (2 - 1) with 1 in *. change (3 - 1) with 2 in *.
  rewrite !Z.add_0_r in V1, D1.
  unfold bicubic, bicubic_dx, bicubic_dy.
  by rewrite V0, V1, V2, V3, D0, D1, D2, D3.
Qed.

End Interior.


Lemma tab_at_transposed (n : Z) (l : list Qc) (col row : Z) :
  0 <= col < n -> 0 <= row < n ->
  tab_at (transposed n l) (n * col + row) = tab_at l (n * row + col).
Proof.
  intros Hc Hr. rewrite tab_at_nonneg by nia. unfold transposed.
  rewrite list_lookup_fmap.
  rewrite (lookup_seqZ_lt 0 (n * n) (Z.to_nat (n * col + row))) by nia.
  cbn [default from_option fmap option_fmap option_map]. rewrite Z.add_0_l, Z2Nat.id by nia.
  replace ((n * col + row) mod n) with row.
  2:{ rewrite Z.add_comm, Z.mul_comm, Z_mod_plus_full. symmetry. by apply Z.mod_small. }
  replace ((n * col + row) / n) with col.
  2:{ rewrite Z.add_comm, Z.mul_comm, Z_div_plus_full by lia.
      rewrite Z.div_small by lia. lia. }
  reflexivity.
Qed.


(** ** [dao_value] with the table passed as a matrix *)

Lemma nd_op_Nd2 f (r c : nat) (a b : list Qc) :
  nd_op f (Nd2 r c a) (Nd2 r c b) = Ok (Nd2 r c (zip_with f a b)).
Proof.
  unfold nd_op. cbn [nd_dims nd_rank nd_shape length].
  rewrite !bdim_same, !bind_Ok. unfold broadcast_to. cbn [nd_dims nd_data].
  rewrite !decide_True by tauto. reflexivity.
Qed.

(** X14. [dao_value] with [ps1d] not set and coordinates given as two
    R x C arrays, none of them off the table: the residual matrix [psf]
    is interpolated with its number of columns as row stride; the value
    returned is the R x C array e + interp, where the values e of the
    Gaussian evaluator are reshaped to R x C, and the derivatives returned
    are the vectors 2*dfdx - pder[1,:] and 2*dfdy - pder[2,:] of R*C
    elements; without [deriv] the value alone is returned. *)
Theorem dao_value_matrix_grid (daoerf : coords -> list Qc -> res (ndarray * ndarray))
    (ss : list (Qc * Qc)) (gauss : list Qc) (r N R C : nat) (d pd : list Qc)
    (e : ndarray) (psf1d : pyobj) :
  let M := length ss in
  let xy := CGrid R C ss.*1 R C ss.*2 in
  let gs := (fun s => (dao_rescale N s.1, dao_rescale N s.2)) <$> ss in
  let P := batch_table d (Z.of_nat N) gs in
  let value := Nd2 R C (zip_with Qcplus (nd_data e) (bicubic P (Z.of_nat N) <$> gs)) in
  ss <> [] -> d <> [] -> length d = (r * N)%nat -> M = (R * C)%nat ->
  Forall (fun g => ~ off_table N g) (dao_rescale N <$> coords_all xy) ->
  daoerf xy gauss = Ok (e, Nd2 3 M pd) ->
  length (nd_data e) = M -> length pd = (3 * M)%nat ->
  dao_value daoerf xy gauss (PArr (Nd2 r N d)) psf1d true false
  = Ok (Out3 value
          (Nd1 (zip_with Qcminus
                  ((fun s => Qc_two * bicubic_dx P (Z.of_nat N) s)%Qc <$> gs)
                  (take M (drop M pd))))
          (Nd1 (zip_with Qcminus
                  ((fun s => Qc_two * bicubic_dy P (Z.of_nat N) s)%Qc <$> gs)
                  (take M (drop (2 * M) pd)))))
  /\ dao_value daoerf xy gauss (PArr (Nd2 r N d)) psf1d false false
     = Ok (Out1 value).
Proof.
  intros M xy gs P value Hss Hd Hlen HM Hin He Hel Hpd.
  assert (nd_data (coords_x xy) <> []) as Hx by (unfold xy; simpl; by destruct ss).
  assert (nd_data (coords_y xy) <> []) as Hy by (unfold xy; simpl; by destruct ss).
  pose proof (dao_edge_in_range xy N Hx Hy Hin) as Hedge.
  assert (coords_map (dao_rescale N) xy = CGrid R C gs.*1 R C gs.*2) as Hg.
  { unfold xy, gs. simpl. by rewrite <- !list_fmap_compose. }
  assert (gs <> []) as Hgs by (unfold gs; by destruct ss).
  assert (length gs = M) as HgM by (unfold gs; by rewrite length_fmap).
  assert (table_flat (PArr (Nd2 r N d)) false = Some (d, N)) as Ht.
  { unfold table_flat. by rewrite decide_True. }
  assert (Forall (fun s => 0 <= row_index (Z.of_nat N) s 0) gs) as Hpos.
  { apply in_range_rows. exact Hin. }
  assert (forall z, nd_reshape2 e R C ≫= (fun e' => nd_add e' (Nd2 R C z))
                    = Ok (Nd2 R C (zip_with Qcplus (nd_data e) z))) as Hadd.
  { intros z. unfold nd_reshape2. rewrite decide_True by lia.
    rewrite bind_Ok. apply nd_op_Nd2. }
  split.
  - unfold dao_value.
    change (tuple_get (np_shape (PArr (Nd2 r N d))) 1) with (Ok N).
    rewrite bind_Ok, Hedge, bind_Ok, He, bind_Ok, Hg.
    rewrite (rinter_grid_spec (PArr (Nd2 r N d)) false d N gs R C R C true Ht Hd Hgs)
      by (done || lia).
    cbn [snd rinter_out]. rewrite bind_Ok.
    cbn [nd_shape].
    change (tuple_get [R; C] 0) with (Ok R). change (tuple_get [R; C] 1) with (Ok C).
    rewrite !bind_Ok, Hadd, bind_Ok.
    rewrite (nd_row_Nd2 3 M pd 1), (nd_row_Nd2 3 M pd 2) by lia.
    rewrite !bind_Ok, !nd_scale_fmap. unfold nd_sub.
    rewrite nd_op_Nd1 by (rewrite length_fmap, length_take, length_drop; lia).
    rewrite !bind_Ok.
    rewrite nd_op_Nd1 by (rewrite length_fmap, length_take, length_drop; lia).
    rewrite !bind_Ok.
    replace (1 * M)%nat with M by lia. reflexivity.
  - unfold dao_value.
    change (tuple_get (np_shape (PArr (Nd2 r N d))) 1) with (Ok N).
    rewrite bind_Ok, Hedge, bind_Ok, He, bind_Ok, Hg.
    rewrite (rinter_grid_spec (PArr (Nd2 r N d)) false d N gs R C R C false Ht Hd Hgs)
      by (done || lia).
    cbn [snd rinter_out]. rewrite bind_Ok.
    cbn [nd_shape].
    change (tuple_get [R; C] 0) with (Ok R). change (tuple_get [R; C] 1) with (Ok C).
    rewrite !bind_Ok. unfold nd_reshape2. rewrite decide_True by lia.
    rewrite bind_Ok. cbn [nd_data]. unfold nd_add.
    rewrite nd_op_Nd2, bind_Ok. reflexivity.
Qed.

(** A 7 x 7 residual matrix and the 1 x 1 batch of the centre of the
    table. *)
Lemma dao_value_matrix_grid_witness :
  Forall (fun g => ~ off_table 7 g)
         (dao_rescale 7 <$> coords_all (CGrid 1 1 [0%Qc] 1 1 [0%Qc]))
  /\ exists v dvdx dvdy,
       dao_value example_daoerf (CGrid 1 1 [0%Qc] 1 1 [0%Qc]) []
                 (PArr (Nd2 7 7 (ramp 7))) PEmptyStr true false
       = Ok (Out3 (Nd2 1 1 [v]) (Nd1 [dvdx]) (Nd1 [dvdy]))
       /\ dao_value example_daoerf (CGrid 1 1 [0%Qc] 1 1 [0%Qc]) []
                    (PArr (Nd2 7 7 (ramp 7))) PEmptyStr false false
          = Ok (Out1 (Nd2 1 1 [v])).
Proof.
  assert (Forall (fun g => ~ off_table 7 g)
            (dao_rescale 7 <$> coords_all (CGrid 1 1 [0%Qc] 1 1 [0%Qc]))) as Hin.
  { repeat constructor; intros [H|H]; vm_compute in H; discriminate. }
  split; [exact Hin|].
  destruct (dao_value_matrix_grid example_daoerf [(0%Qc, 0%Qc)] [] 7 7 1 1 (ramp 7)
              [qc 1 1; qc 2 1; qc 3 1] (Nd1 [qc 1 2]) PEmptyStr) as [E1 E2].
  - discriminate.
  - discriminate.
  - reflexivity.
  - reflexivity.
  - exact Hin.
  - reflexivity.
  - reflexivity.
  - reflexivity.
  - eexists _, _, _. split; [exact E1|exact E2].
Defined.

(** X15. [dao_value] with [ps1d] not set needs 2-D coordinates: for
    coordinates given as two vectors, none of them off the table, the
    residual matrix is interpolated and the call then raises IndexError at
    [np.shape(value)[1]], with and without [deriv]. *)
Theorem dao_value_matrix_vector_raises
    (daoerf : coords -> list Qc -> res (ndarray * ndarray))
    (ss : list (Qc * Qc)) (gauss : list Qc) (r N : nat) (d : list Qc)
    (e pder : ndarray) (psf1d : pyobj) (deriv : bool) :
  let xy := CVec ss.*1 ss.*2 in
  ss <> [] -> d <> [] -> length d = (r * N)%nat ->
  Forall (fun g => ~ off_table N g) (dao_rescale N <$> coords_all xy) ->
  daoerf xy gauss = Ok (e, pder) ->
  dao_value daoerf xy gauss (PArr (Nd2 r N d)) psf1d deriv false = Raise IndexError.
Proof.
  intros xy Hss Hd Hlen Hin He.
  assert (nd_data (coords_x xy) <> []) as Hx by (unfold xy; simpl; by destruct ss).
  assert (nd_data (coords_y xy) <> []) as Hy by (unfold xy; simpl; by destruct ss).
  pose proof (dao_edge_in_range xy N Hx Hy Hin) as Hedge.
  set (gs := (fun s => (dao_rescale N s.1, dao_rescale N s.2)) <$> ss).
  assert (coords_map (dao_rescale N) xy = CVec gs.*1 gs.*2) as Hg.
  { unfold xy, gs. simpl. by rewrite <- !list_fmap_compose. }
  assert (gs <> []) as Hgs by (unfold gs; by destruct ss).
  assert (table_flat (PArr (Nd2 r N d)) false = Some (d, N)) as Ht.
  { unfold table_flat. by rewrite decide_True. }
  assert (Forall (fun s => 0 <= row_index (Z.of_nat N) s 0) gs) as Hpos.
  { apply in_range_rows. exact Hin. }
  unfold dao_value.
  change (tuple_get (np_shape (PArr (Nd2 r N d))) 1) with (Ok N).
  rewrite bind_Ok, Hedge, bind_Ok, He, bind_Ok, Hg.
  destruct deriv.
  - rewrite (rinter_vec_spec (PArr (Nd2 r N d)) false d N gs true Ht Hd Hgs Hpos).
    reflexivity.
  - rewrite (rinter_vec_spec (PArr (Nd2 r N d)) false d N gs false Ht Hd Hgs Hpos).
    reflexivity.
Qed.

Lemma dao_value_matrix_vector_raises_witness :
  Forall (fun g => ~ off_table 7 g)
         (dao_rescale 7 <$> coords_all (CVec [0%Qc] [0%Qc]))
  /\ dao_value example_daoerf (CVec [0%Qc] [0%Qc]) []
               (PArr (Nd2 7 7 (ramp 7))) PEmptyStr true false
     = Raise IndexError.
Proof.
  assert (Forall (fun g => ~ off_table 7 g)
            (dao_rescale 7 <$> coords_all (CVec [0%Qc] [0%Qc]))) as Hin.
  { repeat constructor; intros [H|H]; vm_compute in H; discriminate. }
  split; [exact Hin|].
  apply (dao_value_matrix_vector_raises example_daoerf [(0%Qc, 0%Qc)] [] 7 7 (ramp 7)
           (Nd1 [qc 1 2]) (Nd2 3 1 [qc 1 1; qc 2 1; qc 3 1]) PEmptyStr true).
  - discriminate.
  - discriminate.
  - reflexivity.
  - exact Hin.
  - reflexivity.
Defined.

(** ** The positions at which [dao_value] evaluates the profile *)

Lemma off_table_rescale (N : nat) (v : Qc) :
  off_table N (dao_rescale N v)
  <-> (v < - psf_radius N \/ psf_radius N < v)%Qc.
Proof.
  unfold off_table, dao_rescale, psf_radius, Qc_two.
  rewrite !Z2Qc_inj_sub.
  generalize (Qc_of_Z (Z.of_nat N)). intros n.
  unfold Qclt, Qcdiv, Qcminus, Qcplus, Qcmult, Qcopp, Qcinv, Q2Qc. cbn [this].
  change (this (Qc_of_Z 1)) with (1%Q). change (this (Qc_of_Z 2)) with (2%Q).
  change (this (Qc_of_Z 3)) with (3%Q). change (this (Qc_of_Z 4)) with (4%Q).
  rewrite !Qred_correct.
  change (this 1%Qc) with 1%Q.
  change (/ 2)%Q with (1 # 2)%Q. change (/ 4)%Q with (1 # 4)%Q.
  split; intros [H|H]; [left|right|left|right]; lra.
Qed.

(** X16. The support of the profile: for a batch that is not empty and a
    table with N columns, [dao_value] returns zeros, without evaluating the
    Gaussian, as soon as one coordinate of the batch is farther than
    (N - 3)/4 from the centre; when every coordinate is within (N - 3)/4 it
    evaluates the Gaussian, so that an exception of the evaluator is the
    exception of the call. *)
Theorem dao_value_support (daoerf : coords -> list Qc -> res (ndarray * ndarray))
    (xy : coords) (gauss : list Qc) (r N : nat) (d : list Qc) (psf1d : pyobj)
    (deriv ps1d : bool) :
  let zeros := zeros_like (coords_x xy) in
  nd_data (coords_x xy) <> [] -> coords_matching xy ->
  (Exists (fun v => (v < - psf_radius N \/ psf_radius N < v)%Qc) (coords_all xy) ->
   dao_value daoerf xy gauss (PArr (Nd2 r N d)) psf1d deriv ps1d
   = Ok (if deriv then Out3 zeros zeros zeros else Out1 zeros))
  /\ (Forall (fun v => (- psf_radius N <= v <= psf_radius N)%Qc) (coords_all xy) ->
      forall e, daoerf xy gauss = Raise e ->
        dao_value daoerf xy gauss (PArr (Nd2 r N d)) psf1d deriv ps1d = Raise e).
Proof.
  intros zeros Hx Hm.
  assert (nd_data (coords_y xy) <> []) as Hy.
  { unfold coords_matching in Hm.
    destruct (nd_data (coords_x xy)), (nd_data (coords_y xy)); done. }
  destruct (dao_edge_spec (coords_x (coords_map (dao_rescale N) xy))
                          (coords_y (coords_map (dao_rescale N) xy)) N)
    as (b & Hb & Hiff).
  { rewrite coords_map_x. by destruct (nd_data (coords_x xy)). }
  { rewrite coords_map_y. by destruct (nd_data (coords_y xy)). }
  rewrite coords_map_x, coords_map_y, <- fmap_app in Hiff.
  fold (coords_all xy) in Hiff.
  split.
  - intros Hout.
    assert (b = true) as ->.
    { apply Hiff. apply Exists_fmap. eapply Exists_impl; [exact Hout|].
      intros v Hv. by apply off_table_rescale. }
    unfold dao_value.
    change (tuple_get (np_shape (PArr (Nd2 r N d))) 1) with (Ok N).
    rewrite bind_Ok, Hb, bind_Ok, times_zero_zeros. by destruct deriv.
  - intros Hin e He.
    assert (b = false) as ->.
    { destruct b; [|done]. destruct Hiff as [Hiff _]. specialize (Hiff eq_refl).
      apply Exists_exists in Hiff as (g & Hg & Hoff).
      apply list_elem_of_fmap in Hg as (v & -> & Hv).
      rewrite Forall_forall in Hin. destruct (Hin v Hv) as [H1 H2].
      apply off_table_rescale in Hoff as [Hoff|Hoff].
      - by apply Qcle_not_lt in H1.
      - by apply Qcle_not_lt in H2. }
    unfold dao_value.
    change (tuple_get (np_shape (PArr (Nd2 r N d))) 1) with (Ok N).
    rewrite bind_Ok, Hb, bind_Ok. destruct deriv; by rewrite He.
Qed.

(** A table with 7 columns has the radius 1: the coordinate 5/4 is
    outside, the coordinates 1 and 0 are inside. *)
Lemma dao_value_support_witness :
  psf_radius 7 = qc 1 1
  /\ dao_value (fun _ _ => Raise TypeError) (CVec [qc 5 4] [0%Qc]) []
               (PArr (Nd2 7 7 (ramp 7))) PEmptyStr true true
     = Ok (Out3 (Nd1 [0%Qc]) (Nd1 [0%Qc]) (Nd1 [0%Qc]))
  /\ dao_value (fun _ _ => Raise TypeError) (CVec [qc 1 1] [0%Qc]) []
               (PArr (Nd2 7 7 (ramp 7))) PEmptyStr true true
     = Raise TypeError.
Proof.
  split; [apply Qc_is_canon; reflexivity|]. split.
  - apply (dao_value_support (fun _ _ => Raise TypeError) (CVec [qc 5 4] [0%Qc]) []
             7 7 (ramp 7) PEmptyStr true true).
    + discriminate.
    + reflexivity.
    + apply Exists_cons_hd. right. reflexivity.
  - apply (dao_value_support (fun _ _ => Raise TypeError) (CVec [qc 1 1] [0%Qc]) []
             7 7 (ramp 7) PEmptyStr true true).
    + discriminate.
    + reflexivity.
    + repeat constructor; vm_compute; discriminate.
    + reflexivity.
Defined.

(** ** Locality, and the derivatives at the nodes *)

(** X17. Locality: the result depends on the table only through the
    sixteen elements around each sample, the four neighbours in each of
    its four rows, read with the last element in place of an element
    beyond either end of the table; two tables that agree on these
    elements give the same result. *)
Theorem rinter_local (p p' : pyobj) (ps1d : bool) (l l' : list Qc) (stride : nat)
    (ss : list (Qc * Qc)) (deriv : bool) :
  table_flat p ps1d = Some (l, stride) ->
  table_flat p' ps1d = Some (l', stride) ->
  l <> [] -> l' <> [] -> ss <> [] ->
  Forall (fun s => 0 <= row_index (Z.of_nat stride) s 0) ss ->
  (forall s r o, s ∈ ss -> 0 <= r <= 3 -> -1 <= o <= 2 ->
     edge_read l (row_index (Z.of_nat stride) s r + o)
     = edge_read l' (row_index (Z.of_nat stride) s r + o)) ->
  (rinter p (CVec ss.*1 ss.*2) deriv false ps1d).2
  = (rinter p' (CVec ss.*1 ss.*2) deriv false ps1d).2.
Proof.
  intros Ht Ht' Hl Hl' Hss Hpos Hsame.
  assert (0 <= Z.of_nat stride) as Hst by lia.
  rewrite (rinter_vec_spec p ps1d l stride ss deriv Ht Hl Hss Hpos).
  rewrite (rinter_vec_spec p' ps1d l' stride ss deriv Ht' Hl' Hss Hpos).
  cbn [snd].
  assert (forall s, s ∈ ss ->
    bicubic (batch_table l (Z.of_nat stride) ss) (Z.of_nat stride) s
    = bicubic (batch_table l' (Z.of_nat stride) ss) (Z.of_nat stride) s
    /\ bicubic_dx (batch_table l (Z.of_nat stride) ss) (Z.of_nat stride) s
       = bicubic_dx (batch_table l' (Z.of_nat stride) ss) (Z.of_nat stride) s
    /\ bicubic_dy (batch_table l (Z.of_nat stride) ss) (Z.of_nat stride) s
       = bicubic_dy (batch_table l' (Z.of_nat stride) ss) (Z.of_nat stride) s) as E.
  { intros s Hs. refine (bicubic_ext _ _ _ s _). intros r o Hr Ho.
    rewrite !batch_table_edge_read by done. by apply Hsame. }
  rewrite (fmap_ext_elem _ _ ss (fun s Hs => proj1 (E s Hs))).
  rewrite (fmap_ext_elem _ _ ss (fun s Hs => proj1 (proj2 (E s Hs)))).
  rewrite (fmap_ext_elem _ _ ss (fun s Hs => proj2 (proj2 (E s Hs)))).
  reflexivity.
Qed.

(** Two 7 x 7 tables that differ in their first element only, and a
    sample whose neighbours are in the rows 2 to 5. *)
Lemma rinter_local_witness :
  table_flat (PArr (Nd1 (ramp 7))) true = Some (ramp 7, 7%nat)
  /\ table_flat (PArr (Nd1 (<[0%nat := qc 9 1]> (ramp 7)))) true
     = Some (<[0%nat := qc 9 1]> (ramp 7), 7%nat)
  /\ (rinter (PArr (Nd1 (ramp 7))) (CVec [qc 7 2] [qc 7 2]) true false true).2
     = (rinter (PArr (Nd1 (<[0%nat := qc 9 1]> (ramp 7))))
               (CVec [qc 7 2] [qc 7 2]) true false true).2.
Proof.
  split; [reflexivity|]. split; [reflexivity|].
  apply (rinter_local (PArr (Nd1 (ramp 7))) (PArr (Nd1 (<[0%nat := qc 9 1]> (ramp 7))))
           true (ramp 7) (<[0%nat := qc 9 1]> (ramp 7)) 7 [(qc 7 2, qc 7 2)] true).
  - reflexivity.
  - reflexivity.
  - discriminate.
  - discriminate.
  - discriminate.
  - repeat constructor; vm_compute; discriminate.
  - intros s r o Hs Hr Ho.
    apply list_elem_of_singleton in Hs as ->.
    assert (r = 0 \/ r = 1 \/ r = 2 \/ r = 3) as Hr' by lia.
    assert (o = -1 \/ o = 0 \/ o = 1 \/ o = 2) as Ho' by lia.
    destruct Hr' as [-> | [-> | [-> | ->]]];
      destruct Ho' as [-> | [-> | [-> | ->]]]; vm_compute; reflexivity.
Defined.

Lemma dcubic_at_0 (p_1 p0 p1 p2 : Qc) :
  dcubic p_1 p0 p1 p2 0 = (Qc_half * (p1 - p_1))%Qc.
Proof. unfold dcubic, cubic_c1. ring. Qed.

(** X18. The derivatives at the nodes: for an N x N table and a batch of
    interior integer grid nodes (i, j), with 1 <= i, j <= N - 2, [rinter]
    returns as [dfdx] the central difference 0.5*(p[k+1] - p[k-1]) and as
    [dfdy] the central difference 0.5*(p[k+N] - p[k-N]) of the flattened
    table at k = N*j + i. *)
Theorem rinter_derivatives_at_nodes (p : pyobj) (ps1d : bool) (l : list Qc) (N : nat)
    (nodes : list (Z * Z)) :
  table_flat p ps1d = Some (l, N) ->
  length l = (N * N)%nat ->
  nodes <> [] ->
  Forall (fun n => 1 <= n.1 <= Z.of_nat N - 2 /\ 1 <= n.2 <= Z.of_nat N - 2) nodes ->
  let ss := (fun n => (Qc_of_Z n.1, Qc_of_Z n.2)) <$> nodes in
  let k n := Z.of_nat N * n.2 + n.1 in
  exists z,
    (rinter p (CVec ss.*1 ss.*2) true false ps1d).2
    = Ok (Out3 z
            (Nd1 ((fun n => Qc_half * (tab_at l (k n + 1) - tab_at l (k n - 1)))%Qc
                  <$> nodes))
            (Nd1 ((fun n => Qc_half * (tab_at l (k n + Z.of_nat N)
                                       - tab_at l (k n - Z.of_nat N)))%Qc
                  <$> nodes))).
Proof.
  intros Ht Hlen Hn Hint ss k.
  assert (3 <= N)%nat as HN.
  { destruct nodes as [|n nodes']; [done|]. apply Forall_cons in Hint as [[H1 H2] _]. lia. }
  assert (l <> []) as Hl by (intros ->; simpl in Hlen; nia).
  assert (ss <> []) as Hss by (unfold ss; by destruct nodes).
  rewrite Forall_forall in Hint.
  assert (Forall (fun s => 0 <= row_index (Z.of_nat N) s 0) ss) as Hpos.
  { apply Forall_fmap, Forall_forall. intros n Hin. destruct (Hint n Hin) as [H1 H2].
    unfold row_index. simpl. rewrite !Qc_trunc_of_Z. nia. }
  rewrite (rinter_vec_spec p ps1d l N ss true Ht Hl Hss Hpos).
  eexists. cbn [snd rinter_out]. unfold ss. rewrite <- !list_fmap_compose.
  f_equal. f_equal.
  - f_equal. apply fmap_ext_elem. intros n Hin.
    destruct (Hint n Hin) as [H1 H2]. cbn [compose].
    unfold bicubic_dx. cbn [fst snd]. rewrite frac_of_Z, cubic_at_0.
    unfold row_deriv. cbn [fst snd]. rewrite frac_of_Z, dcubic_at_0.
    unfold row_index. cbn [fst snd]. rewrite !Qc_trunc_of_Z.
    rewrite !batch_table_tab_at by nia. unfold k.
    do 2 f_equal; f_equal; lia.
  - f_equal. apply fmap_ext_elem. intros n Hin.
    destruct (Hint n Hin) as [H1 H2]. cbn [compose].
    unfold bicubic_dy. cbn [fst snd]. rewrite frac_of_Z, dcubic_at_0.
    unfold row_value. cbn [fst snd]. rewrite !frac_of_Z, !cubic_at_0.
    unfold row_index. cbn [fst snd]. rewrite !Qc_trunc_of_Z.
    rewrite !batch_table_tab_at by nia. unfold k.
    do 2 f_equal; f_equal; lia.
Qed.

(** A 5 x 5 table of the values 5 * row + col and its centre node: the
    differences are 1 along x and 5 along y. *)
Lemma rinter_derivatives_at_nodes_witness :
  table_flat (PArr (Nd1 (ramp 5))) true = Some (ramp 5, 5%nat)
  /\ exists z,
       (rinter (PArr (Nd1 (ramp 5))) (CVec [Qc_of_Z 2] [Qc_of_Z 2]) true false true).2
       = Ok (Out3 z
               (Nd1 [(Qc_half * (tab_at (ramp 5) (12 + 1) - tab_at (ramp 5) (12 - 1)))%Qc])
               (Nd1 [(Qc_half * (tab_at (ramp 5) (12 + 5) - tab_at (ramp 5) (12 - 5)))%Qc])).
Proof.
  split; [reflexivity|].
  apply (rinter_derivatives_at_nodes (PArr (Nd1 (ramp 5))) true (ramp 5) 5 [(2, 2)]).
  - reflexivity.
  - reflexivity.
  - discriminate.
  - repeat constructor; simpl; lia.
Defined.

(** ** The subscripts at which the coefficients are computed *)

Lemma where_ge1_sorted_from (num : list nat) (n : nat) :
  StronglySorted Z.lt
    ((fun kv : nat * nat => Z.of_nat kv.1)
       <$> filter (fun kv : nat * nat => (1 <= kv.2)%nat)
                  (imap (fun i c => ((n + i)%nat, c)) num))
  /\ Forall (fun k => Z.of_nat n <= k)
       ((fun kv : nat * nat => Z.of_nat kv.1)
          <$> filter (fun kv : nat * nat => (1 <= kv.2)%nat)
                     (imap (fun i c => ((n + i)%nat, c)) num)).
Proof.
  revert n. induction num as [|c num IH]; intros n.
  - split; constructor.
  - rewrite imap_cons.
    assert (imap ((fun i c => ((n + i)%nat, c)) ∘ S) num
            = imap (fun i c => ((S n + i)%nat, c)) num) as ->.
    { apply imap_ext. intros i x _. simpl. f_equal. lia. }
    destruct (IH (S n)) as [Hs Hge].
    assert (Forall (fun k => Z.of_nat n < k)
              ((fun kv : nat * nat => Z.of_nat kv.1)
                 <$> filter (fun kv : nat * nat => (1 <= kv.2)%nat)
                            (imap (fun i c => ((S n + i)%nat, c)) num))) as Hgt.
    { eapply Forall_impl; [exact Hge|]. intros k Hk. simpl in Hk. lia. }
    rewrite filter_cons. case_decide.
    + rewrite fmap_cons. cbn [fst]. rewrite Nat.add_0_r. split.
      * constructor; done.
      * constructor; [lia|]. eapply Forall_impl; [exact Hgt|]. intros k Hk. simpl in Hk. lia.
    + split; [done|]. eapply Forall_impl; [exact Hgt|]. intros k Hk. simpl in Hk. lia.
Qed.

Lemma np_where_ge1_sorted (num : list nat) : StronglySorted Z.lt (np_where_ge1 num).
Proof. exact (proj1 (where_ge1_sorted_from num 0)). Qed.

(** X19. The subscripts [xgood] of lines 132-135: when the largest needed
    subscript is not negative, [xgood] holds the needed subscripts that
    are not negative, each of them once, in increasing order; so the
    assignments [c1[xgood] = ...] of the coefficients write every element
    at most once. *)
Theorem rinter_xgood_sorted (x_1 x0 x1 x2 : list Z) (mx : Z) :
  py_max (x_1 ++ x0 ++ x1 ++ x2) = Ok mx -> 0 <= mx ->
  exists xgood, rinter_xgood x_1 x0 x1 x2 = Ok xgood
    /\ StronglySorted Z.lt xgood
    /\ NoDup xgood
    /\ forall k, k ∈ xgood <-> 0 <= k /\ k ∈ x_1 ++ x0 ++ x1 ++ x2.
Proof.
  intros Hmx Hpos.
  destruct (rinter_xgood_spec x_1 x0 x1 x2 mx Hmx Hpos) as (xgood & E & Hiff & _).
  exists xgood. split; [exact E|].
  assert (StronglySorted Z.lt xgood) as Hs.
  { unfold rinter_xgood in E. rewrite Hmx, bind_Ok in E. injection E as <-.
    apply np_where_ge1_sorted. }
  split; [exact Hs|]. split; [|exact Hiff].
  clear -Hs. induction Hs as [|k xs Hs IH Hk]; constructor; [|done].
  intros Hin. rewrite Forall_forall in Hk. apply Hk in Hin. lia.
Qed.

(** The subscripts of one sample at (2, 2) of a 5 x 5 table and of one at
    (2, 3): the rows 12, 17, 22 are needed twice. *)
Lemma rinter_xgood_sorted_witness :
  exists xgood,
    rinter_xgood [7; 12] [12; 17] [17; 22] [22; 27] = Ok xgood
    /\ StronglySorted Z.lt xgood
    /\ NoDup xgood
    /\ forall k, k ∈ xgood
         <-> 0 <= k /\ k ∈ [7; 12] ++ [12; 17] ++ [17; 22] ++ [22; 27].
Proof.
  apply (rinter_xgood_sorted [7; 12] [12; 17] [17; 22] [22; 27] 27).
  - reflexivity.
  - lia.
Defined.

(** ** Arguments that [dao_value] rejects *)

(** X20. [dao_value] reads the number of columns of [psf] before anything
    else, also when the table that is interpolated is [psf1d]: a [psf]
    whose shape has not two dimensions raises IndexError at [s[1]]; and
    with a matrix [psf], an empty vector [xx] raises ValueError at
    [np.min(x)]. *)
Theorem dao_value_rejects (daoerf : coords -> list Qc -> res (ndarray * ndarray))
    (xy : coords) (gauss : list Qc) (psf psf1d : pyobj) (deriv ps1d : bool) :
  (length (np_shape psf) <> 2%nat ->
   dao_value daoerf xy gauss psf psf1d deriv ps1d = Raise IndexError)
  /\ (forall r N d ys,
        dao_value daoerf (CVec [] ys) gauss (PArr (Nd2 r N d)) psf1d deriv ps1d
        = Raise ValueError).
Proof.
  split.
  - intros Hp. unfold dao_value.
    assert (tuple_get (np_shape psf) 1 = Raise IndexError) as ->; [|done].
    destruct psf as [|[v|l|r c d]]; done.
  - intros r N d ys. reflexivity.
Qed.

(** The residual given as a vector only, and an empty batch. *)
Lemma dao_value_rejects_witness :
  length (np_shape (PArr (Nd1 (ramp 7)))) <> 2%nat
  /\ dao_value example_daoerf (CVec [0%Qc] [0%Qc]) [] (PArr (Nd1 (ramp 7)))
               (PArr (Nd1 (ramp 7))) true true
     = Raise IndexError
  /\ dao_value example_daoerf (CVec [] []) [] (PArr (Nd2 7 7 (ramp 7)))
               (PArr (Nd1 (ramp 7))) true true
     = Raise ValueError.
Proof.
  split; [simpl; lia|]. split.
  - apply (dao_value_rejects example_daoerf (CVec [0%Qc] [0%Qc]) [] (PArr (Nd1 (ramp 7)))
             (PArr (Nd1 (ramp 7))) true true).
    simpl; lia.
  - apply (dao_value_rejects example_daoerf (CVec [] []) [] (PArr (Nd2 7 7 (ramp 7)))
             (PArr (Nd1 (ramp 7))) true true).
Defined.
